(** * The weekly marketing digest generator

    A shallow embedding of [scripts/generate_digest.py] and the verification
    of its specification.  The script runs four phases in sequence: it
    collects recent articles from RSS feeds, asks a search API for insights,
    has a text-generation API write the digest, and publishes the result as
    static pages.

    Conventions of the model.
    - A Python [str] is the list of its Unicode code points ([list N]).
    - A timezone-aware UTC [datetime] is its instant: the number of
      microseconds since the epoch.  Its calendar fields are computed from the
      instant ([date_of]).
    - Python code that logs, touches files or raises lives in the monad [M]:
      a state (files and log) is threaded through, and a computation ends
      with a value or with a raised exception.  State changes made before an
      exception is raised persist, as in Python.
    - What the script obtains from outside (environment variables, the clock,
      the answers of the three remote services) is a [World].
    - Functions of third-party libraries whose code is not part of the
      repository are fields of the class [Library].

    The file has the model first (strings, the monad, dates, the values from
    outside, the constants and functions of the script, the definitions the
    specification is stated with, a sample library and sample inputs), then
    the proofs.  The properties of the specification are the theorems
    - [C1_recency_window]: the recency window of the feed collector;
    - [C2_exit_code]: the exit code and the files when generation fails;
    - [C3_archive_and_block]: what the archive index and the block list;
    - [C4_patch_frame]: what the patch of the main page leaves alone;
    - [C5_insights_never_abort]: the insight fetcher never raises;
    - [C6_publisher_idempotent]: the publisher run twice;
    - [C7_summary_budget]: the summary of an article;
    - [C8_prompt]: the prompt sent to the text-generation API;
    - [C9_unparseable_stem_listed]: files that match the pattern and are no
      dates;
    - [C10_index_never_listed]: the index page is no digest. *)

From Stdlib Require Import ZArith String Ascii Lia Floats.
From stdpp Require Import gmap list sorting.

Set Warnings "-register-all".
Local Open Scope Z_scope.

(** ** Python strings *)

Abbreviation pystr := (list N).

(** String literals are written as Rocq strings in UTF-8 and decoded into code
    points.  Inside a literal the grave accent stands for the double quote
    (the script has no grave accent). *)
Fixpoint utf8_decode (bs : list N) (acc : N) (pending : nat) : pystr :=
  match bs with
  | [] => []
  | b :: bs' =>
      match pending with
      | O =>
          if (b <? 128)%N then b :: utf8_decode bs' 0%N O
          else if (b <? 224)%N then utf8_decode bs' (b - 192)%N 1%nat
          else if (b <? 240)%N then utf8_decode bs' (b - 224)%N 2%nat
          else utf8_decode bs' (b - 240)%N 3%nat
      | S O => (acc * 64 + (b - 128))%N :: utf8_decode bs' 0%N O
      | S k => utf8_decode bs' (acc * 64 + (b - 128))%N k
      end
  end.

Definition lit (s : string) : pystr :=
  map (fun c => if (c =? 96)%N then 34%N else c)
      (utf8_decode (map N_of_ascii (list_ascii_of_string s)) 0%N O).

Definition nl : pystr := [10%N].

(** [bool(s)]: a string is truthy when it is not empty. *)
Definition truthy (s : pystr) : bool :=
  match s with [] => false | _ => true end.

(** [a or b] on strings. *)
Definition str_or (a b : pystr) : pystr := if truthy a then a else b.

(** [sep.join(parts)]. *)
Fixpoint join (sep : pystr) (parts : list pystr) : pystr :=
  match parts with
  | [] => []
  | [p] => p
  | p :: rest => p ++ sep ++ join sep rest
  end.

(** [s.startswith(sub)]. *)
Fixpoint startswith (sub s : pystr) : bool :=
  match sub, s with
  | [], _ => true
  | _ :: _, [] => false
  | a :: sub', b :: s' => (a =? b)%N && startswith sub' s'
  end.

(** [s.find(sub)]: the lowest index where [sub] occurs in [s], or -1. *)
Fixpoint find_from (sub s : pystr) (i : Z) : Z :=
  if startswith sub s then i
  else match s with
       | [] => -1
       | _ :: s' => find_from sub s' (i + 1)
       end.

Definition find (s sub : pystr) : Z := find_from sub s 0.

(** [s.rfind(sub)]: the highest index where [sub] occurs in [s], or -1. *)
Fixpoint rfind_from (sub s : pystr) (i : Z) : Z :=
  match s with
  | [] => if startswith sub s then i else -1
  | _ :: s' =>
      let r := rfind_from sub s' (i + 1) in
      if r =? -1 then (if startswith sub s then i else -1) else r
  end.

Definition rfind (s sub : pystr) : Z := rfind_from sub s 0.

(** Slices [s[:i]] and [s[i:]]; a negative index counts from the end. *)
Definition slice_index (s : pystr) (i : Z) : nat :=
  Z.to_nat (if i <? 0 then Z.max 0 (Z.of_nat (length s) + i) else i).

Definition slice_to (s : pystr) (i : Z) : pystr := take (slice_index s i) s.
Definition slice_from (s : pystr) (i : Z) : pystr := drop (slice_index s i) s.

(** [c.isspace()]: the characters [str.strip()] removes. *)
Definition isspace (c : N) : bool :=
  ((9 <=? c) && (c <=? 13) || (28 <=? c) && (c <=? 32) || (c =? 133)
   || (c =? 160) || (c =? 5760) || (8192 <=? c) && (c <=? 8202)
   || (c =? 8232) || (c =? 8233) || (c =? 8239) || (c =? 8287)
   || (c =? 12288))%N.

Fixpoint lstrip (s : pystr) : pystr :=
  match s with
  | [] => []
  | c :: s' => if isspace c then lstrip s' else s
  end.

Definition rstrip (s : pystr) : pystr := rev (lstrip (rev s)).
Definition strip (s : pystr) : pystr := rstrip (lstrip s).

(** [str(n)] for an integer. *)
Fixpoint uint_chars (u : Decimal.uint) : pystr :=
  match u with
  | Decimal.Nil => []
  | Decimal.D0 u => 48%N :: uint_chars u
  | Decimal.D1 u => 49%N :: uint_chars u
  | Decimal.D2 u => 50%N :: uint_chars u
  | Decimal.D3 u => 51%N :: uint_chars u
  | Decimal.D4 u => 52%N :: uint_chars u
  | Decimal.D5 u => 53%N :: uint_chars u
  | Decimal.D6 u => 54%N :: uint_chars u
  | Decimal.D7 u => 55%N :: uint_chars u
  | Decimal.D8 u => 56%N :: uint_chars u
  | Decimal.D9 u => 57%N :: uint_chars u
  end.

Definition str_of_int (n : Z) : pystr :=
  match Z.to_int n with
  | Decimal.Pos u => uint_chars u
  | Decimal.Neg u => 45%N :: uint_chars u
  end.

(** Zero-padded decimal fields, as [strftime] prints [%m], [%d] and [%Y]. *)
Definition digit_char (n : Z) : N := Z.to_N (48 + n mod 10).
Definition pad2 (n : Z) : pystr := [digit_char (n / 10); digit_char n].
Definition pad4 (n : Z) : pystr :=
  [digit_char (n / 1000); digit_char (n / 100); digit_char (n / 10); digit_char n].

(** Comparison of strings: lexicographic on code points. *)
Fixpoint str_compare (a b : pystr) : comparison :=
  match a, b with
  | [], [] => Eq
  | [], _ :: _ => Lt
  | _ :: _, [] => Gt
  | x :: a', y :: b' =>
      match (x ?= y)%N with
      | Eq => str_compare a' b'
      | c => c
      end
  end.

Definition str_le (a b : pystr) : Prop := str_compare a b <> Gt.
Definition str_lt (a b : pystr) : Prop := str_compare a b = Lt.

#[global] Instance str_le_dec a b : Decision (str_le a b).
Proof. unfold str_le. destruct (str_compare a b); [left | left | right]; congruence. Defined.

(** [sorted(names, reverse=True)]: descending order. *)
Definition sorted_reverse (names : list pystr) : list pystr :=
  merge_sort (fun a b => str_le b a) names.

(** ** Exceptions, the state and the monad *)

Inductive exn_class :=
  | ValueError | KeyError | IndexError | TypeError | AttributeError
  | RuntimeError | OverflowError
  | LibraryError.  (* any other subclass of [Exception] a library raises *)

(** An instance of [Exception]: its class and [str(e)]. *)
Record error := Error { err_class : exn_class; err_msg : pystr }.

(** What can be raised: an [Exception], or [SystemExit], which
    [except Exception] does not catch. *)
Inductive exn :=
  | Exception (e : error)
  | SystemExit (code : Z).

Inductive level := INFO | WARNING | ERROR.

(** The files the script touches and its log.  [digest_dir] maps the names of
    the files of [DIGEST_DIR] to their text (a missing directory is the empty
    one); [main_index] is the text stored in [MAIN_INDEX] when that file
    exists, with the line endings it has on disk.  Files are UTF-8. *)
Record State := mkState {
  digest_dir : gmap pystr pystr;
  main_index : option pystr;
  log : list (level * pystr)
}.

Definition M (A : Type) : Type := State -> (exn + A) * State.

Definition ret {A} (a : A) : M A := fun st => (inr a, st).

Definition bind {A B} (m : M A) (k : A -> M B) : M B :=
  fun st =>
    match m st with
    | (inr a, st') => k a st'
    | (inl e, st') => (inl e, st')
    end.

Notation "x <- m ;; k" := (bind m (fun x => k))
  (at level 100, m at next level, right associativity).
Notation "m ;;; k" := (bind m (fun _ => k))
  (at level 100, right associativity).

Definition raise {A} (e : exn) : M A := fun st => (inl e, st).

(** The outcome of a call that returns or raises an [Exception]. *)
Definition lift {A} (r : error + A) : M A :=
  match r with
  | inr a => ret a
  | inl e => raise (Exception e)
  end.

(** [try: body / except Exception as e: handler(e)]. *)
Definition try_except {A} (body : M A) (handler : error -> M A) : M A :=
  fun st =>
    match body st with
    | (inl (Exception e), st') => handler e st'
    | r => r
    end.

(** [try: body / except ValueError: handler]. *)
Definition try_except_ValueError {A} (body : M A) (handler : M A) : M A :=
  fun st =>
    match body st with
    | (inl (Exception (Error ValueError msg)), st') => handler st'
    | r => r
    end.

(** [log.info], [log.warning], [log.error]. *)
Definition log_msg (lv : level) (msg : pystr) : M unit :=
  fun st => (inr tt, mkState (digest_dir st) (main_index st) (log st ++ [(lv, msg)])).

(** [sys.exit(code)]. *)
Definition sys_exit {A} (code : Z) : M A := raise (SystemExit code).

(** The exit code of the process that runs [m] as its main program: 0 when
    [m] returns, the code of [SystemExit], 1 for an uncaught exception. *)
Definition exit_code {A} (r : exn + A) : Z :=
  match r with
  | inr _ => 0
  | inl (SystemExit c) => c
  | inl (Exception _) => 1
  end.

(** ** Dates *)

Record Date := mkDate { year : Z; month : Z; day : Z }.

Definition usec_per_day : Z := 86400 * 1000000.

(** The proleptic Gregorian date of the day [z] days after 1970-01-01. *)
Definition month_of_doe (doe : Z) : Z :=
  let yoe := (doe - doe / 1460 + doe / 36524 - doe / 146096) / 365 in
  let doy := doe - (365 * yoe + yoe / 4 - yoe / 100) in
  let mp := (5 * doy + 2) / 153 in
  if mp <? 10 then mp + 3 else mp - 9.

Definition civil_from_days (z : Z) : Date :=
  let z := z + 719468 in
  let era := z / 146097 in
  let doe := z mod 146097 in
  let yoe := (doe - doe / 1460 + doe / 36524 - doe / 146096) / 365 in
  let doy := doe - (365 * yoe + yoe / 4 - yoe / 100) in
  let mp := (5 * doy + 2) / 153 in
  let d := doy - (153 * mp + 2) / 5 + 1 in
  let m := month_of_doe doe in
  mkDate (yoe + era * 400 + (if m <=? 2 then 1 else 0)) m d.

(** [dt.year], [dt.month], [dt.day] of a UTC datetime. *)
Definition date_of (dt : Z) : Date := civil_from_days (dt / usec_per_day).

(** [d.strftime("%Y-%m-%d")] with the C library of Linux, whose [%Y] prints
    the year without padding: [999-01-05] in the year 999, four digits from
    the year 1000 on. *)
Definition iso_date (d : Date) : pystr :=
  str_of_int (year d) ++ [45%N] ++ pad2 (month d) ++ [45%N] ++ pad2 (day d).

Definition strftime_ymd (dt : Z) : pystr := iso_date (date_of dt).

(** [datetime.fromtimestamp(t, tz=timezone.utc)], which raises outside the
    years 1 to 9999. *)
Definition fromtimestamp (t : Z) : error + Z :=
  if (-62135596800 <=? t) && (t <=? 253402300799)
  then inr (t * 1000000)
  else inl (Error ValueError (lit "year is out of range")).

(** The least and the greatest [datetime]: the first microsecond of the year
    1 and the last of the year 9999. *)
Definition DATETIME_MIN : Z := -62135596800 * 1000000.
Definition DATETIME_MAX : Z := 253402300800 * 1000000 - 1.

(** [timedelta(days=days)]. *)
Definition timedelta_days (days : Z) : error + Z :=
  if (-999999999 <=? days) && (days <=? 999999999) then inr (days * usec_per_day)
  else inl (Error OverflowError
              (lit "days=" ++ str_of_int days ++ lit "; must have magnitude <= 999999999")).

(** [dt - delta] for a [datetime] and a [timedelta]: it raises when the
    result is no [datetime]. *)
Definition datetime_sub (dt delta : Z) : error + Z :=
  if (DATETIME_MIN <=? dt - delta) && (dt - delta <=? DATETIME_MAX) then inr (dt - delta)
  else inl (Error OverflowError (lit "date value out of range")).

(** An instant the clock of the machine can show: Unix time is not negative,
    and [datetime.now] returns a [datetime]. *)
Definition real_clock (t : Z) : Prop := (0 <=? t) && (t <=? DATETIME_MAX) = true.

Definition CZECH_MONTHS : list (Z * pystr) :=
  [ (1, lit "ledna"); (2, lit "února"); (3, lit "března"); (4, lit "dubna");
    (5, lit "května"); (6, lit "června"); (7, lit "července"); (8, lit "srpna");
    (9, lit "září"); (10, lit "října"); (11, lit "listopadu"); (12, lit "prosince") ].

(** [d[k]] on a dict with integer keys. *)
Fixpoint dict_get (d : list (Z * pystr)) (k : Z) : error + pystr :=
  match d with
  | [] => inl (Error KeyError (str_of_int k))
  | (k', v) :: d' => if k' =? k then inr v else dict_get d' k
  end.

Definition format_date_czech (dt : Date) : error + pystr :=
  match dict_get CZECH_MONTHS (month dt) with
  | inr name => inr (str_of_int (day dt) ++ lit ". " ++ name ++ lit " " ++ str_of_int (year dt))
  | inl e => inl e
  end.

(** ** Values from outside *)

(** [time.struct_time]: what feedparser stores in [published_parsed] and
    [updated_parsed].  It is a 9-tuple, so it is always truthy. *)
Record struct_time := mk_struct_time {
  tm_year : Z; tm_mon : Z; tm_mday : Z; tm_hour : Z; tm_min : Z; tm_sec : Z;
  tm_wday : Z; tm_yday : Z; tm_isdst : Z
}.

(** A feed entry.  A field is [None] when the entry lacks the attribute (or,
    for the two dates, when feedparser stored [None]). *)
Record Entry := mkEntry {
  published_parsed : option struct_time;
  updated_parsed : option struct_time;
  entry_summary : option pystr;
  entry_title : option pystr;
  entry_link : option pystr
}.

(** The result of [feedparser.parse]: [feed.feed.title], when present, and
    [feed.entries]. *)
Record Feed := mkFeed {
  feed_title : option pystr;
  entries : list Entry
}.

(** A value decoded from JSON. *)
Inductive json :=
  | JNull
  | JBool (b : bool)
  | JInt (n : Z)
  | JFloat (f : float)
  | JStr (s : pystr)
  | JArr (items : list json)
  | JObj (items : list (pystr * json)).

(** The response of [requests.post]: status line and the outcome of
    [resp.json()]. *)
Record Response := mkResponse {
  status_code : Z;
  reason : pystr;
  json_body : error + json
}.

(** A content block of a message of the text-generation API.  Only a text
    block has the attribute [text]. *)
Inductive ContentBlock :=
  | TextBlock (text : pystr)
  | OtherBlock (type_name : pystr).

Record World := mkWorld {
  ANTHROPIC_API_KEY : pystr;       (* os.environ.get("ANTHROPIC_API_KEY", "") *)
  PERPLEXITY_API_KEY : pystr;      (* os.environ.get("PERPLEXITY_API_KEY", "") *)
  now_main : Z;                    (* datetime.now(timezone.utc) in main *)
  now_fetch : Z;                   (* datetime.now(timezone.utc) in fetch_rss_articles *)
  feedparser_parse : pystr -> error + Feed;
  requests_post : error + Response;                    (* the one POST request *)
  messages_create : pystr -> error + list ContentBlock; (* by the prompt sent *)
  now_main_real : real_clock now_main;
  now_fetch_real : real_clock now_fetch
}.

(** Library functions whose code is outside the repository. *)
Class Library := mkLibrary {
  (** [time.mktime]: seconds since the epoch of a local-time tuple; it raises
      [OverflowError] or [ValueError] when the tuple cannot be represented. *)
  mktime : struct_time -> error + Z;
  (** [BeautifulSoup(markup, "html.parser")] raises when the parser rejects
      the markup: the exception, if there is one. *)
  parser_rejects : pystr -> option error;
  (** [BeautifulSoup(markup, "html.parser").get_text()], for markup the parser
      accepts. *)
  get_text : pystr -> pystr;
  (** The value of a character that is a Unicode decimal digit (what the
      regular expression [\d] matches and [int] converts). *)
  decimal : N -> option Z;
  (** [str(v)] for a JSON value that is not a string. *)
  py_str : json -> pystr;
  (** [str(REPO_ROOT)], the directory above the script's directory. *)
  REPO_ROOT : pystr
}.

(** ** Constants of the script *)

Definition FEEDS : list pystr :=
  [ lit "https://www.adweek.com/feed/";
    lit "https://marketingland.com/feed";
    lit "https://www.businessoffashion.com/feed/";
    lit "http://feeds.harvardbusiness.org/harvardbusiness" ].

Record Article := mkArticle {
  title : pystr; link : pystr; summary : pystr; source : pystr; date : pystr
}.

Record Digest := mkDigest {
  filename : pystr; date_str : pystr; date_display : pystr
}.

Definition START_MARKER : pystr := Eval vm_compute in lit "<!-- DIGEST_LIST_START -->".
Definition END_MARKER : pystr := Eval vm_compute in lit "<!-- DIGEST_LIST_END -->".

(** The pattern of [DIGEST_DIR.glob]. *)
Definition DIGEST_PATTERN : pystr := Eval vm_compute in lit "????-??-??.html".

Definition SHARED_CSS : pystr := lit
"    *, *::before, *::after { box-sizing: border-box; margin: 0; padding: 0; }
    :root {
      --bg: #FAF8F5; --bg-card: #F0EAE0; --bg-card-hover: #E8DDD0;
      --text: #1C1410; --text-muted: #7A6A5A; --accent: #C8A96E;
      --accent-dark: #A8893E; --border: #E2D8CC; --white: #FFFFFF;
    }
    html { scroll-behavior: smooth; }
    body { background-color: var(--bg); color: var(--text); font-family: 'Inter', sans-serif; font-weight: 400; line-height: 1.6; -webkit-font-smoothing: antialiased; }
    nav { position: fixed; top: 0; left: 0; right: 0; z-index: 100; padding: 1.25rem 2rem; display: flex; align-items: center; justify-content: space-between; background: rgba(250,248,245,0.85); backdrop-filter: blur(12px); -webkit-backdrop-filter: blur(12px); border-bottom: 1px solid var(--border); }
    .nav-logo { font-family: 'Playfair Display', serif; font-style: italic; font-size: 1.15rem; color: var(--text); text-decoration: none; letter-spacing: 0.01em; }
    .nav-links { display: flex; gap: 1.75rem; list-style: none; }
    .nav-links a { font-size: 0.8rem; font-weight: 500; letter-spacing: 0.1em; text-transform: uppercase; color: var(--text-muted); text-decoration: none; transition: color 0.2s; }
    .nav-links a:hover { color: var(--accent); }
    .section-label { font-size: 0.72rem; font-weight: 600; letter-spacing: 0.18em; text-transform: uppercase; color: var(--accent); margin-bottom: 0.75rem; }
    .section-title { font-family: 'Playfair Display', serif; font-size: clamp(2rem, 5vw, 3rem); font-weight: 700; line-height: 1.15; margin-bottom: 2.5rem; }
    .section-title em { font-style: italic; font-weight: 400; color: var(--accent); }
    .section-inner { max-width: 900px; margin: 0 auto; }
    .digest-list { display: flex; flex-direction: column; gap: 0.75rem; }
    .digest-item { display: flex; align-items: center; gap: 1.5rem; padding: 1.1rem 1.5rem; background: var(--bg-card); border-radius: 12px; border: 1px solid var(--border); text-decoration: none; color: var(--text); transition: transform 0.2s ease, box-shadow 0.2s ease, border-color 0.2s ease; }
    .digest-item:hover { transform: translateX(4px); box-shadow: 0 4px 16px rgba(200,169,110,0.12); border-color: var(--accent); }
    .digest-date { font-size: 0.75rem; font-weight: 600; letter-spacing: 0.08em; color: var(--accent); text-transform: uppercase; white-space: nowrap; flex-shrink: 0; }
    .digest-title { flex: 1; font-size: 0.9rem; color: var(--text-muted); }
    .digest-arrow { color: var(--accent); flex-shrink: 0; }
    .digest-coming-soon { font-size: 0.85rem; color: var(--text-muted); font-style: italic; padding: 1.5rem; text-align: center; background: var(--bg-card); border-radius: 12px; border: 1px dashed var(--border); }
    footer { text-align: center; padding: 2.5rem 2rem; border-top: 1px solid var(--border); font-size: 0.78rem; color: var(--text-muted); letter-spacing: 0.04em; }
    footer a { color: var(--accent); text-decoration: none; }
    footer a:hover { text-decoration: underline; }
    @media (max-width: 700px) { nav { padding: 1rem 1.25rem; } .nav-links { gap: 1.25rem; } .digest-item { flex-direction: column; align-items: flex-start; gap: 0.3rem; } }".

(** The page of one digest, cut at [{date_display}] (three times),
    [{SHARED_CSS}] and [{content_html}]. *)
Definition DIGEST_PAGE_1 : pystr := lit
"<!DOCTYPE html>
<html lang=`cs`>
<head>
  <meta charset=`UTF-8` />
  <meta name=`viewport` content=`width=device-width, initial-scale=1.0` />
  <meta name=`description` content=`Marketing Digest ".

Definition DIGEST_PAGE_2 : pystr := lit
" · Arina Isakova` />
  <title>Digest ".

Definition DIGEST_PAGE_3 : pystr := lit
" · Arina Isakova</title>
  <link rel=`preconnect` href=`https://fonts.googleapis.com` />
  <link rel=`preconnect` href=`https://fonts.gstatic.com` crossorigin />
  <link href=`https://fonts.googleapis.com/css2?family=Playfair+Display:ital,wght@0,700;1,400;1,700&family=Inter:wght@300;400;500;600&display=swap` rel=`stylesheet` />
  <style>
".

Definition DIGEST_PAGE_4 : pystr := lit
"
    .digest-page { max-width: 720px; margin: 0 auto; padding: 7rem 2rem 5rem; }
    .digest-page h2 { font-family: 'Playfair Display', serif; font-size: 1.45rem; font-weight: 700; margin: 2.5rem 0 1rem; color: var(--text); border-bottom: 1px solid var(--border); padding-bottom: 0.5rem; }
    .digest-page p { color: var(--text-muted); line-height: 1.85; margin-bottom: 1rem; font-size: 0.95rem; }
    .digest-page strong { color: var(--text); }
    .digest-page ul { list-style: none; padding: 0; margin-bottom: 1rem; }
    .digest-page li { padding: 0.3rem 0; color: var(--text-muted); line-height: 1.75; font-size: 0.95rem; }
    .digest-page li::before { content: `·`; color: var(--accent); margin-right: 0.6rem; font-weight: bold; }
    .digest-page a { color: var(--accent); text-decoration: none; }
    .digest-page a:hover { text-decoration: underline; }
    .digest-meta { font-size: 0.8rem; color: var(--text-muted); letter-spacing: 0.06em; margin-bottom: 3rem; padding-bottom: 2rem; border-bottom: 1px solid var(--border); }
    @media (max-width: 700px) { .digest-page { padding: 6rem 1.25rem 4rem; } }
  </style>
</head>
<body>
  <nav>
    <a href=`../index.html` class=`nav-logo`>arina</a>
    <ul class=`nav-links`>
      <li><a href=`../index.html#digest`>← Digest</a></li>
    </ul>
  </nav>

  <main class=`digest-page`>
    <p class=`section-label`>Weekly Digest</p>
    <h1 class=`section-title`>Marketing <em>týdne</em></h1>
    <p class=`digest-meta`>".

Definition DIGEST_PAGE_5 : pystr := lit
"</p>
    ".

Definition DIGEST_PAGE_6 : pystr := lit
"
  </main>

  <footer>
    <p>&copy; 2026 Arina Isakova &nbsp;·&nbsp; <a href=`../index.html`>Zpět na hlavní stránku</a></p>
  </footer>
</body>
</html>".

(** The archive index page, cut at [{SHARED_CSS}] and [{list_html}]. *)
Definition INDEX_PAGE_1 : pystr := lit
"<!DOCTYPE html>
<html lang=`cs`>
<head>
  <meta charset=`UTF-8` />
  <meta name=`viewport` content=`width=device-width, initial-scale=1.0` />
  <meta name=`description` content=`Marketing Digest archiv · Arina Isakova` />
  <title>Marketing Digest · Arina Isakova</title>
  <link rel=`preconnect` href=`https://fonts.googleapis.com` />
  <link rel=`preconnect` href=`https://fonts.gstatic.com` crossorigin />
  <link href=`https://fonts.googleapis.com/css2?family=Playfair+Display:ital,wght@0,700;1,400;1,700&family=Inter:wght@300;400;500;600&display=swap` rel=`stylesheet` />
  <style>
".

Definition INDEX_PAGE_2 : pystr := lit
"
    section { padding: 8rem 2rem 6rem; }
  </style>
</head>
<body>
  <nav>
    <a href=`../index.html` class=`nav-logo`>arina</a>
    <ul class=`nav-links`>
      <li><a href=`../index.html`>← Zpět</a></li>
    </ul>
  </nav>

  <section>
    <div class=`section-inner`>
      <p class=`section-label`>Weekly Digest</p>
      <h1 class=`section-title`>Marketing <em>Digest</em></h1>
      <p style=`color: var(--text-muted); margin-bottom: 3rem; max-width: 520px; font-size: 0.95rem; line-height: 1.8;`>
        Týdenní přehled z marketingového světa — novinky, virální kampaně, trendy a zajímavosti. Každé pondělí.
      </p>
".

Definition INDEX_PAGE_3 : pystr := lit
"
    </div>
  </section>

  <footer>
    <p>&copy; 2026 Arina Isakova &nbsp;·&nbsp; <a href=`../index.html`>Hlavní stránka</a></p>
  </footer>
</body>
</html>".

(** An entry of the archive index, cut at the file name and the display date. *)
Definition ITEM_1 : pystr := lit
"      <a href=`".

Definition ITEM_2 : pystr := lit
"` class=`digest-item`>
        <span class=`digest-date`>".

Definition ITEM_3 : pystr := lit
"</span>
        <span class=`digest-title`>Marketing Digest</span>
        <span class=`digest-arrow`>→</span>
      </a>".

Definition LIST_HTML_1 : pystr := lit
"    <div class=`digest-list`>
".

Definition LIST_HTML_2 : pystr := lit
"
    </div>".

Definition COMING_SOON : pystr := lit
"    <p class=`digest-coming-soon`>Zatím žádné digesty — první vyjde příští pondělí.</p>".

(** An entry of the block of the main page. *)
Definition MAIN_ITEM_1 : pystr := lit
"        <a href=`marketing-digest/".

Definition MAIN_ITEM_2 : pystr := lit
"` class=`digest-item`>
          <span class=`digest-date`>".

Definition MAIN_ITEM_3 : pystr := lit
"</span>
          <span class=`digest-title`>Marketing Digest</span>
          <span class=`digest-arrow`>→</span>
        </a>".

Definition BLOCK_1 : pystr := lit
"
      <div class=`digest-list`>
".

Definition BLOCK_2 : pystr := lit
"
      </div>
      ".

Definition BLOCK_COMING_SOON : pystr := lit
"
      <div class=`digest-list`>
        <p class=`digest-coming-soon`>První digest vychází brzy — sleduj a nezmeškej.</p>
      </div>
      ".

Section Script.
Context `{Library}.

Definition DIGEST_DIR : pystr := REPO_ROOT ++ lit "/marketing-digest".
Definition MAIN_INDEX : pystr := REPO_ROOT ++ lit "/index.html".

(** ** Helpers *)

(** [datetime.fromtimestamp(time.mktime(parsed), tz=timezone.utc)]. *)
Definition to_datetime (parsed : struct_time) : error + Z :=
  match mktime parsed with
  | inr t => fromtimestamp t
  | inl e => inl e
  end.

(** The loop of [parse_entry_date] over the attributes it tries. *)
Fixpoint parse_entry_date_loop (attrs : list (option struct_time)) : option Z :=
  match attrs with
  | [] => None
  | parsed :: rest =>
      match parsed with
      | Some p =>
          match to_datetime p with
          | inr dt => Some dt
          | inl _ => parse_entry_date_loop rest
          end
      | None => parse_entry_date_loop rest
      end
  end.

Definition parse_entry_date (entry : Entry) : option Z :=
  parse_entry_date_loop [published_parsed entry; updated_parsed entry].

(** ** Phase A: RSS feeds *)

(** [pub_date and pub_date < cutoff]. *)
Definition too_old (cutoff : Z) (pub_date : option Z) : bool :=
  match pub_date with
  | Some dt => dt <? cutoff
  | None => false
  end.

Definition make_article (feed_url : pystr) (feed : Feed) (entry : Entry)
    (pub_date : option Z) : Article :=
  let summary :=
    match entry_summary entry with
    | Some s => strip (slice_to (get_text s) 300)
    | None => []
    end in
  {| title := strip (default [] (entry_title entry));
     link := default [] (entry_link entry);
     summary := summary;
     source := default feed_url (feed_title feed);
     date := match pub_date with Some dt => strftime_ymd dt | None => [] end |}.

(** The exception the body of the loop over the entries raises on an entry
    it does not skip: the parser rejects the summary.  (The other steps of
    the body do not raise: [parse_entry_date] catches what the conversion
    raises, and feedparser stores strings.) *)
Definition entry_error (entry : Entry) : option error :=
  match entry_summary entry with
  | Some s => parser_rejects s
  | None => None
  end.

(** The loop over [feed.entries]; [articles] is the list appended to and
    [count] the counter.  The list is appended to in place: when an entry
    raises, what was appended before stays. *)
Fixpoint entries_loop (cutoff : Z) (feed_url : pystr) (feed : Feed)
    (es : list Entry) (articles : list Article) (count : Z)
    : list Article * (error + Z) :=
  match es with
  | [] => (articles, inr count)
  | entry :: rest =>
      let pub_date := parse_entry_date entry in
      if too_old cutoff pub_date
      then entries_loop cutoff feed_url feed rest articles count
      else
        match entry_error entry with
        | Some e => (articles, inl e)
        | None =>
            entries_loop cutoff feed_url feed rest
              (articles ++ [make_article feed_url feed entry pub_date]) (count + 1)
        end
  end.

(** The loop over [FEEDS], each feed in its own [try], which holds the call
    of the parser and the loop over the entries. *)
Fixpoint feeds_loop (w : World) (cutoff : Z) (feeds : list pystr)
    (articles : list Article) : M (list Article) :=
  match feeds with
  | [] => ret articles
  | feed_url :: rest =>
      match feedparser_parse w feed_url with
      | inr feed =>
          match entries_loop cutoff feed_url feed (entries feed) articles 0 with
          | (articles', inr count) =>
              log_msg INFO (lit "RSS OK (" ++ str_of_int count ++ lit " articles): "
                            ++ feed_url) ;;;
              feeds_loop w cutoff rest articles'
          | (articles', inl e) =>
              log_msg WARNING (lit "RSS SKIP: " ++ feed_url ++ lit " — " ++ err_msg e) ;;;
              feeds_loop w cutoff rest articles'
          end
      | inl e =>
          log_msg WARNING (lit "RSS SKIP: " ++ feed_url ++ lit " — " ++ err_msg e) ;;;
          feeds_loop w cutoff rest articles
      end
  end.

Definition fetch_rss_articles (w : World) (days : Z) : M (list Article) :=
  delta <- lift (timedelta_days days) ;;
  cutoff <- lift (datetime_sub (now_fetch w) delta) ;;
  articles <- feeds_loop w cutoff FEEDS [] ;;
  log_msg INFO (lit "Total RSS articles: " ++ str_of_int (Z.of_nat (length articles))) ;;;
  ret articles.

(** ** Phase B: Perplexity *)

(** Truthiness of a JSON value, as [or] tests it. *)
Definition json_truthy (v : json) : bool :=
  match v with
  | JNull => false
  | JBool b => b
  | JInt n => negb (n =? 0)
  | JFloat f => negb (PrimFloat.eqb f 0%float)
  | JStr s => truthy s
  | JArr items => match items with [] => false | _ => true end
  | JObj items => match items with [] => false | _ => true end
  end.

(** The text an f-string puts in place of a value. *)
Definition format_value (v : json) : pystr :=
  match v with
  | JStr s => s
  | _ => py_str v
  end.

Inductive subscript := SStr (k : pystr) | SInt (i : Z).

Fixpoint obj_get (items : list (pystr * json)) (k : pystr) : option json :=
  match items with
  | [] => None
  | (k', v) :: rest => if decide (k' = k) then Some v else obj_get rest k
  end.

(** [seq[i]] for an index into a sequence of length [n]: the position, when
    the index is in range. *)
Definition seq_index (n : nat) (i : Z) : option nat :=
  let j := if i <? 0 then Z.of_nat n + i else i in
  if (0 <=? j) && (j <? Z.of_nat n) then Some (Z.to_nat j) else None.

(** [type(v).__name__]. *)
Definition type_name (v : json) : pystr :=
  match v with
  | JNull => lit "NoneType"
  | JBool _ => lit "bool"
  | JInt _ => lit "int"
  | JFloat _ => lit "float"
  | JStr _ => lit "str"
  | JArr _ => lit "list"
  | JObj _ => lit "dict"
  end.

(** [v[k]] on a decoded JSON value.  The keys of a decoded object are
    strings. *)
Definition getitem (v : json) (k : subscript) : error + json :=
  match v, k with
  | JObj items, SStr key =>
      match obj_get items key with
      | Some x => inr x
      | None => inl (Error KeyError (lit "'" ++ key ++ lit "'"))
      end
  | JObj _, SInt i => inl (Error KeyError (str_of_int i))
  | JArr items, SInt i =>
      match seq_index (length items) i with
      | Some j =>
          match items !! j with
          | Some x => inr x
          | None => inl (Error IndexError (lit "list index out of range"))
          end
      | None => inl (Error IndexError (lit "list index out of range"))
      end
  | JArr _, SStr _ =>
      inl (Error TypeError (lit "list indices must be integers or slices, not str"))
  | JStr s, SInt i =>
      match seq_index (length s) i with
      | Some j =>
          match s !! j with
          | Some c => inr (JStr [c])
          | None => inl (Error IndexError (lit "string index out of range"))
          end
      | None => inl (Error IndexError (lit "string index out of range"))
      end
  | JStr _, SStr _ =>
      inl (Error TypeError (lit "string indices must be integers, not 'str'"))
  | _, _ =>
      inl (Error TypeError
             (lit "'" ++ type_name v ++ lit "' object is not subscriptable"))
  end.

Definition PERPLEXITY_URL : pystr := lit "https://api.perplexity.ai/chat/completions".

(** [resp.raise_for_status()]. *)
Definition raise_for_status (resp : Response) : error + unit :=
  let code := status_code resp in
  if (400 <=? code) && (code <? 500) then
    inl (Error LibraryError
           (str_of_int code ++ lit " Client Error: " ++ reason resp
            ++ lit " for url: " ++ PERPLEXITY_URL))
  else if (500 <=? code) && (code <? 600) then
    inl (Error LibraryError
           (str_of_int code ++ lit " Server Error: " ++ reason resp
            ++ lit " for url: " ++ PERPLEXITY_URL))
  else inr tt.

(** [body["choices"][0]["message"]["content"]]. *)
Definition choices_content (body : json) : error + json :=
  match getitem body (SStr (lit "choices")) with
  | inl e => inl e
  | inr choices =>
      match getitem choices (SInt 0) with
      | inl e => inl e
      | inr choice =>
          match getitem choice (SStr (lit "message")) with
          | inl e => inl e
          | inr message => getitem message (SStr (lit "content"))
          end
      end
  end.

(** The body of the [try] of [fetch_perplexity_insights]. *)
Definition perplexity_request (w : World) : M json :=
  resp <- lift (requests_post w) ;;
  lift (raise_for_status resp) ;;;
  body <- lift (json_body resp) ;;
  content <- lift (choices_content body) ;;
  log_msg INFO (lit "Perplexity OK") ;;;
  ret content.

Definition fetch_perplexity_insights (w : World) : M json :=
  if negb (truthy (PERPLEXITY_API_KEY w)) then
    log_msg WARNING (lit "PERPLEXITY_API_KEY missing — skipping") ;;;
    ret (JStr [])
  else
    try_except (perplexity_request w)
      (fun e =>
         log_msg WARNING (lit "Perplexity FAILED: " ++ err_msg e) ;;;
         ret (JStr [])).

(** ** Phase C: Claude *)

Definition render_article (a : Article) : pystr :=
  lit "- [" ++ date a ++ lit "] " ++ title a ++ lit " | " ++ source a
  ++ nl ++ lit "  " ++ summary a.

Definition NO_ARTICLES : pystr := lit "(žádné RSS články nebyly dostupné)".
Definition NO_PERPLEXITY : pystr := lit "(Perplexity nebyl dostupný)".

Definition articles_text (articles : list Article) : pystr :=
  str_or (join nl (map render_article (take 30 articles))) NO_ARTICLES.

(** [perplexity_text or "(Perplexity nebyl dostupný)"], as the f-string
    prints it. *)
Definition perplexity_block (perplexity_text : json) : pystr :=
  format_value (if json_truthy perplexity_text then perplexity_text
                else JStr NO_PERPLEXITY).

Definition PROMPT_HEAD : pystr := lit
"Napiš weekly marketing digest v češtině, 800–1200 slov.

RSS ČLÁNKY Z TOHOTO TÝDNE:
".

Definition PROMPT_MIDDLE : pystr := lit
"

PERPLEXITY INSIGHTS (čerstvé marketingové dění):
".

Definition PROMPT_TAIL : pystr := lit
"

Výstup musí být čistý HTML fragment — BEZ tagů <html>, <head>, <body>.
Struktura: přesně 4 sekce s <h2> nadpisy:
  1. Top novinky týdne
  2. Virální reklamy & kampaně
  3. Trendy & insights
  4. Zajímavosti

Pro každou položku: <strong>název</strong>, 2–4 věty popis, zdroj/odkaz kde relevantní.
Piš přirozeně, osobně — jako UGC creatorka zaměřená na marketing.
Pouze HTML tagy: <h2>, <p>, <strong>, <em>, <ul>, <li>, <a href=`...`>.".

Definition build_prompt (articles : list Article) (perplexity_text : json) : pystr :=
  PROMPT_HEAD ++ articles_text articles ++ PROMPT_MIDDLE
  ++ perplexity_block perplexity_text ++ PROMPT_TAIL.

(** [response.content[0].text]. *)
Definition first_text (content : list ContentBlock) : error + pystr :=
  match content with
  | [] => inl (Error IndexError (lit "list index out of range"))
  | TextBlock text :: _ => inr text
  | OtherBlock type_name :: _ =>
      inl (Error AttributeError
             (lit "'" ++ type_name ++ lit "' object has no attribute 'text'"))
  end.

Definition generate_digest_html (w : World) (articles : list Article)
    (perplexity_text : json) : M pystr :=
  if negb (truthy (ANTHROPIC_API_KEY w)) then
    raise (Exception (Error RuntimeError (lit "ANTHROPIC_API_KEY is not set")))
  else
    content <- lift (messages_create w (build_prompt articles perplexity_text)) ;;
    text <- lift (first_text content) ;;
    log_msg INFO (lit "Claude OK — digest generated") ;;;
    ret text.

(** ** Phase D: save files *)

(** [datetime.strptime(s, "%Y-%m-%d")].  The format is compiled to the
    regular expression
    [(\d\d\d\d)-(1[0-2]|0[1-9]|[1-9])-(3[0-1]|[1-2]\d|0[1-9]|[1-9]| [1-9])],
    which must match all of [s]; the fields must then form a date. *)
Definition ascii_digit (c : N) (lo hi : Z) : option Z :=
  let v := Z.of_N c - 48 in
  if (lo <=? v) && (v <=? hi) then Some v else None.

(** [1[0-2]|0[1-9]|[1-9]]: the value and the rest.  No two alternatives
    match at the same place with a hyphen next, so the first that matches is
    the one the regular expression settles on. *)
Definition parse_month (s : pystr) : option (Z * pystr) :=
  match s with
  | [] => None
  | a :: s' =>
      let two :=
        match s' with
        | [] => None
        | b :: rest =>
            match ascii_digit a 1 1, ascii_digit b 0 2 with
            | Some _, Some y => Some (10 + y, rest)
            | _, _ =>
                match ascii_digit a 0 0, ascii_digit b 1 9 with
                | Some _, Some y => Some (y, rest)
                | _, _ => None
                end
            end
        end in
      match two with
      | Some r => Some r
      | None =>
          match ascii_digit a 1 9 with
          | Some x => Some (x, s')
          | None => None
          end
      end
  end.

(** [3[0-1]|[1-2]\d|0[1-9]|[1-9]| [1-9]]: the value and the rest. *)
Definition parse_day (s : pystr) : option (Z * pystr) :=
  match s with
  | [] => None
  | a :: s' =>
      let two :=
        match s' with
        | [] => None
        | b :: rest =>
            match ascii_digit a 3 3, ascii_digit b 0 1 with
            | Some _, Some y => Some (30 + y, rest)
            | _, _ =>
                match ascii_digit a 1 2, decimal b with
                | Some x, Some y => Some (10 * x + y, rest)
                | _, _ =>
                    match ascii_digit a 0 0, ascii_digit b 1 9 with
                    | Some _, Some y => Some (y, rest)
                    | _, _ => None
                    end
                end
            end
        end in
      match two with
      | Some r => Some r
      | None =>
          match ascii_digit a 1 9 with
          | Some x => Some (x, s')
          | None =>
              match s' with
              | b :: rest =>
                  if (a =? 32)%N then
                    match ascii_digit b 1 9 with
                    | Some y => Some (y, rest)
                    | None => None
                    end
                  else None
              | [] => None
              end
          end
      end
  end.

Definition is_leap (y : Z) : bool :=
  (y mod 4 =? 0) && (negb (y mod 100 =? 0) || (y mod 400 =? 0)).

Definition days_in_month (y m : Z) : Z :=
  if m =? 2 then (if is_leap y then 29 else 28)
  else if (m =? 4) || (m =? 6) || (m =? 9) || (m =? 11) then 30
  else 31.

(** The checks of the constructor [date(y, m, d)]. *)
Definition check_date (y m d : Z) : error + Date :=
  if negb ((1 <=? y) && (y <=? 9999)) then
    inl (Error ValueError (lit "year " ++ str_of_int y ++ lit " is out of range"))
  else if negb ((1 <=? m) && (m <=? 12)) then
    inl (Error ValueError (lit "month must be in 1..12"))
  else if negb ((1 <=? d) && (d <=? days_in_month y m)) then
    inl (Error ValueError (lit "day is out of range for month"))
  else inr (mkDate y m d).

Definition no_match (s : pystr) : error :=
  Error ValueError (lit "time data '" ++ s ++ lit "' does not match format '%Y-%m-%d'").

Definition unconverted (rest : pystr) : error :=
  Error ValueError (lit "unconverted data remains: " ++ rest).

Definition strptime (s : pystr) : error + Date :=
  match s with
  | y1 :: y2 :: y3 :: y4 :: h1 :: rest1 =>
      match decimal y1, decimal y2, decimal y3, decimal y4 with
      | Some a, Some b, Some c, Some d =>
          if (h1 =? 45)%N then
            match parse_month rest1 with
            | Some (m, h2 :: rest2) =>
                if (h2 =? 45)%N then
                  match parse_day rest2 with
                  | Some (dd, []) => check_date (1000 * a + 100 * b + 10 * c + d) m dd
                  | Some (_, rest3) => inl (unconverted rest3)
                  | None => inl (no_match s)
                  end
                else inl (no_match s)
            | _ => inl (no_match s)
            end
          else inl (no_match s)
      | _, _, _, _ => inl (no_match s)
      end
  | _ => inl (no_match s)
  end.

(** [(DIGEST_DIR / name).write_text(text)] and [MAIN_INDEX.write_text(text)]:
    the file is created or overwritten. *)
Definition write_digest_file (name text : pystr) : M unit :=
  fun st => (inr tt, mkState (<[name := text]> (digest_dir st)) (main_index st) (log st)).

Definition write_main_index (text : pystr) : M unit :=
  fun st => (inr tt, mkState (digest_dir st) (Some text) (log st)).

(** Reading in text mode translates the line endings: [\r\n] and [\r]
    become [\n].  (Writing on Linux translates nothing.) *)
Fixpoint universal_newlines (s : pystr) : pystr :=
  match s with
  | [] => []
  | c :: rest =>
      if (c =? 13)%N then
        10%N :: match rest with
                | c' :: rest' =>
                    if (c' =? 10)%N then universal_newlines rest'
                    else universal_newlines rest
                | [] => universal_newlines rest
                end
      else c :: universal_newlines rest
  end.

(** [MAIN_INDEX.read_text(encoding="utf-8")] when [MAIN_INDEX.exists()]: the
    text of the file with its line endings translated. *)
Definition read_main_index : M (option pystr) :=
  fun st => (inr (universal_newlines <$> main_index st), st).

(** The names of the files of [DIGEST_DIR], in the order of the listing. *)
Definition listdir : M (list pystr) :=
  fun st => (inr ((map_to_list (digest_dir st)).*1), st).

Definition digest_page (date_display content_html : pystr) : pystr :=
  DIGEST_PAGE_1 ++ date_display ++ DIGEST_PAGE_2 ++ date_display ++ DIGEST_PAGE_3
  ++ SHARED_CSS ++ DIGEST_PAGE_4 ++ date_display ++ DIGEST_PAGE_5 ++ content_html
  ++ DIGEST_PAGE_6.

Definition build_digest_page (date_str date_display content_html : pystr) : M pystr :=
  let html := digest_page date_display content_html in
  let out_name := date_str ++ lit ".html" in
  let out_path := DIGEST_DIR ++ lit "/" ++ out_name in
  write_digest_file out_name html ;;;
  log_msg INFO (lit "Saved: " ++ out_path) ;;;
  ret out_path.

(** Matching a file name against a pattern of literal characters and [?]
    (the pattern of the script has no other wildcard). *)
Fixpoint fnmatch (name pattern : pystr) : bool :=
  match pattern, name with
  | [], [] => true
  | p :: pattern', c :: name' =>
      ((p =? 63)%N || (p =? c)%N) && fnmatch name' pattern'
  | _, _ => false
  end.

(** [DIGEST_DIR.glob(pattern)], as file names. *)
Definition glob (names : list pystr) (pattern : pystr) : list pystr :=
  filter (fun name => fnmatch name pattern = true) names.

(** [Path.stem]: the name without its last suffix. *)
Definition stem (name : pystr) : pystr :=
  let i := rfind name (lit ".") in
  if (0 <? i) && (i <? Z.of_nat (length name) - 1) then slice_to name i else name.

(** The [try] of the loop of [rebuild_index_page]: the display date. *)
Definition display_date (date_str : pystr) : M pystr :=
  try_except_ValueError
    (dt <- lift (strptime date_str) ;;
     lift (format_date_czech dt))
    (ret date_str).

Fixpoint digests_loop (files : list pystr) (digests : list Digest) : M (list Digest) :=
  match files with
  | [] => ret digests
  | f :: rest =>
      let date_str := stem f in
      date_display <- display_date date_str ;;
      digests_loop rest (digests ++ [mkDigest f date_str date_display])
  end.

Definition render_item (d : Digest) : pystr :=
  ITEM_1 ++ filename d ++ ITEM_2 ++ date_display d ++ ITEM_3.

Definition list_html (digests : list Digest) : pystr :=
  match digests with
  | [] => COMING_SOON
  | _ => LIST_HTML_1 ++ join nl (map render_item digests) ++ LIST_HTML_2
  end.

Definition index_page (digests : list Digest) : pystr :=
  INDEX_PAGE_1 ++ SHARED_CSS ++ INDEX_PAGE_2 ++ list_html digests ++ INDEX_PAGE_3.

Definition rebuild_index_page : M (list Digest) :=
  names <- listdir ;;
  let digest_files := sorted_reverse (glob names DIGEST_PATTERN) in
  digests <- digests_loop digest_files [] ;;
  let html := index_page digests in
  let idx_path := DIGEST_DIR ++ lit "/index.html" in
  write_digest_file (lit "index.html") html ;;;
  log_msg INFO (lit "Index rebuilt: " ++ idx_path ++ lit " ("
                ++ str_of_int (Z.of_nat (length digests)) ++ lit " digests)") ;;;
  ret digests.

Definition render_main_item (d : Digest) : pystr :=
  MAIN_ITEM_1 ++ filename d ++ MAIN_ITEM_2 ++ date_display d ++ MAIN_ITEM_3.

Definition new_block (digests : list Digest) : pystr :=
  let recent := take 3 digests in
  match recent with
  | [] => START_MARKER ++ BLOCK_COMING_SOON ++ END_MARKER
  | _ =>
      START_MARKER ++ BLOCK_1 ++ join nl (map render_main_item recent) ++ BLOCK_2
      ++ END_MARKER
  end.

Definition update_main_index (digests : list Digest) : M unit :=
  page <- read_main_index ;;
  match page with
  | None => log_msg WARNING (lit "Main index.html not found, skipping")
  | Some content =>
      let start_idx := find content START_MARKER in
      let end_idx := find content END_MARKER in
      if (start_idx =? -1) || (end_idx =? -1) then
        log_msg WARNING (lit "Digest markers not found in main index.html")
      else
        let new_content :=
          slice_to content start_idx ++ new_block digests
          ++ slice_from content (end_idx + Z.of_nat (length END_MARKER)) in
        write_main_index new_content ;;;
        log_msg INFO (lit "Main index.html updated")
  end.

(** ** Main *)

Definition main (w : World) : M unit :=
  let today := now_main w in
  let date_str := strftime_ymd today in
  date_display <- lift (format_date_czech (date_of today)) ;;
  log_msg INFO (lit "=== Generating digest for " ++ date_str ++ lit " ===") ;;;
  articles <- fetch_rss_articles w 7 ;;
  perplexity_text <- fetch_perplexity_insights w ;;
  digest_html <-
    try_except (generate_digest_html w articles perplexity_text)
      (fun e =>
         log_msg ERROR (lit "Claude generation failed: " ++ err_msg e) ;;;
         sys_exit 1) ;;
  build_digest_page date_str date_display digest_html ;;;
  digests <- rebuild_index_page ;;
  update_main_index digests ;;;
  log_msg INFO (lit "=== Done! Digest " ++ date_str ++ lit " created. ===").

(** The publisher phase of [main] on its own. *)
Definition publish (date_str date_display content_html : pystr) : M unit :=
  build_digest_page date_str date_display content_html ;;;
  digests <- rebuild_index_page ;;
  update_main_index digests.

(** ** Definitions used to state the specification *)

(** The exception the loop over the entries raises on an entry: none when
    the window skips it. *)
Definition raised_on (cutoff : Z) (e : Entry) : option error :=
  if too_old cutoff (parse_entry_date e) then None else entry_error e.

(** The entries the loop goes through without an exception: those before
    the first on which it raises. *)
Fixpoint reached (cutoff : Z) (es : list Entry) : list Entry :=
  match es with
  | [] => []
  | e :: rest =>
      match raised_on cutoff e with
      | Some _ => []
      | None => e :: reached cutoff rest
      end
  end.

(** The exception that ends the loop over the entries, if one does. *)
Fixpoint loop_error (cutoff : Z) (es : list Entry) : option error :=
  match es with
  | [] => None
  | e :: rest =>
      match raised_on cutoff e with
      | Some err => Some err
      | None => loop_error cutoff rest
      end
  end.

(** The entries of a feed that end up in the output: those the loop reaches
    and the recency window keeps. *)
Definition kept_entries (cutoff : Z) (feed : Feed) : list Entry :=
  filter (fun e => too_old cutoff (parse_entry_date e) = false)
         (reached cutoff (entries feed)).

(** The cutoff [fetch_rss_articles] computes, or the exception of the
    computation. *)
Definition cutoff_of (w : World) (days : Z) : error + Z :=
  match timedelta_days days with
  | inr delta => datetime_sub (now_fetch w) delta
  | inl e => inl e
  end.

(** The articles one feed address contributes. *)
Definition collected (w : World) (cutoff : Z) (feed_url : pystr) : list Article :=
  match feedparser_parse w feed_url with
  | inr feed =>
      map (fun e => make_article feed_url feed e (parse_entry_date e))
          (kept_entries cutoff feed)
  | inl _ => []
  end.

(** The state [st] with [lg] appended to its log. *)
Definition with_log (st : State) (lg : list (level * pystr)) : State :=
  mkState (digest_dir st) (main_index st) (log st ++ lg).

(** A run that returned [a] and changed nothing but the log, to which it
    appended [lg]. *)
Definition returns_logging {A} (r : (exn + A) * State) (st : State) (a : A)
    (lg : list (level * pystr)) : Prop :=
  r = (inr a, with_log st lg).

(** What the insight fetcher returns, as a function of the world. *)
Definition insight_of (w : World) : json :=
  if negb (truthy (PERPLEXITY_API_KEY w)) then JStr []
  else
    match requests_post w with
    | inl _ => JStr []
    | inr resp =>
        match raise_for_status resp, json_body resp with
        | inr _, inr body =>
            match choices_content body with
            | inr content => content
            | inl _ => JStr []
            end
        | _, _ => JStr []
        end
    end.

(** The ways the insight request can fail: no credential, the request
    raises (network error, timeout), the status is a client or server error,
    the body is not JSON, or the JSON lacks [choices[0].message.content]. *)
Definition insight_failure (w : World) : Prop :=
  PERPLEXITY_API_KEY w = []
  \/ (exists e, requests_post w = inl e)
  \/ (exists resp, requests_post w = inr resp
       /\ (400 <= status_code resp < 600
           \/ (exists e, json_body resp = inl e)
           \/ (exists body e, json_body resp = inr body /\ choices_content body = inl e))).

(** The outcome of the text-generation phase: [generate_digest_html] returns
    the digest or raises. *)
Definition generation_outcome (w : World) (articles : list Article)
    (perplexity_text : json) : error + pystr :=
  if negb (truthy (ANTHROPIC_API_KEY w)) then
    inl (Error RuntimeError (lit "ANTHROPIC_API_KEY is not set"))
  else
    match messages_create w (build_prompt articles perplexity_text) with
    | inl e => inl e
    | inr content => first_text content
    end.

(** The main page after the patch, from the text [content] the script read,
    when both markers are found. *)
Definition patch_page (content : pystr) (digests : list Digest) : option pystr :=
  let start_idx := find content START_MARKER in
  let end_idx := find content END_MARKER in
  if (start_idx =? -1) || (end_idx =? -1) then None
  else Some (slice_to content start_idx ++ new_block digests
             ++ slice_from content (end_idx + Z.of_nat (length END_MARKER))).

(** [sub] occurs in [s]. *)
Definition occurs (sub s : pystr) : Prop := exists pre rest, s = pre ++ sub ++ rest.

(** A text in which the end marker does not occur. *)
Definition clean (s : pystr) : Prop := ~ occurs END_MARKER s.

(** A character that is not part of the end marker. *)
Definition is_sep (c : N) : bool := negb (existsb (N.eqb c) END_MARKER).

Definition starts_with_sep (s : pystr) : bool :=
  match s with c :: _ => is_sep c | [] => false end.

Definition ends_with_sep (s : pystr) : bool :=
  match last s with Some c => is_sep c | None => false end.

(** A clean text that begins and ends with such a character: no occurrence
    of the end marker reaches across it. *)
Definition guarded (s : pystr) : Prop :=
  clean s /\ starts_with_sep s = true /\ ends_with_sep s = true.

(** The main page is well marked when it is absent, lacks a marker, or has
    its first start marker before its first end marker, in the text the
    script reads. *)
Definition well_marked (page : option pystr) : Prop :=
  match universal_newlines <$> page with
  | None => True
  | Some content =>
      find content START_MARKER = -1 \/ find content END_MARKER = -1
      \/ find content START_MARKER < find content END_MARKER
  end.

(** A text without a line ending. *)
Definition plain (s : pystr) : Prop := Forall (fun c => c <> 10%N /\ c <> 13%N) s.

(** The block of the main page between its two markers. *)
Definition block_middle (digests : list Digest) : pystr :=
  match digests with
  | [] => BLOCK_COMING_SOON
  | _ => BLOCK_1 ++ join nl (map render_main_item (take 3 digests)) ++ BLOCK_2
  end.

(** The part of [main] from phase C on. *)
Definition main_from_generation (w : World) (date_str date_display : pystr)
    (articles : list Article) (perplexity_text : json) : M unit :=
  digest_html <-
    try_except (generate_digest_html w articles perplexity_text)
      (fun e =>
         log_msg ERROR (lit "Claude generation failed: " ++ err_msg e) ;;;
         sys_exit 1) ;;
  build_digest_page date_str date_display digest_html ;;;
  digests <- rebuild_index_page ;;
  update_main_index digests ;;;
  log_msg INFO (lit "=== Done! Digest " ++ date_str ++ lit " created. ===").

(** Dates in calendar order, and the dates [iso_date] prints with ten
    characters. *)
Definition date_compare (a b : Date) : comparison :=
  match year a ?= year b with
  | Eq => match month a ?= month b with
          | Eq => day a ?= day b
          | c => c
          end
  | c => c
  end.

Definition date_lt (a b : Date) : Prop := date_compare a b = Lt.

Definition printable (d : Date) : Prop :=
  1000 <= year d <= 9999 /\ 0 <= month d <= 99 /\ 0 <= day d <= 99.

(** The display date the archive gives the file stem [date_str]: the Czech
    date when [strptime] accepts the stem, the stem itself otherwise
    ([display_date_spec]; the month of a date [strptime] returns is in the
    table, so [format_date_czech] does not raise on it). *)
Definition display_of (date_str : pystr) : pystr :=
  match strptime date_str with
  | inr dt =>
      match format_date_czech dt with
      | inr s => s
      | inl _ => date_str
      end
  | inl _ => date_str
  end.

Definition digest_of (name : pystr) : Digest :=
  mkDigest name (stem name) (display_of (stem name)).

(** The names of the files of a directory that match the pattern, in the
    order of the listing. *)
Definition matching_names (dir : gmap pystr pystr) : list pystr :=
  glob ((map_to_list dir).*1) DIGEST_PATTERN.

(** The digests of a directory: its files that match the pattern, latest
    name first. *)
Definition digests_of (dir : gmap pystr pystr) : list Digest :=
  map digest_of (sorted_reverse (matching_names dir)).

(** ** Definitions used to state further properties *)

(** The log entry the collector writes for one feed address. *)
Definition feed_log (w : World) (cutoff : Z) (feed_url : pystr) : level * pystr :=
  match feedparser_parse w feed_url with
  | inr feed =>
      match loop_error cutoff (entries feed) with
      | None =>
          (INFO, lit "RSS OK ("
                 ++ str_of_int (Z.of_nat (length (kept_entries cutoff feed)))
                 ++ lit " articles): " ++ feed_url)
      | Some e => (WARNING, lit "RSS SKIP: " ++ feed_url ++ lit " — " ++ err_msg e)
      end
  | inl e => (WARNING, lit "RSS SKIP: " ++ feed_url ++ lit " — " ++ err_msg e)
  end.

(** A text without a blank at either end. *)
Definition trimmed (s : pystr) : Prop :=
  (forall c rest, s = c :: rest -> isspace c = false)
  /\ (forall c init, s = init ++ [c] -> isspace c = false).

(** The library reads the ASCII digits as their values. *)
Definition ascii_decimals : Prop :=
  forall k, 0 <= k <= 9 -> decimal (Z.to_N (48 + k)) = Some k.

(** The instants of the years 1 to 9999. *)
Definition in_datetime_range (dt : Z) : Prop :=
  -62135596800 * 1000000 <= dt < 253402300800 * 1000000.

(** The digest directory after a run of [main] that generated [html]. *)
Definition published_dir (w : World) (date_display html : pystr)
    (dir : gmap pystr pystr) : gmap pystr pystr :=
  <[strftime_ymd (now_main w) ++ lit ".html" := digest_page date_display html]> dir.

(** The main page after the patch for [digests]: the patch of the text
    read, or the page as it was when a marker is missing. *)
Definition patched_main_index (page : option pystr) (digests : list Digest) : option pystr :=
  match page with
  | None => None
  | Some stored =>
      match patch_page (universal_newlines stored) digests with
      | None => Some stored
      | Some new_content => Some new_content
      end
  end.

(** The articles [main] collects: its window is seven days. *)
Definition main_articles (w : World) : list Article :=
  concat (map (collected w (now_fetch w - 7 * usec_per_day)) FEEDS).

(** The first log entry of [main], and its last when the run succeeds. *)
Definition opening_log (w : World) : level * pystr :=
  (INFO, lit "=== Generating digest for " ++ strftime_ymd (now_main w) ++ lit " ===").

Definition closing_log (w : World) : level * pystr :=
  (INFO, lit "=== Done! Digest " ++ strftime_ymd (now_main w) ++ lit " created. ===").

(** A log without an entry of level [ERROR]. *)
Definition no_error (lg : list (level * pystr)) : Prop :=
  Forall (fun entry => entry.1 <> ERROR) lg.

(** A valid date of the proleptic Gregorian calendar, years 1 to 9999. *)
Definition valid_date (d : Date) : Prop :=
  1 <= year d <= 9999 /\ 1 <= month d <= 12
  /\ 1 <= day d <= days_in_month (year d) (month d).

End Script.

(** ** A sample library

    An instance of [Library] on which the script can be run inside Rocq: a
    machine whose local time is UTC, markup without entities, ASCII digits,
    and a parser that rejects a marked section with an unknown keyword at
    the start of the markup. *)

Definition days_from_civil (y m d : Z) : Z :=
  let y := if m <=? 2 then y - 1 else y in
  let era := y / 400 in
  let yoe := y mod 400 in
  let doy := (153 * (if 2 <? m then m - 3 else m + 9) + 2) / 5 + d - 1 in
  let doe := yoe * 365 + yoe / 4 - yoe / 100 + doy in
  era * 146097 + doe - 719468.

Definition mktime_utc (t : struct_time) : error + Z :=
  inr (days_from_civil (tm_year t) (tm_mon t) (tm_mday t) * 86400
       + tm_hour t * 3600 + tm_min t * 60 + tm_sec t).

(** The text outside the tags of a markup string. *)
Fixpoint drop_tags (in_tag : bool) (s : pystr) : pystr :=
  match s with
  | [] => []
  | c :: s' =>
      if (c =? 60)%N then drop_tags true s'
      else if (c =? 62)%N then (if in_tag then drop_tags false s' else c :: drop_tags false s')
      else if in_tag then drop_tags true s'
      else c :: drop_tags false s'
  end.

Definition ascii_decimal (c : N) : option Z := ascii_digit c 0 9.

Definition simple_str (v : json) : pystr :=
  match v with
  | JNull => lit "None"
  | JBool true => lit "True"
  | JBool false => lit "False"
  | JInt n => str_of_int n
  | JStr s => s
  | _ => lit "..."
  end.

Definition sample_rejects (s : pystr) : option error :=
  if startswith (lit "<![x]>") s then
    Some (Error LibraryError
            (lit "The markup you provided was rejected by the parser. Trying a different parser or a different encoding may help."))
  else None.

Definition sample_library : Library :=
  mkLibrary mktime_utc sample_rejects (drop_tags false) ascii_decimal simple_str
            (lit "/repo").

(** Entries of a sample feed: one from 2026-01-05, one from 2025-12-01, one
    without a date, and one whose summary starts with a blank. *)
Definition entry_recent : Entry :=
  mkEntry (Some (mk_struct_time 2026 1 5 8 0 0 0 5 0)) None
          (Some (lit "<p>Brand <b>news</b></p>")) (Some (lit " A title ")) (Some (lit "https://a/1")).

Definition entry_old : Entry :=
  mkEntry None (Some (mk_struct_time 2025 12 1 8 0 0 0 335 0))
          (Some (lit "old")) (Some (lit "Old")) (Some (lit "https://a/2")).

Definition entry_undated : Entry :=
  mkEntry None None None (Some (lit "Undated")) None.

Definition entry_blank : Entry :=
  mkEntry None None (Some (lit " a")) None None.

(** An entry whose summary the sample parser rejects. *)
Definition entry_rejected : Entry :=
  mkEntry None None (Some (lit "<![x]>")) (Some (lit "Rejected")) None.

Definition sample_feed : Feed :=
  mkFeed (Some (lit "Adweek")) [entry_recent; entry_old; entry_undated].

Definition sample_parse (url : pystr) : error + Feed :=
  if decide (url = lit "https://www.adweek.com/feed/") then inr sample_feed
  else inl (Error LibraryError (lit "connection refused")).

Definition sample_message : list ContentBlock := [TextBlock (lit "<h2>Top novinky týdne</h2>")].

Definition sample_insight : json :=
  JObj [(lit "choices",
         JArr [JObj [(lit "message", JObj [(lit "content", JStr (lit "Trends."))])]])].

(** 2026-01-06 12:00 UTC; every service answers. *)
Definition sample_world : World :=
  mkWorld (lit "sk-ant") (lit "pplx") 1767700800000000 1767700800000000
          sample_parse (inr (mkResponse 200 (lit "OK") (inr sample_insight)))
          (fun _ => inr sample_message) eq_refl eq_refl.

(** The sample world with a first feed in which the parser rejects the
    summary of the second entry; an entry without a date follows. *)
Definition broken_feed : Feed :=
  mkFeed (Some (lit "Adweek")) [entry_recent; entry_rejected; entry_undated].

Definition broken_world : World :=
  mkWorld (lit "sk-ant") (lit "pplx") 1767700800000000 1767700800000000
          (fun url =>
             if decide (url = lit "https://www.adweek.com/feed/") then inr broken_feed
             else inl (Error LibraryError (lit "connection refused")))
          (inr (mkResponse 200 (lit "OK") (inr sample_insight)))
          (fun _ => inr sample_message) eq_refl eq_refl.

(** A repository with two digests, a stray file and a main page with both
    markers. *)
Definition sample_page : pystr :=
  lit "<body>" ++ START_MARKER ++ lit "old" ++ END_MARKER ++ lit "</body>".

Definition sample_state : State :=
  mkState (<[lit "2025-12-29.html" := lit "a"]>
            (<[lit "2025-12-22.html" := lit "b"]>
              (<[lit "notes.txt" := lit "c"]> ∅)))
          (Some sample_page) [].

(** A main page whose end marker comes before its start marker, in a
    repository without digests. *)
Definition reversed_page : pystr := END_MARKER ++ START_MARKER.

Definition reversed_state : State := mkState ∅ (Some reversed_page) [].

(** A digest directory with a file whose name has the shape of the pattern
    and is no date. *)
Definition odd_state : State :=
  mkState (<[lit "abcd-ef-gh.html" := lit "x"]> (<[lit "2025-12-29.html" := lit "a"]> ∅))
          None [].

(** A world without credentials whose services all fail. *)
Definition failing_world : World :=
  mkWorld [] [] 1767700800000000 1767700800000000
          (fun _ => inl (Error LibraryError (lit "connection refused")))
          (inl (Error LibraryError (lit "timed out")))
          (fun _ => inl (Error LibraryError (lit "overloaded"))) eq_refl eq_refl.

(** The sample repository with other contents, another stray file and an
    index page: the same names match the pattern. *)
Definition sample_state_2 : State :=
  mkState (<[lit "2025-12-29.html" := lit "other"]>
            (<[lit "2025-12-22.html" := lit "text"]>
              (<[lit "index.html" := lit "old index"]>
                (<[lit "2025-12-22.HTML" := lit "upper case"]> ∅))))
          None [].

(** A main page stored with the line endings of Windows. *)
Definition crlf_page : pystr :=
  lit "<body>" ++ [13%N; 10%N] ++ START_MARKER ++ lit "old" ++ END_MARKER
  ++ [13%N; 10%N] ++ lit "</body>".

Definition crlf_state : State := mkState ∅ (Some crlf_page) [].

(** A digest directory with a file named by a date whose day is padded with
    a blank, which [strptime] accepts, and one of the day before. *)
Definition spaced_state : State :=
  mkState (<[lit "2024-01- 5.html" := lit "a"]> (<[lit "2024-01-04.html" := lit "b"]> ∅))
          None [].

(** Thirty articles, and one more. *)
Definition sample_article (n : Z) : Article :=
  mkArticle (lit "Title " ++ str_of_int n) (lit "https://a/" ++ str_of_int n)
            (lit "Summary") (lit "Adweek") (lit "2026-01-05").

Definition thirty_articles : list Article :=
  map (fun n => sample_article (Z.of_nat n)) (seq 0 30).

(** * Verification *)

Section Proofs.
Context `{Library}.

(** ** The monad *)

Lemma with_log_with_log st lg lg' :
  with_log (with_log st lg) lg' = with_log st (lg ++ lg').
Proof. unfold with_log. simpl. by rewrite app_assoc. Qed.

Lemma with_log_nil st : with_log st [] = st.
Proof. unfold with_log. destruct st; simpl. by rewrite app_nil_r. Qed.

Lemma returns_logging_bind {A B} (m : M A) (k : A -> M B) st a lg b lg' :
  returns_logging (m st) st a lg ->
  returns_logging (k a (with_log st lg)) (with_log st lg) b lg' ->
  returns_logging ((x <- m ;; k x) st) st b (lg ++ lg').
Proof.
  unfold returns_logging, bind. intros -> ->. by rewrite with_log_with_log.
Qed.

Lemma returns_logging_log lv msg st :
  returns_logging (log_msg lv msg st) st tt [(lv, msg)].
Proof. reflexivity. Qed.

Lemma returns_logging_ret {A} (a : A) st :
  returns_logging (ret a st) st a [].
Proof. unfold returns_logging, ret. by rewrite with_log_nil. Qed.

(** ** Phase A: the feed collector *)

Lemma entries_loop_spec cutoff feed_url feed es articles count :
  entries_loop cutoff feed_url feed es articles count =
  (articles ++ map (fun e => make_article feed_url feed e (parse_entry_date e))
                   (filter (fun e => too_old cutoff (parse_entry_date e) = false)
                           (reached cutoff es)),
   match loop_error cutoff es with
   | Some e => inl e
   | None =>
       inr (count + Z.of_nat (length (filter
              (fun e => too_old cutoff (parse_entry_date e) = false)
              (reached cutoff es))))
   end).
Proof.
  revert articles count. induction es as [|e es IH]; intros articles count;
    cbn [entries_loop reached loop_error].
  - cbn. rewrite app_nil_r. do 2 f_equal. lia.
  - unfold raised_on. destruct (too_old cutoff (parse_entry_date e)) eqn:E.
    + rewrite IH. rewrite filter_cons. destruct (decide (true = false)) as [Hd|_];
        [discriminate Hd|]. rewrite E.
      destruct (decide (true = false)) as [Hd|_]; [discriminate Hd|]. reflexivity.
    + destruct (entry_error e) as [err|].
      * cbn. by rewrite app_nil_r.
      * rewrite IH. rewrite filter_cons. rewrite E.
        destruct (decide (false = false)) as [_|Hd]; [|by destruct Hd].
        cbn [map length]. rewrite <- app_assoc. cbn [app].
        destruct (loop_error cutoff es); [reflexivity|]. do 2 f_equal. lia.
Qed.

Lemma feeds_loop_log w cutoff feeds articles st :
  feeds_loop w cutoff feeds articles st =
  (inr (articles ++ concat (map (collected w cutoff) feeds)),
   with_log st (map (feed_log w cutoff) feeds)).
Proof.
  revert articles st. induction feeds as [|u feeds IH]; intros articles st.
  - cbn [feeds_loop map concat]. unfold ret. by rewrite app_nil_r, with_log_nil.
  - cbn [feeds_loop map concat]. unfold collected at 1, feed_log at 1, kept_entries.
    destruct (feedparser_parse w u) as [e|feed].
    + unfold bind, log_msg. fold (with_log st
        [(WARNING, lit "RSS SKIP: " ++ u ++ lit " — " ++ err_msg e)]).
      rewrite IH, with_log_with_log. reflexivity.
    + rewrite entries_loop_spec. rewrite Z.add_0_l.
      destruct (loop_error cutoff (entries feed)) as [e|].
      * unfold bind, log_msg. fold (with_log st
          [(WARNING, lit "RSS SKIP: " ++ u ++ lit " — " ++ err_msg e)]).
        rewrite IH, with_log_with_log. by rewrite <- app_assoc.
      * unfold bind, log_msg.
        match goal with |- context [(INFO, ?m)] =>
          fold (with_log st [(INFO, m)]) end.
        rewrite IH, with_log_with_log. by rewrite <- app_assoc.
Qed.

(** The collector: the computation of the cutoff may raise, before anything
    is logged; the rest returns. *)
Lemma fetch_rss_articles_spec w days st :
  fetch_rss_articles w days st =
  match cutoff_of w days with
  | inl e => (inl (Exception e), st)
  | inr cutoff =>
      (inr (concat (map (collected w cutoff) FEEDS)),
       with_log st
         (map (feed_log w cutoff) FEEDS
          ++ [(INFO, lit "Total RSS articles: "
                     ++ str_of_int (Z.of_nat (length (concat
                          (map (collected w cutoff) FEEDS)))))]))
  end.
Proof.
  unfold fetch_rss_articles, cutoff_of. unfold bind at 1, lift at 1.
  destruct (timedelta_days days) as [e|delta]; [reflexivity|]. cbn [ret].
  unfold bind at 1, lift at 1.
  destruct (datetime_sub (now_fetch w) delta) as [e|cutoff]; [reflexivity|]. cbn [ret].
  unfold bind at 1. rewrite feeds_loop_log. cbn [app].
  unfold bind, log_msg, ret. cbn [digest_dir main_index log with_log].
  unfold with_log. by rewrite <- app_assoc.
Qed.

Lemma cutoff_of_inv w days cutoff :
  cutoff_of w days = inr cutoff ->
  cutoff = now_fetch w - days * usec_per_day /\ DATETIME_MIN <= cutoff <= DATETIME_MAX.
Proof.
  unfold cutoff_of, timedelta_days, datetime_sub.
  destruct (_ && _); [|discriminate].
  destruct (Z.leb_spec DATETIME_MIN (now_fetch w - days * usec_per_day));
    [|discriminate].
  destruct (Z.leb_spec (now_fetch w - days * usec_per_day) DATETIME_MAX);
    [|discriminate].
  cbn [andb]. intros [= <-]. lia.
Qed.

Lemma real_clock_range t : real_clock t -> 0 <= t <= DATETIME_MAX.
Proof. unfold real_clock. intros [H1 H2]%andb_prop. lia. Qed.

(** With the window of [main] the cutoff is a [datetime]. *)
Lemma cutoff_of_week w : cutoff_of w 7 = inr (now_fetch w - 7 * usec_per_day).
Proof.
  pose proof (real_clock_range _ (now_fetch_real w)) as Hr.
  unfold cutoff_of, timedelta_days, datetime_sub. cbn [Z.leb Z.compare Z.opp andb
    Pos.compare Pos.compare_cont].
  change (-999999999 <=? 7) with true. change (7 <=? 999999999) with true. cbn [andb].
  unfold DATETIME_MIN, DATETIME_MAX, usec_per_day in *.
  destruct (Z.leb_spec (-62135596800 * 1000000)
              (now_fetch w - 7 * (86400 * 1000000))); [|lia].
  destruct (Z.leb_spec (now_fetch w - 7 * (86400 * 1000000))
              (253402300800 * 1000000 - 1)); [|lia].
  reflexivity.
Qed.

Lemma fetch_rss_articles_week w st :
  fetch_rss_articles w 7 st =
  (inr (concat (map (collected w (now_fetch w - 7 * usec_per_day)) FEEDS)),
   with_log st
     (map (feed_log w (now_fetch w - 7 * usec_per_day)) FEEDS
      ++ [(INFO, lit "Total RSS articles: "
                 ++ str_of_int (Z.of_nat (length (concat (map (collected w
                      (now_fetch w - 7 * usec_per_day)) FEEDS)))))])).
Proof. by rewrite fetch_rss_articles_spec, cutoff_of_week. Qed.

Lemma too_old_true cutoff pub_date :
  too_old cutoff pub_date = true <-> exists dt, pub_date = Some dt /\ dt < cutoff.
Proof.
  unfold too_old. destruct pub_date as [dt|].
  - rewrite Z.ltb_lt. split; [eauto|]. by intros (? & [= <-] & ?).
  - split; [done|]. by intros (? & ? & ?).
Qed.

Lemma raised_on_spec cutoff e err :
  raised_on cutoff e = Some err <->
  too_old cutoff (parse_entry_date e) = false
  /\ exists s, entry_summary e = Some s /\ parser_rejects s = Some err.
Proof.
  unfold raised_on, entry_error. destruct (too_old cutoff (parse_entry_date e)).
  - split; [discriminate|]. by intros [? _].
  - destruct (entry_summary e) as [s|].
    + split; [eauto|]. by intros (_ & s' & [= <-] & ?).
    + split; [discriminate|]. by intros (_ & s' & ? & _).
Qed.

(** The entries the loop reaches: all of them when none raises, those before
    the first that raises otherwise. *)
Lemma reached_all cutoff es :
  Forall (fun x => raised_on cutoff x = None) es ->
  reached cutoff es = es /\ loop_error cutoff es = None.
Proof.
  induction 1 as [|x es Hx _ [IH1 IH2]]; [done|].
  cbn [reached loop_error]. by rewrite Hx, IH1, IH2.
Qed.

Lemma reached_until cutoff before x rest err :
  Forall (fun x => raised_on cutoff x = None) before ->
  raised_on cutoff x = Some err ->
  reached cutoff (before ++ x :: rest) = before
  /\ loop_error cutoff (before ++ x :: rest) = Some err.
Proof.
  intros Hb Hx. induction Hb as [|y before Hy _ [IH1 IH2]].
  - cbn [app reached loop_error]. by rewrite Hx.
  - cbn [app reached loop_error]. by rewrite Hy, IH1, IH2.
Qed.

Lemma reached_prefix cutoff before rest :
  Forall (fun x => raised_on cutoff x = None) before ->
  reached cutoff (before ++ rest) = before ++ reached cutoff rest.
Proof.
  induction 1 as [|y before Hy _ IH]; [done|].
  cbn [app reached]. by rewrite Hy, IH.
Qed.


Lemma parse_entry_date_first (e : Entry) :
  parse_entry_date e =
  match published_parsed e with
  | Some p =>
      match to_datetime p with
      | inr dt => Some dt
      | inl _ =>
          match updated_parsed e with
          | Some u => match to_datetime u with inr dt => Some dt | inl _ => None end
          | None => None
          end
      end
  | None =>
      match updated_parsed e with
      | Some u => match to_datetime u with inr dt => Some dt | inl _ => None end
      | None => None
      end
  end.
Proof.
  unfold parse_entry_date. simpl.
  destruct (published_parsed e) as [p|]; [destruct (to_datetime p)|];
    destruct (updated_parsed e) as [u|]; try destruct (to_datetime u); reflexivity.
Qed.

Lemma lstrip_length s : (length (lstrip s) <= length s)%nat.
Proof.
  induction s as [|c s IH]; simpl; [lia|].
  destruct (isspace c); simpl; lia.
Qed.

Lemma strip_length s : (length (strip s) <= length s)%nat.
Proof.
  unfold strip, rstrip. rewrite length_rev.
  etrans; [apply lstrip_length|]. rewrite length_rev. apply lstrip_length.
Qed.

Lemma slice_to_take s (n : nat) : slice_to s (Z.of_nat n) = take n s.
Proof.
  unfold slice_to, slice_index.
  destruct (Z.ltb_spec (Z.of_nat n) 0); [lia|]. by rewrite Nat2Z.id.
Qed.

Lemma summary_length feed_url feed e pub_date :
  (length (summary (make_article feed_url feed e pub_date)) <= 300)%nat.
Proof.
  simpl. destruct (entry_summary e) as [s|]; simpl; [|lia].
  etrans; [apply strip_length|].
  change 300 with (Z.of_nat 300). rewrite slice_to_take, length_take. lia.
Qed.

Lemma collected_summaries w cutoff (feeds : list pystr) :
  Forall (fun a => (length (summary a) <= 300)%nat)
         (concat (map (collected w cutoff) feeds)).
Proof.
  apply Forall_concat, Forall_forall. intros l Hl.
  apply list_elem_of_fmap in Hl as (u & -> & _).
  unfold collected. destruct (feedparser_parse w u); [constructor|].
  apply Forall_forall. intros a Ha.
  apply list_elem_of_fmap in Ha as (e' & -> & _). apply summary_length.
Qed.

(** C7, amended.  The summary of a collected article is the text of the
    entry's summary field without its markup, cut to its first 300
    characters and then stripped of leading and trailing blanks; an entry
    without a summary field gets the empty string.  So no article the
    collector returns has a summary longer than 300 characters. *)
Theorem C7_summary_budget (feed_url : pystr) (feed : Feed) (e : Entry)
    (pub_date : option Z) :
  summary (make_article feed_url feed e pub_date) =
    match entry_summary e with
    | Some s => strip (take 300 (get_text s))
    | None => []
    end
  /\ (length (summary (make_article feed_url feed e pub_date)) <= 300)%nat
  /\ (forall w days st articles,
        (fetch_rss_articles w days st).1 = inr articles ->
        Forall (fun a => (length (summary a) <= 300)%nat) articles).
Proof.
  split; [|split].
  - simpl. destruct (entry_summary e); [|done].
    change 300 with (Z.of_nat 300). by rewrite slice_to_take.
  - apply summary_length.
  - intros w days st articles Hr.
    rewrite fetch_rss_articles_spec in Hr.
    destruct (cutoff_of w days) as [err|cutoff]; [discriminate Hr|].
    cbn [fst] in Hr.
    assert (articles = concat (map (collected w cutoff) FEEDS)) as -> by congruence.
    apply collected_summaries.
Qed.

(** ** Phase C: the prompt *)

Lemma join_cons_nonempty sep (c : N) (p : pystr) (rest : list pystr) :
  truthy (join sep ((c :: p) :: rest)) = true.
Proof. destruct rest; reflexivity. Qed.

Lemma articles_text_spec (articles : list Article) :
  articles_text articles =
  match articles with
  | [] => NO_ARTICLES
  | _ => join nl (map render_article (take 30 articles))
  end.
Proof.
  unfold articles_text, str_or. destruct articles as [|a articles]; [reflexivity|].
  change (take 30 (a :: articles)) with (a :: take 29 articles).
  rewrite fmap_cons. unfold render_article at 1 2.
  change (lit "- [") with [45%N; 32%N; 91%N]. simpl app.
  by rewrite join_cons_nonempty.
Qed.

(** C8.  The prompt embeds the rendering of the first 30 articles at most,
    in the order collected, each with its date, title, source and summary,
    and the insight text; a fixed placeholder stands for the articles when
    the list is empty and for the insight text when it is empty.  With a
    credential, this prompt is what is sent to the text-generation API. *)
Theorem C8_prompt (articles : list Article) (insight : pystr) :
  build_prompt articles (JStr insight) =
    PROMPT_HEAD
    ++ match articles with
       | [] => NO_ARTICLES
       | _ => join nl (map render_article (take 30 articles))
       end
    ++ PROMPT_MIDDLE
    ++ match insight with [] => NO_PERPLEXITY | _ => insight end
    ++ PROMPT_TAIL
  /\ length (take 30 articles) = Nat.min 30 (length articles)
  /\ take 30 articles `prefix_of` articles
  /\ (forall a,
        render_article a =
        lit "- [" ++ date a ++ lit "] " ++ title a ++ lit " | " ++ source a
        ++ nl ++ lit "  " ++ summary a)
  /\ (forall w st,
        ANTHROPIC_API_KEY w <> [] ->
        generate_digest_html w articles (JStr insight) st =
        (content <- lift (messages_create w (build_prompt articles (JStr insight))) ;;
         text <- lift (first_text content) ;;
         log_msg INFO (lit "Claude OK — digest generated") ;;;
         ret text) st).
Proof.
  split; [|split; [|split; [|split]]].
  - unfold build_prompt. rewrite articles_text_spec. do 3 f_equal.
    unfold perplexity_block. by destruct insight.
  - apply length_take.
  - apply prefix_take.
  - reflexivity.
  - intros w st Hk. unfold generate_digest_html.
    destruct (ANTHROPIC_API_KEY w); [done|reflexivity].
Qed.

(** ** Dates *)

Lemma month_of_doe_range (doe : Z) :
  0 <= doe < 146097 -> 1 <= month_of_doe doe <= 12.
Proof.
  intros Hd. unfold month_of_doe.
  assert (0 <= doe - (365 * ((doe - doe / 1460 + doe / 36524 - doe / 146096) / 365)
                      + (doe - doe / 1460 + doe / 36524 - doe / 146096) / 365 / 4
                      - (doe - doe / 1460 + doe / 36524 - doe / 146096) / 365 / 100)
          <= 365) as Hdoy by (Z.div_mod_to_equations; lia).
  set (doy := doe - _) in *.
  assert (0 <= (5 * doy + 2) / 153 <= 11) as Hmp by (Z.div_mod_to_equations; lia).
  destruct (Z.ltb_spec ((5 * doy + 2) / 153) 10); lia.
Qed.

Lemma month_of_date_range (dt : Z) : 1 <= month (date_of dt) <= 12.
Proof.
  unfold date_of, civil_from_days. cbn [month].
  apply month_of_doe_range, Z.mod_pos_bound. lia.
Qed.

Lemma dict_get_month (m : Z) :
  1 <= m <= 12 -> exists name, dict_get CZECH_MONTHS m = inr name.
Proof.
  intros Hm.
  assert (m = 1 \/ m = 2 \/ m = 3 \/ m = 4 \/ m = 5 \/ m = 6 \/ m = 7 \/ m = 8
          \/ m = 9 \/ m = 10 \/ m = 11 \/ m = 12) as Hc by lia.
  repeat (destruct Hc as [-> | Hc]; [eexists; reflexivity|]).
  subst. eexists; reflexivity.
Qed.

Lemma format_date_czech_ok (dt : Date) :
  1 <= month dt <= 12 -> exists s, format_date_czech dt = inr s.
Proof.
  intros Hm. unfold format_date_czech.
  destruct (dict_get_month _ Hm) as [name ->]. eauto.
Qed.

Lemma check_date_valid y m d dt :
  check_date y m d = inr dt -> 1 <= year dt /\ 1 <= month dt <= 12 /\ 1 <= day dt.
Proof.
  unfold check_date. intros Hc.
  repeat (case_match; try discriminate).
  injection Hc as <-. simpl.
  repeat match goal with Hn : negb _ = false |- _ => apply negb_false_iff in Hn end.
  lia.
Qed.

Lemma strptime_valid s dt :
  strptime s = inr dt -> 1 <= year dt /\ 1 <= month dt <= 12 /\ 1 <= day dt.
Proof.
  unfold strptime. intros Hs.
  repeat (case_match; try discriminate). eauto using check_date_valid.
Qed.

Lemma check_date_error y m d e :
  check_date y m d = inl e -> err_class e = ValueError.
Proof.
  unfold check_date. intros Hc.
  repeat (case_match; try discriminate); by injection Hc as <-.
Qed.

Lemma strptime_month s dt : strptime s = inr dt -> 1 <= month dt <= 12.
Proof. intros Hs. by apply strptime_valid in Hs as (_ & Hm & _). Qed.

Lemma strptime_error s e : strptime s = inl e -> err_class e = ValueError.
Proof.
  unfold strptime. intros Hs.
  repeat (case_match; try discriminate);
    try (by injection Hs as <-); eauto using check_date_error.
Qed.

(** ** Phase D: the archive *)

Lemma display_date_spec date_str st :
  display_date date_str st = (inr (display_of date_str), st).
Proof.
  unfold display_date, display_of, try_except_ValueError, bind, lift.
  destruct (strptime date_str) as [e|dt] eqn:Hs.
  - apply strptime_error in Hs. destruct e as [c msg]. simpl in *. by subst c.
  - destruct (format_date_czech_ok dt (strptime_month _ _ Hs)) as [s Hf].
    unfold ret. simpl. rewrite Hf. reflexivity.
Qed.

Lemma digests_loop_spec files digests st :
  digests_loop files digests st = (inr (digests ++ map digest_of files), st).
Proof.
  revert digests. induction files as [|f files IH]; intros digests; simpl.
  - by rewrite app_nil_r.
  - unfold bind. rewrite display_date_spec. rewrite IH.
    by rewrite <- app_assoc.
Qed.

Lemma rebuild_index_page_spec st :
  rebuild_index_page st =
  (inr (digests_of (digest_dir st)),
   mkState (<[lit "index.html" := index_page (digests_of (digest_dir st))]> (digest_dir st))
           (main_index st)
           (log st ++ [(INFO, lit "Index rebuilt: " ++ (DIGEST_DIR ++ lit "/index.html")
                              ++ lit " ("
                              ++ str_of_int (Z.of_nat (length (digests_of (digest_dir st))))
                              ++ lit " digests)")])).
Proof.
  unfold rebuild_index_page, bind, listdir. rewrite digests_loop_spec. reflexivity.
Qed.

Lemma build_digest_page_spec date_str date_display content_html st :
  build_digest_page date_str date_display content_html st =
  (inr (DIGEST_DIR ++ lit "/" ++ (date_str ++ lit ".html")),
   mkState (<[date_str ++ lit ".html" := digest_page date_display content_html]> (digest_dir st))
           (main_index st)
           (log st ++ [(INFO, lit "Saved: " ++ (DIGEST_DIR ++ lit "/" ++ (date_str ++ lit ".html")))])).
Proof. reflexivity. Qed.

Lemma update_main_index_spec digests st :
  update_main_index digests st =
  (inr tt,
   match main_index st with
   | None => with_log st [(WARNING, lit "Main index.html not found, skipping")]
   | Some stored =>
       match patch_page (universal_newlines stored) digests with
       | None => with_log st [(WARNING, lit "Digest markers not found in main index.html")]
       | Some new_content =>
           mkState (digest_dir st) (Some new_content)
                   (log st ++ [(INFO, lit "Main index.html updated")])
       end
   end).
Proof.
  unfold update_main_index, bind, read_main_index, patch_page.
  destruct (main_index st) as [stored|]; [|reflexivity].
  cbn [fmap option_fmap option_map].
  destruct ((find (universal_newlines stored) START_MARKER =? -1)
            || (find (universal_newlines stored) END_MARKER =? -1));
    reflexivity.
Qed.

(** ** Phase B: the insight fetcher *)

Lemma raise_for_status_error resp :
  400 <= status_code resp < 600 -> exists e, raise_for_status resp = inl e.
Proof.
  intros Hs. unfold raise_for_status.
  destruct (Z.leb_spec 400 (status_code resp)); [|lia].
  destruct (Z.ltb_spec (status_code resp) 500); simpl; [eauto|].
  destruct (Z.leb_spec 500 (status_code resp)); [|lia].
  destruct (Z.ltb_spec (status_code resp) 600); simpl; [eauto|lia].
Qed.

Lemma fetch_perplexity_insights_spec w st :
  exists lg,
    returns_logging (fetch_perplexity_insights w st) st (insight_of w) lg
    /\ (insight_failure w -> insight_of w = JStr [] /\ exists msg, lg = [(WARNING, msg)]).
Proof.
  unfold fetch_perplexity_insights, insight_of, insight_failure.
  destruct (PERPLEXITY_API_KEY w) as [|c key] eqn:Hkey; simpl.
  { eexists. split; [reflexivity|]. eauto. }
  unfold try_except, perplexity_request, bind, lift.
  destruct (requests_post w) as [e|resp] eqn:Hpost; simpl.
  { eexists. split; [reflexivity|]. eauto. }
  destruct (raise_for_status resp) as [e|[]] eqn:Hstatus; simpl.
  { eexists. split; [reflexivity|]. eauto. }
  destruct (json_body resp) as [e|body] eqn:Hbody; simpl.
  { eexists. split; [reflexivity|]. eauto. }
  destruct (choices_content body) as [e|content] eqn:Hcontent; simpl.
  { eexists. split; [reflexivity|]. eauto. }
  eexists. split; [reflexivity|].
  intros [Hf | [[e Hf] | (resp' & Hr & Hf)]]; [done..|].
  injection Hr as <-.
  destruct Hf as [Hf | [[e Hf] | (body' & e & Hb & Hf)]].
  - apply raise_for_status_error in Hf as [e Hf]. congruence.
  - congruence.
  - congruence.
Qed.

(** ** Main *)

Lemma generate_digest_html_spec w articles perplexity_text st :
  generate_digest_html w articles perplexity_text st =
  match generation_outcome w articles perplexity_text with
  | inl e => (inl (Exception e), st)
  | inr text => (inr text, with_log st [(INFO, lit "Claude OK — digest generated")])
  end.
Proof.
  unfold generate_digest_html, generation_outcome.
  destruct (negb (truthy (ANTHROPIC_API_KEY w))); [reflexivity|].
  unfold bind, lift.
  destruct (messages_create w (build_prompt articles perplexity_text)) as [e|content];
    [reflexivity|]. simpl.
  destruct (first_text content); reflexivity.
Qed.

Lemma publish_spec date_str date_display content_html st :
  exists st',
    publish date_str date_display content_html st = (inr tt, st')
    /\ digest_dir st' =
       <[lit "index.html" :=
           index_page (digests_of (<[date_str ++ lit ".html" :=
                                       digest_page date_display content_html]> (digest_dir st)))]>
         (<[date_str ++ lit ".html" := digest_page date_display content_html]> (digest_dir st))
    /\ main_index st' =
       patched_main_index (main_index st)
         (digests_of (<[date_str ++ lit ".html" :=
                          digest_page date_display content_html]> (digest_dir st))).
Proof.
  unfold publish, bind. rewrite build_digest_page_spec, rebuild_index_page_spec.
  rewrite update_main_index_spec. cbn [digest_dir main_index].
  eexists. split; [reflexivity|]. unfold patched_main_index.
  destruct (main_index st) as [stored|]; [|done].
  destruct (patch_page (universal_newlines stored) _); done.
Qed.

Lemma main_reaches_generation w st :
  exists date_display lg,
    format_date_czech (date_of (now_main w)) = inr date_display
    /\ main w st =
       main_from_generation w (strftime_ymd (now_main w)) date_display
         (concat (map (collected w (now_fetch w - 7 * usec_per_day)) FEEDS))
         (insight_of w) (with_log st lg).
Proof.
  destruct (format_date_czech_ok _ (month_of_date_range (now_main w))) as [dd Hdd].
  exists dd. unfold main, main_from_generation.
  rewrite Hdd. unfold lift at 1. unfold bind at 1, ret at 1.
  unfold bind at 1, log_msg at 1. fold (with_log st
    [(INFO, lit "=== Generating digest for " ++ strftime_ymd (now_main w) ++ lit " ===")]).
  set (st0 := with_log st _).
  unfold bind at 1. rewrite fetch_rss_articles_week.
  match goal with |- context [with_log st0 ?lg1] =>
    destruct (fetch_perplexity_insights_spec w (with_log st0 lg1)) as (lg2 & H2 & _)
  end.
  unfold returns_logging in H2. unfold bind at 1. rewrite H2.
  unfold st0. rewrite !with_log_with_log. eexists. split; reflexivity.
Qed.

Lemma main_from_generation_fail w date_str date_display articles insight st e :
  generation_outcome w articles insight = inl e ->
  main_from_generation w date_str date_display articles insight st =
  (inl (SystemExit 1),
   with_log st [(ERROR, lit "Claude generation failed: " ++ err_msg e)]).
Proof.
  intros Ho. unfold main_from_generation, bind, try_except.
  rewrite generate_digest_html_spec, Ho. reflexivity.
Qed.

Lemma main_from_generation_ok w date_str date_display articles insight st html :
  generation_outcome w articles insight = inr html ->
  exists st', main_from_generation w date_str date_display articles insight st = (inr tt, st').
Proof.
  intros Ho. unfold main_from_generation, try_except.
  unfold bind at 1. rewrite generate_digest_html_spec, Ho.
  unfold bind. rewrite build_digest_page_spec, rebuild_index_page_spec.
  rewrite update_main_index_spec. eexists. reflexivity.
Qed.

Lemma main_without_generation w st articles insight e :
  articles = concat (map (collected w (now_fetch w - 7 * usec_per_day)) FEEDS) ->
  insight = insight_of w ->
  generation_outcome w articles insight = inl e ->
  exit_code (main w st).1 = 1
  /\ digest_dir (main w st).2 = digest_dir st
  /\ main_index (main w st).2 = main_index st.
Proof.
  intros -> -> Ho.
  destruct (main_reaches_generation w st) as (dd & lg & _ & ->).
  erewrite main_from_generation_fail by exact Ho. done.
Qed.

(** C2.  [main] hands the collected articles and the insight to
    [generate_digest_html].  If the credential is empty, or the request to
    the text-generation API raises, or that call raises for any reason, the
    process exits with code 1 and the files are as they were.  If the call
    returns, the process exits with code 0: whatever the feeds and the
    insight request did. *)
Theorem C2_exit_code (w : World) (st : State) :
  let articles := concat (map (collected w (now_fetch w - 7 * usec_per_day)) FEEDS) in
  let insight := insight_of w in
  let unchanged :=
    digest_dir (main w st).2 = digest_dir st /\ main_index (main w st).2 = main_index st in
  (ANTHROPIC_API_KEY w = [] -> exit_code (main w st).1 = 1 /\ unchanged)
  /\ (forall e, messages_create w (build_prompt articles insight) = inl e ->
        exit_code (main w st).1 = 1 /\ unchanged)
  /\ (forall st2 x, (generate_digest_html w articles insight st2).1 = inl x ->
        exit_code (main w st).1 = 1 /\ unchanged)
  /\ (forall st2 html, (generate_digest_html w articles insight st2).1 = inr html ->
        exit_code (main w st).1 = 0).
Proof.
  intros articles insight unchanged. subst articles insight unchanged.
  set (articles := concat _). set (insight := insight_of w).
  split; [|split; [|split]].
  - intros Hk. eapply (main_without_generation w st articles insight); try reflexivity.
    unfold generation_outcome. rewrite Hk. reflexivity.
  - intros e He.
    destruct (generation_outcome w articles insight) as [e'|html] eqn:Ho.
    + by eapply (main_without_generation w st articles insight).
    + unfold generation_outcome in Ho. rewrite He in Ho.
      destruct (negb (truthy (ANTHROPIC_API_KEY w))); discriminate.
  - intros st2 x Hx. rewrite generate_digest_html_spec in Hx.
    destruct (generation_outcome w articles insight) as [e'|html] eqn:Ho; [|discriminate].
    by eapply (main_without_generation w st articles insight).
  - intros st2 html Hx. rewrite generate_digest_html_spec in Hx.
    destruct (generation_outcome w articles insight) as [e'|html'] eqn:Ho; [discriminate|].
    destruct (main_reaches_generation w st) as (dd & lg & _ & ->).
    fold articles insight.
    destruct (main_from_generation_ok w (strftime_ymd (now_main w)) dd articles insight
                (with_log st lg) html' Ho) as [st' ->].
    reflexivity.
Qed.

(** C5.  The insight fetcher always returns: it never raises.  Without a
    credential, or when the request fails (it raises, as on a network error
    or a timeout; the status is a client or server error; the body is not
    JSON; the JSON lacks the content), it returns the empty string and logs
    one warning, and changes nothing else.  [main] then goes on to the
    text-generation phase with what the fetcher returned. *)
Theorem C5_insights_never_abort (w : World) (st : State) :
  (exists lg, returns_logging (fetch_perplexity_insights w st) st (insight_of w) lg)
  /\ (insight_failure w ->
      exists msg,
        returns_logging (fetch_perplexity_insights w st) st (JStr []) [(WARNING, msg)])
  /\ (exists date_display lg,
        main w st =
        main_from_generation w (strftime_ymd (now_main w)) date_display
          (concat (map (collected w (now_fetch w - 7 * usec_per_day)) FEEDS))
          (insight_of w) (with_log st lg)).
Proof.
  destruct (fetch_perplexity_insights_spec w st) as (lg & Hr & Hf).
  split; [|split].
  - eauto.
  - intros Hfail. destruct (Hf Hfail) as (Hv & msg & ->).
    exists msg. by rewrite <- Hv.
  - destruct (main_reaches_generation w st) as (dd & lg' & _ & Hm). eauto.
Qed.

(** ** The order of strings *)

Lemma str_compare_refl a : str_compare a a = Eq.
Proof. induction a as [|x a IH]; simpl; [done|]. by rewrite N.compare_refl. Qed.

Lemma str_compare_eq a b : str_compare a b = Eq -> a = b.
Proof.
  revert b. induction a as [|x a IH]; intros [|y b]; simpl; try done.
  destruct (N.compare_spec x y); try done. intros. subst. f_equal. auto.
Qed.

Lemma str_compare_antisym a b : str_compare b a = CompOpp (str_compare a b).
Proof.
  revert b. induction a as [|x a IH]; intros [|y b]; simpl; try done.
  rewrite (N.compare_antisym x y). destruct (x ?= y)%N; simpl; auto.
Qed.

Lemma str_compare_lt_trans a b c :
  str_compare a b = Lt -> str_compare b c = Lt -> str_compare a c = Lt.
Proof.
  revert b c. induction a as [|x a IH]; intros [|y b] [|z c]; simpl; try done.
  destruct (N.compare_spec x y), (N.compare_spec y z); try done; subst.
  - rewrite N.compare_refl. eauto.
  - intros _ _. by apply N.compare_lt_iff in H1 as ->.
  - intros _ _. by apply N.compare_lt_iff in H0 as ->.
  - intros _ _. assert (x < z)%N as Hxz by lia. by apply N.compare_lt_iff in Hxz as ->.
Qed.

#[local] Instance str_ge_total : Total (fun a b => str_le b a).
Proof.
  intros a b. unfold str_le. rewrite (str_compare_antisym b a).
  destruct (str_compare b a); simpl; auto.
Qed.

#[local] Instance str_ge_trans : Transitive (fun a b => str_le b a).
Proof.
  intros a b c. unfold str_le. intros Hba Hcb.
  destruct (str_compare b a) eqn:E1; [| |done].
  - apply str_compare_eq in E1 as ->. done.
  - destruct (str_compare c b) eqn:E2; [| |done].
    + apply str_compare_eq in E2 as ->. by rewrite E1.
    + by rewrite (str_compare_lt_trans c b a).
Qed.

#[local] Instance str_ge_antisym : AntiSymm (=) (fun a b => str_le b a).
Proof.
  intros a b. unfold str_le. intros Hba Hab.
  rewrite (str_compare_antisym b a) in Hab.
  destruct (str_compare b a) eqn:E; simpl in *; [|done..].
  by apply str_compare_eq in E.
Qed.

Lemma sorted_reverse_perm names : sorted_reverse names ≡ₚ names.
Proof. apply merge_sort_Permutation. Qed.

Lemma sorted_reverse_sorted names :
  StronglySorted (fun a b => str_le b a) (sorted_reverse names).
Proof. apply StronglySorted_merge_sort; apply _. Qed.

(** Without repeated names the order is strict. *)
Lemma sorted_reverse_strict names :
  NoDup names -> StronglySorted (fun a b => str_lt b a) (sorted_reverse names).
Proof.
  intros Hnd. rewrite <- (sorted_reverse_perm names) in Hnd.
  pose proof (sorted_reverse_sorted names) as Hs.
  induction Hs as [|a l Hl IH Hall]; [constructor|].
  apply NoDup_cons in Hnd as [Ha Hnd]. constructor; [auto|].
  rewrite Forall_forall in *. intros b Hb. specialize (Hall b Hb).
  unfold str_le, str_lt in *. destruct (str_compare b a) eqn:E; [|done..].
  apply str_compare_eq in E as ->. done.
Qed.

(** The order of the input does not matter to [sorted]. *)
Lemma sorted_reverse_of_perm l1 l2 : l1 ≡ₚ l2 -> sorted_reverse l1 = sorted_reverse l2.
Proof.
  intros Hp. apply (StronglySorted_unique (fun a b => str_le b a)).
  - apply sorted_reverse_sorted.
  - apply sorted_reverse_sorted.
  - by rewrite !sorted_reverse_perm.
Qed.

(** ** The order of printed dates *)

Lemma digit_char_compare a b :
  (digit_char a ?= digit_char b)%N = (a mod 10 ?= b mod 10).
Proof.
  unfold digit_char.
  pose proof (Z.mod_pos_bound a 10 ltac:(lia)).
  pose proof (Z.mod_pos_bound b 10 ltac:(lia)).
  rewrite Z2N.inj_compare by lia. apply Z.add_compare_mono_l.
Qed.

Lemma digit_char_ext a b : a mod 10 = b mod 10 -> digit_char a = digit_char b.
Proof. unfold digit_char. by intros ->. Qed.

Lemma pad2_compare n m a b :
  0 <= n <= 99 -> 0 <= m <= 99 ->
  str_compare (pad2 n ++ a) (pad2 m ++ b) =
  match n ?= m with Eq => str_compare a b | c => c end.
Proof.
  intros Hn Hm. unfold pad2. simpl. rewrite !digit_char_compare.
  destruct (Z.compare_spec ((n / 10) mod 10) ((m / 10) mod 10)) as [E1|E1|E1];
    destruct (Z.compare_spec (n mod 10) (m mod 10)) as [E2|E2|E2];
    destruct (Z.compare_spec n m) as [E|E|E]; try reflexivity;
    exfalso; revert E1 E2 E; Z.div_mod_to_equations; lia.
Qed.

Lemma pad4_compare n m a b :
  0 <= n <= 9999 -> 0 <= m <= 9999 ->
  str_compare (pad4 n ++ a) (pad4 m ++ b) =
  match n ?= m with Eq => str_compare a b | c => c end.
Proof.
  intros Hn Hm.
  assert (pad4 n = pad2 (n / 100) ++ pad2 (n mod 100)) as ->.
  { unfold pad4, pad2. cbn [app].
    rewrite (digit_char_ext (n / 1000) (n / 100 / 10)) by (Z.div_mod_to_equations; lia).
    rewrite (digit_char_ext (n / 10) (n mod 100 / 10)) by (Z.div_mod_to_equations; lia).
    rewrite (digit_char_ext n (n mod 100)) by (Z.div_mod_to_equations; lia).
    reflexivity. }
  assert (pad4 m = pad2 (m / 100) ++ pad2 (m mod 100)) as ->.
  { unfold pad4, pad2. cbn [app].
    rewrite (digit_char_ext (m / 1000) (m / 100 / 10)) by (Z.div_mod_to_equations; lia).
    rewrite (digit_char_ext (m / 10) (m mod 100 / 10)) by (Z.div_mod_to_equations; lia).
    rewrite (digit_char_ext m (m mod 100)) by (Z.div_mod_to_equations; lia).
    reflexivity. }
  rewrite <- !app_assoc.
  rewrite pad2_compare by (Z.div_mod_to_equations; lia).
  rewrite pad2_compare by (Z.div_mod_to_equations; lia).
  destruct (Z.compare_spec (n / 100) (m / 100)) as [E1|E1|E1];
    destruct (Z.compare_spec (n mod 100) (m mod 100)) as [E2|E2|E2];
    destruct (Z.compare_spec n m) as [E|E|E]; try reflexivity;
    exfalso; revert E1 E2 E; Z.div_mod_to_equations; lia.
Qed.

(** From the year 1000 on [%Y] prints four digits. *)
Lemma str_of_int_pad4 y : 1000 <= y <= 9999 -> str_of_int y = pad4 y.
Proof.
  intros Hy.
  assert (forallb (fun n => match str_compare (str_of_int (1000 + Z.of_nat n))
                                              (pad4 (1000 + Z.of_nat n)) with
                            | Eq => true
                            | _ => false
                            end) (seq 0 (Z.to_nat 9000)) = true) as Hall
    by (vm_compute; reflexivity).
  rewrite forallb_forall in Hall. specialize (Hall (Z.to_nat (y - 1000))).
  rewrite Z2Nat.id in Hall by lia. replace (1000 + (y - 1000)) with y in Hall by lia.
  apply str_compare_eq.
  destruct (str_compare (str_of_int y) (pad4 y)); [reflexivity|..];
    (assert (false = true) as Hf; [apply Hall, in_seq; lia|discriminate Hf]).
Qed.

Lemma iso_date_pad4 d :
  1000 <= year d <= 9999 ->
  iso_date d = pad4 (year d) ++ [45%N] ++ pad2 (month d) ++ [45%N] ++ pad2 (day d).
Proof. intros Hy. unfold iso_date. by rewrite str_of_int_pad4. Qed.

Lemma iso_date_compare (d1 d2 : Date) (ext : pystr) :
  printable d1 -> printable d2 ->
  str_compare (iso_date d1 ++ ext) (iso_date d2 ++ ext) = date_compare d1 d2.
Proof.
  intros (Hy1 & Hm1 & Hd1) (Hy2 & Hm2 & Hd2).
  rewrite !iso_date_pad4 by done. unfold date_compare.
  rewrite <- !app_assoc. rewrite pad4_compare by lia.
  destruct (year d1 ?= year d2); try reflexivity.
  cbn [app str_compare]. rewrite N.compare_refl.
  rewrite pad2_compare by done.
  destruct (month d1 ?= month d2); try reflexivity.
  cbn [app str_compare]. rewrite N.compare_refl.
  rewrite pad2_compare by done.
  destruct (day d1 ?= day d2); try reflexivity. apply str_compare_refl.
Qed.

(** ** The files the archive lists *)

Lemma fnmatch_cons c name p pattern :
  fnmatch (c :: name) (p :: pattern) =
  ((p =? 63)%N || (p =? c)%N) && fnmatch name pattern.
Proof. reflexivity. Qed.

Lemma fnmatch_length name pattern :
  fnmatch name pattern = true -> length name = length pattern.
Proof.
  revert name. induction pattern as [|p pattern IH]; intros [|c name]; try done.
  rewrite fnmatch_cons. intros [_ Hm]%andb_prop. simpl. f_equal. auto.
Qed.

Lemma fnmatch_pattern_shape (name : pystr) :
  fnmatch name DIGEST_PATTERN = true <->
  exists c1 c2 c3 c4 c5 c6 c7 c8 : N,
    name = [c1; c2; c3; c4; 45%N; c5; c6; 45%N; c7; c8] ++ lit ".html".
Proof.
  change DIGEST_PATTERN with
    [63%N; 63%N; 63%N; 63%N; 45%N; 63%N; 63%N; 45%N; 63%N; 63%N;
     46%N; 104%N; 116%N; 109%N; 108%N].
  change (lit ".html") with [46%N; 104%N; 116%N; 109%N; 108%N].
  split.
  - intros Hm. pose proof (fnmatch_length _ _ Hm) as Hlen.
    do 15 (destruct name as [|? name]; [discriminate Hlen|]).
    destruct name; [|discriminate Hlen]. clear Hlen.
    rewrite !fnmatch_cons in Hm.
    change (63 =? 63)%N with true in Hm. change (45 =? 63)%N with false in Hm.
    change (46 =? 63)%N with false in Hm. change (104 =? 63)%N with false in Hm.
    change (116 =? 63)%N with false in Hm. change (109 =? 63)%N with false in Hm.
    change (108 =? 63)%N with false in Hm.
    cbn [orb andb fnmatch] in Hm.
    repeat (apply andb_prop in Hm as [?%N.eqb_eq Hm]).
    subst. by eexists _, _, _, _, _, _, _, _.
  - intros (c1 & c2 & c3 & c4 & c5 & c6 & c7 & c8 & ->). reflexivity.
Qed.

Lemma stem_of_match (name : pystr) :
  fnmatch name DIGEST_PATTERN = true ->
  stem name = take 10 name /\ name = stem name ++ lit ".html" /\ length (stem name) = 10%nat.
Proof.
  intros (c1 & c2 & c3 & c4 & c5 & c6 & c7 & c8 & ->)%fnmatch_pattern_shape.
  change (lit ".html") with [46%N; 104%N; 116%N; 109%N; 108%N].
  assert (stem ([c1; c2; c3; c4; 45%N; c5; c6; 45%N; c7; c8]
                ++ [46%N; 104%N; 116%N; 109%N; 108%N])
          = [c1; c2; c3; c4; 45%N; c5; c6; 45%N; c7; c8]) as ->; [|done].
  unfold stem, rfind. change (lit ".") with [46%N].
  cbn [app rfind_from startswith N.eqb Pos.eqb andb Z.add Z.eqb Pos.add Pos.succ
       Z.pos_sub Pos.pred_double Z.succ_double Z.pred_double Z.double].
  reflexivity.
Qed.

Lemma elem_of_matching_names dir name :
  name ∈ matching_names dir <->
  is_Some (dir !! name) /\ fnmatch name DIGEST_PATTERN = true.
Proof.
  unfold matching_names, glob. rewrite list_elem_of_filter, list_elem_of_fmap.
  split.
  - intros (Hm & [k v] & -> & Hkv). apply elem_of_map_to_list in Hkv. naive_solver.
  - intros ([v Hv] & Hm). split; [done|]. exists (name, v).
    split; [done|]. by apply elem_of_map_to_list.
Qed.

Lemma NoDup_matching_names dir : NoDup (matching_names dir).
Proof. apply NoDup_filter, NoDup_fst_map_to_list. Qed.

(** The digests depend only on which pattern-matching names exist. *)
Lemma digests_of_ext dir1 dir2 :
  (forall name, fnmatch name DIGEST_PATTERN = true ->
                is_Some (dir1 !! name) <-> is_Some (dir2 !! name)) ->
  digests_of dir1 = digests_of dir2.
Proof.
  intros Hext. unfold digests_of. f_equal. apply sorted_reverse_of_perm.
  apply NoDup_Permutation; [apply NoDup_matching_names..|].
  intros name. rewrite !elem_of_matching_names.
  split; intros [Hs Hm]; (split; [by apply (Hext name Hm)|done]).
Qed.

Lemma filenames_digests_of dir :
  map filename (digests_of dir) = sorted_reverse (matching_names dir).
Proof.
  unfold digests_of. rewrite map_map. simpl. apply map_id.
Qed.

Lemma elem_of_digests_of dir d :
  d ∈ digests_of dir <->
  d = digest_of (filename d) /\ is_Some (dir !! filename d)
  /\ fnmatch (filename d) DIGEST_PATTERN = true.
Proof.
  unfold digests_of. rewrite list_elem_of_fmap. split.
  - intros (name & -> & Hn). rewrite sorted_reverse_perm in Hn.
    apply elem_of_matching_names in Hn. done.
  - intros (Hd & Hn). exists (filename d). split; [done|].
    rewrite sorted_reverse_perm. by apply elem_of_matching_names.
Qed.

Lemma digests_of_sorted dir :
  StronglySorted (fun x y => str_lt (filename y) (filename x)) (digests_of dir).
Proof.
  unfold digests_of.
  apply (StronglySorted_fmap digest_of (fun a b => str_lt b a)); [done|].
  apply sorted_reverse_strict, NoDup_matching_names.
Qed.

Lemma join_cons_ne sep (p : pystr) (rest : list pystr) :
  rest <> [] -> join sep (p :: rest) = p ++ sep ++ join sep rest.
Proof. by destruct rest. Qed.

Lemma join_middle sep (l1 l2 : list pystr) (x : pystr) :
  exists before after, join sep (l1 ++ x :: l2) = before ++ x ++ after.
Proof.
  induction l1 as [|y l1 (before & after & IH)].
  - destruct l2 as [|z l2].
    + exists [], []. simpl. by rewrite app_nil_r.
    + exists [], (sep ++ join sep (z :: l2)). reflexivity.
  - exists (y ++ sep ++ before), after.
    change ((y :: l1) ++ x :: l2) with (y :: (l1 ++ x :: l2)).
    rewrite join_cons_ne by (by destruct l1).
    rewrite IH. by rewrite <- !app_assoc.
Qed.

Lemma list_html_lists digests d :
  d ∈ digests ->
  exists before after, list_html digests = before ++ render_item d ++ after.
Proof.
  intros (l1 & l2 & ->)%list_elem_of_split.
  unfold list_html. destruct (l1 ++ d :: l2) eqn:E; [by destruct l1|]. rewrite <- E.
  rewrite map_app. cbn [map].
  destruct (join_middle nl (map render_item l1) (map render_item l2) (render_item d))
    as (before & after & ->).
  exists (LIST_HTML_1 ++ before), (after ++ LIST_HTML_2). by rewrite <- !app_assoc.
Qed.

(** The index page and the block hold the item of each digest they list,
    with its file name and its display date. *)
Lemma index_page_lists digests d :
  d ∈ digests ->
  exists before after,
    index_page digests =
    before ++ ITEM_1 ++ filename d ++ ITEM_2 ++ date_display d ++ ITEM_3 ++ after.
Proof.
  intros (before & after & Hl)%list_html_lists. unfold index_page. rewrite Hl.
  exists (INDEX_PAGE_1 ++ SHARED_CSS ++ INDEX_PAGE_2 ++ before), (after ++ INDEX_PAGE_3).
  unfold render_item. by rewrite <- !app_assoc.
Qed.

Lemma new_block_lists digests d :
  d ∈ take 3 digests ->
  exists before after,
    new_block digests =
    before ++ MAIN_ITEM_1 ++ filename d ++ MAIN_ITEM_2 ++ date_display d
    ++ MAIN_ITEM_3 ++ after.
Proof.
  intros (l1 & l2 & Hl)%list_elem_of_split. unfold new_block. rewrite Hl.
  destruct (l1 ++ d :: l2) eqn:E; [by destruct l1|]. rewrite <- E.
  rewrite map_app. cbn [map].
  destruct (join_middle nl (map render_main_item l1) (map render_main_item l2)
              (render_main_item d)) as (before & after & ->).
  exists (START_MARKER ++ BLOCK_1 ++ before), (after ++ BLOCK_2 ++ END_MARKER).
  unfold render_main_item. by rewrite <- !app_assoc.
Qed.

(** ** Searching a string *)

Lemma startswith_spec sub s : startswith sub s = true <-> exists rest, s = sub ++ rest.
Proof.
  revert s. induction sub as [|a sub IH]; intros s; simpl.
  - split; [eauto|done].
  - destruct s as [|b s].
    + split; [done|]. by intros [? ?].
    + rewrite andb_true_iff, N.eqb_eq, IH. split.
      * intros (-> & rest & ->). eauto.
      * intros (rest & [= -> ->]). eauto.
Qed.

Lemma find_from_spec sub s i :
  (find_from sub s i = -1 /\ 0 <= i -> forall pre rest, s <> pre ++ sub ++ rest)
  /\ (0 <= i ->
      (find_from sub s i = -1 /\ forall pre rest, s <> pre ++ sub ++ rest)
      \/ (exists pre rest,
            find_from sub s i = i + Z.of_nat (length pre)
            /\ s = pre ++ sub ++ rest
            /\ forall pre' rest', s = pre' ++ sub ++ rest' -> (length pre <= length pre')%nat)).
Proof.
  assert (0 <= i ->
      (find_from sub s i = -1 /\ forall pre rest, s <> pre ++ sub ++ rest)
      \/ (exists pre rest,
            find_from sub s i = i + Z.of_nat (length pre)
            /\ s = pre ++ sub ++ rest
            /\ forall pre' rest', s = pre' ++ sub ++ rest' -> (length pre <= length pre')%nat))
    as Hmain.
  { revert i. induction s as [|c s IH]; intros i Hi; simpl.
    - destruct (startswith sub []) eqn:E.
      + right. apply startswith_spec in E as [rest E]. exists [], rest.
        split; [simpl; lia|]. split; [done|]. intros; simpl; lia.
      + left. split; [done|]. intros pre rest Heq.
        destruct pre; [|done]. simpl in Heq.
        assert (startswith sub [] = true) by (apply startswith_spec; eauto). congruence.
    - destruct (startswith sub (c :: s)) eqn:E.
      + right. apply startswith_spec in E as [rest E]. exists [], rest.
        split; [simpl; lia|]. split; [done|]. intros; simpl; lia.
      + destruct (IH (i + 1) ltac:(lia)) as [[Hr Hno] | (pre & rest & Hr & Heq & Hmin)].
        * left. split; [done|]. intros pre rest Heq. destruct pre as [|c' pre].
          -- assert (startswith sub (c :: s) = true) by (apply startswith_spec; eauto).
             congruence.
          -- injection Heq as -> Heq. by apply (Hno pre rest).
        * right. exists (c :: pre), rest. split; [rewrite Hr; simpl length; lia|].
          split; [by rewrite Heq|]. intros pre' rest' Heq'. destruct pre' as [|c' pre'].
          -- assert (startswith sub (c :: s) = true) by (apply startswith_spec; eauto).
             congruence.
          -- injection Heq' as -> Heq'. simpl. apply le_n_S. eauto. }
  split; [|done]. intros [Hr Hi]. destruct (Hmain Hi) as [[_ Hno] | (pre & rest & Hr' & _)];
    [done|lia].
Qed.

Lemma slice_from_drop s (n : nat) : slice_from s (Z.of_nat n) = drop n s.
Proof.
  unfold slice_from, slice_index.
  destruct (Z.ltb_spec (Z.of_nat n) 0); [lia|]. by rewrite Nat2Z.id.
Qed.

(** [find]: either -1 and no occurrence, or the length of the text before
    the first occurrence. *)
Lemma find_cases s sub :
  (find s sub = -1 /\ forall pre rest, s <> pre ++ sub ++ rest)
  \/ (exists pre rest,
        find s sub = Z.of_nat (length pre)
        /\ s = pre ++ sub ++ rest
        /\ (forall pre' rest', s = pre' ++ sub ++ rest' -> (length pre <= length pre')%nat)
        /\ slice_to s (find s sub) = pre
        /\ slice_from s (find s sub + Z.of_nat (length sub)) = rest).
Proof.
  unfold find. destruct (find_from_spec sub s 0) as [_ Hm].
  destruct (Hm ltac:(lia)) as [? | (pre & rest & Hr & Heq & Hmin)]; [by left|].
  right. exists pre, rest. rewrite Hr, Z.add_0_l. repeat split; try done.
  - rewrite slice_to_take. rewrite Heq at 1. apply take_app_length.
  - rewrite <- Nat2Z.inj_add, slice_from_drop. rewrite Heq at 1.
    rewrite app_assoc, <- length_app. apply drop_app_length.
Qed.

(** ** The archive index *)

Lemma new_block_spec digests :
  new_block digests =
  match digests with
  | [] => START_MARKER ++ BLOCK_COMING_SOON ++ END_MARKER
  | _ => START_MARKER ++ BLOCK_1 ++ join nl (map render_main_item (take 3 digests))
         ++ BLOCK_2 ++ END_MARKER
  end.
Proof. unfold new_block. by destruct digests. Qed.

Lemma digests_of_nil dir : matching_names dir = [] <-> digests_of dir = [].
Proof.
  unfold digests_of. split.
  - intros ->. reflexivity.
  - intros Hd. apply fmap_nil_inv in Hd.
    apply Permutation_nil_r. by rewrite <- (sorted_reverse_perm (matching_names dir)), Hd.
Qed.

Lemma index_not_matching : fnmatch (lit "index.html") DIGEST_PATTERN = false.
Proof. vm_compute. reflexivity. Qed.

(** File names that are printed dates, in descending order, are the names
    of dates in descending order. *)
Lemma dates_sorted (dates : list Date) :
  Forall printable dates ->
  StronglySorted (fun a b => str_lt b a)
                 (map (fun d => iso_date d ++ lit ".html") dates) ->
  StronglySorted (fun a b => date_lt b a) dates.
Proof.
  induction 1 as [|d dates Hd Hdates IH]; [constructor|].
  rewrite fmap_cons. intros [Hall Hs]%StronglySorted_cons.
  constructor; [auto|].
  rewrite Forall_fmap in Hall. rewrite Forall_forall in *.
  intros d' Hin. specialize (Hall d' Hin).
  change (str_lt (iso_date d' ++ lit ".html") (iso_date d ++ lit ".html")) in Hall.
  unfold str_lt, date_lt in *. rewrite iso_date_compare in Hall; auto.
Qed.


(** C9.  The pattern accepts any character in its eight wildcard places.
    A file of the directory whose name matches and whose stem [strptime]
    rejects is still a digest of the rebuilt index: it is returned, and the
    index page written holds its item, with the file name as the link and
    the stem, ten characters long, as the display date.  When [strptime]
    accepts the stem, the item shows the Czech date. *)
Theorem C9_unparseable_stem_listed (st : State) :
  (forall c1 c2 c3 c4 c5 c6 c7 c8 : N,
      fnmatch ([c1; c2; c3; c4; 45%N; c5; c6; 45%N; c7; c8] ++ lit ".html")
              DIGEST_PATTERN = true)
  /\ (rebuild_index_page st).1 = inr (digests_of (digest_dir st))
  /\ digest_dir (rebuild_index_page st).2 !! lit "index.html" =
     Some (index_page (digests_of (digest_dir st)))
  /\ (forall name e,
        is_Some (digest_dir st !! name) ->
        fnmatch name DIGEST_PATTERN = true ->
        strptime (stem name) = inl e ->
        length (stem name) = 10%nat
        /\ mkDigest name (stem name) (stem name) ∈ digests_of (digest_dir st)
        /\ (exists before after,
              list_html (digests_of (digest_dir st)) =
              before ++ render_item (mkDigest name (stem name) (stem name)) ++ after)
        /\ exists before after,
             digest_dir (rebuild_index_page st).2 !! lit "index.html" =
             Some (before ++ ITEM_1 ++ name ++ ITEM_2 ++ stem name ++ ITEM_3 ++ after))
  /\ (forall name dt,
        is_Some (digest_dir st !! name) ->
        fnmatch name DIGEST_PATTERN = true ->
        strptime (stem name) = inr dt ->
        exists display,
          format_date_czech dt = inr display
          /\ mkDigest name (stem name) display ∈ digests_of (digest_dir st)
          /\ exists before after,
               digest_dir (rebuild_index_page st).2 !! lit "index.html" =
               Some (before ++ ITEM_1 ++ name ++ ITEM_2 ++ display ++ ITEM_3 ++ after)).
Proof.
  rewrite rebuild_index_page_spec. cbn [fst snd digest_dir].
  split; [intros; apply fnmatch_pattern_shape; by eexists _, _, _, _, _, _, _, _|].
  split; [reflexivity|]. split; [apply lookup_insert_eq|]. split.
  - intros name e Hin Hm Hs.
    assert (mkDigest name (stem name) (stem name) ∈ digests_of (digest_dir st)) as Hd.
    { apply elem_of_digests_of. cbn [filename]. split; [|done].
      unfold digest_of, display_of. by rewrite Hs. }
    split; [by apply stem_of_match|]. split; [exact Hd|].
    split; [by apply list_html_lists|].
    destruct (index_page_lists _ _ Hd) as (before & after & Hp).
    exists before, after. by rewrite lookup_insert_eq, Hp.
  - intros name dt Hin Hm Hs.
    destruct (format_date_czech_ok dt (strptime_month _ _ Hs)) as [display Hf].
    exists display. split; [exact Hf|].
    assert (mkDigest name (stem name) display ∈ digests_of (digest_dir st)) as Hd.
    { apply elem_of_digests_of. cbn [filename]. split; [|done].
      unfold digest_of, display_of. by rewrite Hs, Hf. }
    split; [exact Hd|].
    destruct (index_page_lists _ _ Hd) as (before & after & Hp).
    exists before, after. by rewrite lookup_insert_eq, Hp.
Qed.

(** C10.  The rebuild writes [index.html] into the directory it scans, and
    that name does not match the pattern: a matching name has a stem of ten
    characters, the stem of the index page is [index].  So whatever the
    directory holds, the index page included, every digest returned and
    rendered is a file that matches the pattern and is not the index page;
    scanning again after the write gives the same digests. *)
Theorem C10_index_never_listed (st : State) :
  fnmatch (lit "index.html") DIGEST_PATTERN = false
  /\ stem (lit "index.html") = lit "index"
  /\ (forall name, fnmatch name DIGEST_PATTERN = true ->
        length (stem name) = 10%nat /\ name <> lit "index.html")
  /\ (rebuild_index_page st).1 = inr (digests_of (digest_dir st))
  /\ digest_dir (rebuild_index_page st).2 =
     <[lit "index.html" := index_page (digests_of (digest_dir st))]> (digest_dir st)
  /\ Forall (fun d => fnmatch (filename d) DIGEST_PATTERN = true
                      /\ filename d <> lit "index.html"
                      /\ is_Some (digest_dir st !! filename d))
            (digests_of (digest_dir st))
  /\ digests_of (digest_dir (rebuild_index_page st).2) = digests_of (digest_dir st).
Proof.
  assert (forall name, fnmatch name DIGEST_PATTERN = true -> name <> lit "index.html")
    as Hne.
  { intros name Hm ->. by rewrite index_not_matching in Hm. }
  rewrite rebuild_index_page_spec. cbn [fst snd digest_dir].
  split; [apply index_not_matching|].
  split; [vm_compute; reflexivity|].
  split; [intros name Hm; split; [by apply stem_of_match|by apply Hne]|].
  split; [reflexivity|]. split; [reflexivity|]. split.
  - apply Forall_forall. intros d (_ & Hin & Hm)%elem_of_digests_of. auto.
  - apply digests_of_ext. intros name Hm.
    rewrite lookup_insert_ne; [done|]. intros Heq. by apply (Hne name).
Qed.

(** ** Occurrences of the end marker *)

Lemma find_first s sub pre rest :
  s = pre ++ sub ++ rest ->
  (forall pre' rest', s = pre' ++ sub ++ rest' -> (length pre <= length pre')%nat) ->
  find s sub = Z.of_nat (length pre).
Proof.
  intros Heq Hmin.
  destruct (find_cases s sub) as [[_ Hno] | (pre1 & rest1 & Hf & Heq1 & Hmin1 & _)].
  - destruct (Hno pre rest Heq).
  - rewrite Hf. f_equal. apply Nat.le_antisymm; eauto.
Qed.

Lemma find_none s sub : find s sub = -1 -> ~ occurs sub s.
Proof.
  intros Hf (pre & rest & Heq).
  destruct (find_cases s sub) as [[_ Hno] | (pre1 & rest1 & Hf1 & _)].
  - exact (Hno pre rest Heq).
  - lia.
Qed.

(** An occurrence that ends inside a prefix is an occurrence in the prefix,
    at the same place. *)
Lemma occurs_in_prefix (sub a b pre rest : pystr) :
  a ++ b = pre ++ sub ++ rest ->
  (length pre + length sub <= length a)%nat ->
  exists rest', a = pre ++ sub ++ rest'.
Proof.
  intros Heq Hlen. rewrite app_assoc in Heq.
  apply app_eq_inv in Heq as [(k & -> & _) | (k & Hk & _)].
  - exists k. by rewrite app_assoc.
  - assert (k = []) as ->.
    { apply (f_equal length) in Hk. rewrite !length_app in Hk.
      destruct k; [done|]. simpl in Hk. lia. }
    rewrite app_nil_r in Hk. exists []. by rewrite app_nil_r.
Qed.

Lemma occurs_app_l sub a b : occurs sub a -> occurs sub (a ++ b).
Proof. intros (pre & rest & ->). exists pre, (rest ++ b). by rewrite <- !app_assoc. Qed.

Lemma occurs_app_r sub a b : occurs sub b -> occurs sub (a ++ b).
Proof. intros (pre & rest & ->). exists (a ++ pre), rest. by rewrite <- !app_assoc. Qed.

Lemma not_occurs_short sub s : (length s < length sub)%nat -> ~ occurs sub s.
Proof.
  intros Hlen (pre & rest & ->). rewrite !length_app in Hlen. lia.
Qed.

Lemma not_occurs_glue sub c a b :
  c ∉ sub -> ~ occurs sub a -> ~ occurs sub b -> ~ occurs sub (a ++ c :: b).
Proof.
  intros Hc Ha Hb (pre & rest & Heq).
  apply app_eq_inv in Heq as [(k & -> & Heq) | (k & -> & Heq)].
  - symmetry in Heq. apply app_eq_inv in Heq as [(k' & -> & Heq) | (k' & -> & Heq)].
    + apply Ha. exists pre, k'. done.
    + destruct k' as [|c' k'].
      * apply Ha. exists pre, []. by rewrite !app_nil_r.
      * injection Heq as -> _. apply Hc. set_solver.
  - destruct k as [|c' k].
    + destruct sub as [|c' sub].
      * apply Ha. exists a, []. by rewrite app_nil_r.
      * injection Heq as -> _. apply Hc. set_solver.
    + injection Heq as -> ->. apply Hb. by exists k, rest.
Qed.

Lemma is_sep_spec c : is_sep c = true -> c ∉ END_MARKER.
Proof.
  unfold is_sep. intros Hs Hin. apply negb_true_iff in Hs.
  assert (existsb (N.eqb c) END_MARKER = true); [|congruence].
  apply existsb_exists. exists c. split; [by apply list_elem_of_In|apply N.eqb_refl].
Qed.

Lemma clean_short s : (length s < 24)%nat -> clean s.
Proof. intros Hlen. by apply not_occurs_short. Qed.

Lemma clean_find s : find s END_MARKER = -1 -> clean s.
Proof. apply find_none. Qed.

Lemma clean_app_inv_l a b : clean (a ++ b) -> clean a.
Proof. intros Hc Ho. by apply Hc, occurs_app_l. Qed.

Lemma clean_app_inv_r a b : clean (a ++ b) -> clean b.
Proof. intros Hc Ho. by apply Hc, occurs_app_r. Qed.

Lemma clean_app_r a b : clean a -> clean b -> starts_with_sep b = true -> clean (a ++ b).
Proof.
  intros Ha Hb Hs. destruct b as [|c b]; [done|]. simpl in Hs.
  apply not_occurs_glue; [by apply is_sep_spec|done|].
  by apply (clean_app_inv_r [c]).
Qed.

Lemma clean_app_l a b : clean a -> clean b -> ends_with_sep a = true -> clean (a ++ b).
Proof.
  intros Ha Hb Hs. unfold ends_with_sep in Hs.
  destruct (last a) as [c|] eqn:El; [|done].
  apply last_Some in El as [a' ->]. rewrite <- app_assoc. simpl.
  apply not_occurs_glue; [by apply is_sep_spec| |done].
  by apply (clean_app_inv_l _ [c]).
Qed.

(** A guarded text between two clean texts. *)
Lemma clean_app3 a g b : clean a -> guarded g -> clean b -> clean (a ++ g ++ b).
Proof.
  intros Ha (Hg & Hs & He) Hb. apply clean_app_r; [done| |].
  - by apply clean_app_l.
  - destruct g; [done|]. exact Hs.
Qed.

Lemma guarded_sep c : is_sep c = true -> guarded [c].
Proof.
  intros Hc. split; [apply clean_short; simpl; lia|]. split; [exact Hc|].
  unfold ends_with_sep. simpl. exact Hc.
Qed.

Lemma clean_seps l : Forall (fun c => is_sep c = true) l -> clean l.
Proof.
  induction 1 as [|c l Hc Hl IH]; [apply clean_short; simpl; lia|].
  apply (clean_app3 [] [c] l); [apply clean_short; simpl; lia|by apply guarded_sep|done].
Qed.

Lemma clean_seps_app l b :
  Forall (fun c => is_sep c = true) l -> clean b -> clean (l ++ b).
Proof.
  intros Hl Hb. induction Hl as [|c l Hc Hl IH]; [done|].
  apply (clean_app3 [] [c] (l ++ b)); [apply clean_short; simpl; lia|by apply guarded_sep|done].
Qed.

(** Characters outside the marker between two clean texts. *)
Lemma clean_seps_between a l b :
  clean a -> clean b -> clean (a ++ b) ->
  Forall (fun c => is_sep c = true) l -> clean (a ++ l ++ b).
Proof.
  intros Ha Hb Hab Hl. destruct Hl as [|c l Hc Hl]; [done|].
  apply (clean_app3 a [c] (l ++ b)); [done|by apply guarded_sep|].
  by apply clean_seps_app.
Qed.

Lemma clean_join parts : Forall clean parts -> clean (join nl parts).
Proof.
  induction 1 as [|p parts Hp Hparts IH]; [apply clean_short; simpl; lia|].
  destruct parts as [|q parts]; [done|].
  rewrite join_cons_ne by done.
  apply clean_app3; [done|by apply guarded_sep|done].
Qed.

(** ** The block of the main page holds the end marker once *)

(** Literals are not to be decoded while terms are matched. *)
#[local] Opaque lit.

Lemma uint_chars_seps u : Forall (fun c => is_sep c = true) (uint_chars u).
Proof. induction u; simpl; constructor; try done; reflexivity. Qed.

Lemma str_of_int_seps n : 0 <= n -> Forall (fun c => is_sep c = true) (str_of_int n).
Proof.
  intros Hn. unfold str_of_int. destruct n as [|p|p]; [| |lia]; apply uint_chars_seps.
Qed.

Lemma dict_get_In d k v : dict_get d k = inr v -> In (k, v) d.
Proof.
  induction d as [|[k' v'] d IH]; simpl; [done|].
  destruct (Z.eqb_spec k' k) as [->|]; [intros [= ->]; by left|]. intros. right. auto.
Qed.

Lemma month_names_seps :
  forallb (fun kv => forallb is_sep kv.2) CZECH_MONTHS = true.
Proof. vm_compute. reflexivity. Qed.

Lemma month_name_seps m name :
  dict_get CZECH_MONTHS m = inr name -> Forall (fun c => is_sep c = true) name.
Proof.
  intros Hg%dict_get_In.
  pose proof month_names_seps as Hall. rewrite forallb_forall in Hall.
  specialize (Hall _ Hg). simpl in Hall. rewrite forallb_forall in Hall.
  apply Forall_forall. intros c Hc. apply Hall. by apply list_elem_of_In.
Qed.

(** The display date between the [>] and the [<] of its element. *)
Lemma clean_display stm :
  length stm = 10%nat -> clean ([62%N] ++ display_of stm ++ [60%N]).
Proof.
  intros Hlen. unfold display_of.
  destruct (strptime stm) as [e|dt] eqn:Hs;
    [apply clean_short; rewrite !length_app, Hlen; simpl; lia|].
  unfold format_date_czech.
  destruct (dict_get CZECH_MONTHS (month dt)) as [e|name] eqn:Hn;
    [apply clean_short; rewrite !length_app, Hlen; simpl; lia|].
  apply strptime_valid in Hs as (Hy & _ & Hd).
  change (lit ". ") with [46%N; 32%N]. change (lit " ") with [32%N].
  replace ([62%N] ++ (str_of_int (day dt) ++ [46%N; 32%N] ++ name ++ [32%N]
                      ++ str_of_int (year dt)) ++ [60%N])
    with (([62%N] ++ str_of_int (day dt) ++ []) ++ [46%N]
          ++ ([32%N] ++ name ++ ([32%N] ++ str_of_int (year dt) ++ [60%N])))
    by (rewrite app_nil_r, <- !app_assoc; reflexivity).
  assert (clean ([32%N] ++ str_of_int (year dt) ++ [60%N])) as Hyear.
  { apply clean_seps_between; try (apply clean_short; simpl; lia).
    apply str_of_int_seps. lia. }
  apply clean_app3.
  - apply clean_seps_between; try (apply clean_short; simpl; lia).
    apply str_of_int_seps. lia.
  - by apply guarded_sep.
  - apply clean_seps_between; [apply clean_short; simpl; lia|exact Hyear| |].
    + apply (clean_seps_between [32%N; 32%N] (str_of_int (year dt)) [60%N]);
        try (apply clean_short; simpl; lia).
      apply str_of_int_seps. lia.
    + by apply (month_name_seps (month dt)).
Qed.

Lemma main_item_1_split : MAIN_ITEM_1 = removelast MAIN_ITEM_1 ++ [47%N].
Proof. vm_compute. reflexivity. Qed.

Lemma main_item_2_split : MAIN_ITEM_2 = removelast MAIN_ITEM_2 ++ [62%N].
Proof. vm_compute. reflexivity. Qed.

Lemma main_item_3_split : MAIN_ITEM_3 = [60%N] ++ [47%N] ++ drop 2 MAIN_ITEM_3.
Proof. vm_compute. reflexivity. Qed.

Lemma main_item_1_clean : clean (removelast MAIN_ITEM_1).
Proof. apply clean_find. vm_compute. reflexivity. Qed.

Lemma main_item_2_guarded : guarded (lit ".html" ++ removelast MAIN_ITEM_2).
Proof.
  split; [apply clean_find; vm_compute; reflexivity|].
  split; vm_compute; reflexivity.
Qed.

Lemma main_item_3_clean : clean (drop 2 MAIN_ITEM_3).
Proof. apply clean_find. vm_compute. reflexivity. Qed.

(** The entry of a digest of the directory is clean: what the file name and
    the display date contribute is too short, or too far from the marker's
    characters, to complete an occurrence. *)
Lemma clean_main_item name :
  fnmatch name DIGEST_PATTERN = true -> clean (render_main_item (digest_of name)).
Proof.
  intros Hm. destruct (stem_of_match name Hm) as (_ & Hname & Hlen).
  unfold render_main_item, digest_of. cbn [filename date_display].
  remember (stem name) as stm eqn:Hstm. rewrite Hname.
  rewrite main_item_1_split, main_item_2_split, main_item_3_split.
  replace ((removelast MAIN_ITEM_1 ++ [47%N]) ++ (stm ++ lit ".html")
           ++ (removelast MAIN_ITEM_2 ++ [62%N]) ++ display_of stm
           ++ [60%N] ++ [47%N] ++ drop 2 MAIN_ITEM_3)
    with (removelast MAIN_ITEM_1 ++ [47%N]
          ++ (stm ++ (lit ".html" ++ removelast MAIN_ITEM_2)
              ++ (([62%N] ++ display_of stm ++ [60%N]) ++ [47%N] ++ drop 2 MAIN_ITEM_3)))
    by (rewrite <- !app_assoc; reflexivity).
  apply clean_app3; [apply main_item_1_clean|by apply guarded_sep|].
  apply clean_app3; [apply clean_short; lia|apply main_item_2_guarded|].
  apply clean_app3; [by apply clean_display|by apply guarded_sep|apply main_item_3_clean].
Qed.

Lemma new_block_middle digests :
  new_block digests = START_MARKER ++ block_middle digests ++ END_MARKER.
Proof.
  rewrite new_block_spec. unfold block_middle.
  destruct digests; [reflexivity|]. by rewrite <- !app_assoc.
Qed.

Lemma block_1_split : BLOCK_1 = removelast BLOCK_1 ++ [10%N].
Proof. vm_compute. reflexivity. Qed.

Lemma block_2_split : BLOCK_2 = [10%N] ++ drop 1 BLOCK_2.
Proof. vm_compute. reflexivity. Qed.

Lemma block_head_clean : clean (drop 20 START_MARKER ++ removelast BLOCK_1).
Proof. apply clean_find. vm_compute. reflexivity. Qed.

Lemma block_foot_clean : clean (drop 1 BLOCK_2 ++ removelast END_MARKER).
Proof. apply clean_find. vm_compute. reflexivity. Qed.

Lemma block_coming_soon_clean :
  clean (drop 20 START_MARKER ++ BLOCK_COMING_SOON ++ removelast END_MARKER).
Proof. apply clean_find. vm_compute. reflexivity. Qed.

Lemma clean_block_shape (B1 B2 b1 b2 head foot items : pystr) :
  B1 = b1 ++ [10%N] -> B2 = [10%N] ++ b2 ->
  clean (head ++ b1) -> clean (b2 ++ foot) -> clean items ->
  clean (head ++ (B1 ++ items ++ B2) ++ foot).
Proof.
  intros -> -> Hhead Hfoot Hitems.
  replace (head ++ ((b1 ++ [10%N]) ++ items ++ [10%N] ++ b2) ++ foot)
    with ((head ++ b1) ++ [10%N] ++ (items ++ [10%N] ++ (b2 ++ foot)))
    by (rewrite <- !app_assoc; reflexivity).
  apply clean_app3; [done|by apply guarded_sep|].
  apply clean_app3; [done|by apply guarded_sep|done].
Qed.

(** From the [R] of the start marker to the last character but one of the
    end marker, the block of the digests of a directory is clean. *)
Lemma clean_block_tail dir :
  clean (drop 20 START_MARKER ++ block_middle (digests_of dir) ++ removelast END_MARKER).
Proof.
  unfold block_middle. destruct (digests_of dir) as [|d0 ds] eqn:E;
    [apply block_coming_soon_clean|].
  rewrite <- E.
  apply (clean_block_shape BLOCK_1 BLOCK_2 _ _ _ _ _ block_1_split block_2_split
           block_head_clean block_foot_clean).
  apply clean_join, Forall_fmap, Forall_take, Forall_forall.
  intros d (Hd & _ & Hm)%elem_of_digests_of. simpl. rewrite Hd.
  by apply clean_main_item.
Qed.

(** ** Line endings *)

Lemma universal_newlines_cons c s :
  universal_newlines (c :: s) =
  if (c =? 13)%N then
    10%N :: match s with
            | c' :: s' => if (c' =? 10)%N then universal_newlines s'
                          else universal_newlines s
            | [] => universal_newlines s
            end
  else c :: universal_newlines s.
Proof. reflexivity. Qed.

(** The translation goes through a place where no [\r\n] can straddle. *)
Lemma universal_newlines_app a b :
  (forall rest, b <> 10%N :: rest) ->
  universal_newlines (a ++ b) = universal_newlines a ++ universal_newlines b.
Proof.
  intros Hb.
  assert (universal_newlines (a ++ b) = universal_newlines a ++ universal_newlines b
          /\ forall x, universal_newlines (x :: a ++ b)
                       = universal_newlines (x :: a) ++ universal_newlines b)
    as [Hgoal _]; [|exact Hgoal].
  induction a as [|c a [IH1 IH2]].
  - split; [reflexivity|]. intros x. cbn [app].
    rewrite (universal_newlines_cons x b), (universal_newlines_cons x []).
    destruct (x =? 13)%N; [|reflexivity].
    destruct b as [|c' b']; [reflexivity|].
    destruct (N.eqb_spec c' 10) as [->|_]; [by destruct (Hb b')|reflexivity].
  - split; [apply IH2|]. intros x. cbn [app].
    rewrite (universal_newlines_cons x (c :: a ++ b)),
      (universal_newlines_cons x (c :: a)).
    destruct (x =? 13)%N.
    + destruct (c =? 10)%N; cbn [app]; f_equal; [apply IH1|apply IH2].
    + cbn [app]. f_equal. apply IH2.
Qed.

Lemma universal_newlines_id s :
  Forall (fun c => c <> 13%N) s -> universal_newlines s = s.
Proof.
  induction 1 as [|c s Hc _ IH]; [reflexivity|].
  rewrite universal_newlines_cons. destruct (N.eqb_spec c 13) as [Heq|_]; [by destruct Hc|].
  by rewrite IH.
Qed.

(** No [\r] is left in the text read. *)
Lemma universal_newlines_no_cr s : Forall (fun c => c <> 13%N) (universal_newlines s).
Proof.
  assert (Forall (fun c => c <> 13%N) (universal_newlines s)
          /\ forall x, Forall (fun c => c <> 13%N) (universal_newlines (x :: s)))
    as [Hgoal _]; [|exact Hgoal].
  induction s as [|c s [IH1 IH2]].
  - split; [constructor|]. intros x. rewrite universal_newlines_cons.
    destruct (N.eqb_spec x 13); repeat constructor; done.
  - split; [apply IH2|]. intros x. rewrite universal_newlines_cons.
    destruct (N.eqb_spec x 13).
    + constructor; [done|]. destruct (c =? 10)%N; [apply IH1|apply IH2].
    + constructor; [done|apply IH2].
Qed.

Lemma plain_no_cr s : plain s -> Forall (fun c => c <> 13%N) s.
Proof. intros Hs. eapply Forall_impl; [exact Hs|]. by intros c [_ ?]. Qed.

Lemma plain_head s : plain s -> forall rest, s <> 10%N :: rest.
Proof. intros Hs rest ->. by apply Forall_cons in Hs as [[? _] _]. Qed.

Lemma plain_app_head s b : plain s -> s <> [] -> forall rest, s ++ b <> 10%N :: rest.
Proof.
  intros Hs Hne rest Heq. destruct s as [|c s]; [done|].
  injection Heq as -> _. by apply Forall_cons in Hs as [[? _] _].
Qed.

Lemma universal_newlines_plain_app s b :
  plain s -> universal_newlines (s ++ b) = s ++ universal_newlines b.
Proof.
  induction 1 as [|c s [_ Hc] _ IH]; [reflexivity|].
  cbn [app]. rewrite universal_newlines_cons.
  destruct (N.eqb_spec c 13) as [Heq|_]; [by destruct Hc|]. by rewrite IH.
Qed.

Lemma universal_newlines_app_plain a s :
  plain s -> universal_newlines (a ++ s) = universal_newlines a ++ s.
Proof.
  intros Hs. rewrite universal_newlines_app by (by apply plain_head).
  by rewrite (universal_newlines_id s) by (by apply plain_no_cr).
Qed.

(** Around a text without line endings the translation works on each side
    by itself. *)
Lemma universal_newlines_around a s b :
  plain s -> s <> [] ->
  universal_newlines (a ++ s ++ b)
  = universal_newlines a ++ s ++ universal_newlines b.
Proof.
  intros Hs Hne. rewrite universal_newlines_app by (by apply plain_app_head).
  by rewrite universal_newlines_plain_app.
Qed.

Lemma universal_newlines_prefix sub s rest :
  plain sub -> universal_newlines s = sub ++ rest -> exists rest', s = sub ++ rest'.
Proof.
  intros Hsub. revert s. induction Hsub as [|y sub [Hy1 Hy2] _ IH]; intros s Heq.
  - by exists s.
  - destruct s as [|c s]; [discriminate Heq|].
    rewrite universal_newlines_cons in Heq.
    destruct (N.eqb_spec c 13) as [->|_].
    + injection Heq as Heq _. by destruct Hy1.
    + injection Heq as -> Heq. destruct (IH s Heq) as [rest' ->]. by exists rest'.
Qed.

Lemma occurs_cons sub c s : occurs sub s -> occurs sub (c :: s).
Proof. intros (pre & rest & ->). by exists (c :: pre), rest. Qed.

Lemma occurs_cons_inv sub c s :
  occurs sub (c :: s) -> (exists rest, c :: s = sub ++ rest) \/ occurs sub s.
Proof.
  intros ([|p pre] & rest & Heq).
  - left. by exists rest.
  - right. injection Heq as _ ->. by exists pre, rest.
Qed.

(** A text without line endings that occurs in the text read occurs in the
    text stored. *)
Lemma occurs_universal_newlines sub s :
  plain sub -> occurs sub (universal_newlines s) -> occurs sub s.
Proof.
  intros Hsub.
  assert ((occurs sub (universal_newlines s) -> occurs sub s)
          /\ forall x, occurs sub (universal_newlines (x :: s)) -> occurs sub (x :: s))
    as [Hgoal _]; [|exact Hgoal].
  assert (forall t, (exists rest, universal_newlines t = sub ++ rest) -> occurs sub t)
    as Hprefix.
  { intros t [rest Heq]. destruct (universal_newlines_prefix _ _ _ Hsub Heq) as [rest' ->].
    by exists [], rest'. }
  assert (forall t, (exists rest, 10%N :: t = sub ++ rest) -> sub = []) as Hnl.
  { intros t [rest Heq]. destruct sub as [|y sub]; [done|].
    injection Heq as <- _. by apply Forall_cons in Hsub as [[? _] _]. }
  assert (sub = [] -> forall t, occurs sub t) as Hnil.
  { intros -> t. by exists [], t. }
  induction s as [|c s [IH1 IH2]].
  - split; [intros Ho; exact Ho|]. intros x Ho.
    rewrite universal_newlines_cons in Ho. cbn [universal_newlines] in Ho.
    destruct (N.eqb_spec x 13) as [Hx|Hx]; [subst x|exact Ho].
    apply occurs_cons_inv in Ho as [Ho|Ho]; [by eapply Hnil, Hnl|].
    apply occurs_cons. exact Ho.
  - split; [apply IH2|]. intros x Ho.
    rewrite universal_newlines_cons in Ho.
    destruct (N.eqb_spec x 13) as [Hx|Hx]; [subst x|].
    + apply occurs_cons_inv in Ho as [Ho|Ho]; [by eapply Hnil, Hnl|].
      apply occurs_cons. destruct (c =? 10)%N.
      * by apply occurs_cons, IH1.
      * by apply IH2.
    + apply occurs_cons_inv in Ho as [[rest Ho]|Ho].
      * apply Hprefix. exists rest. rewrite universal_newlines_cons.
        destruct (N.eqb_spec x 13); [done|exact Ho].
      * by apply occurs_cons, IH2.
Qed.

Lemma plain_removelast s : plain s -> plain (removelast s).
Proof.
  intros Hs. destruct s as [|c s]; [done|].
  rewrite (app_removelast_last 0%N (l := c :: s)) in Hs by done.
  by apply Forall_app in Hs as [? _].
Qed.

(** The first occurrence of a marker without line endings in the text
    stored is its first occurrence in the text read. *)
Lemma find_universal_newlines s marker pre rest :
  plain marker -> marker <> [] ->
  s = pre ++ marker ++ rest ->
  (forall pre' rest', s = pre' ++ marker ++ rest' -> (length pre <= length pre')%nat) ->
  universal_newlines s = universal_newlines pre ++ marker ++ universal_newlines rest
  /\ find (universal_newlines s) marker = Z.of_nat (length (universal_newlines pre))
  /\ slice_to (universal_newlines s) (find (universal_newlines s) marker)
     = universal_newlines pre
  /\ slice_from (universal_newlines s)
       (find (universal_newlines s) marker + Z.of_nat (length marker))
     = universal_newlines rest.
Proof.
  intros Hm Hne Hs Hmin.
  assert (universal_newlines s
          = universal_newlines pre ++ marker ++ universal_newlines rest) as Heq.
  { rewrite Hs. by apply universal_newlines_around. }
  assert (find (universal_newlines s) marker
          = Z.of_nat (length (universal_newlines pre))) as Hfind.
  { apply (find_first _ _ _ (universal_newlines rest) Heq).
    intros pre' rest' Heq'.
    destruct (decide (length (universal_newlines pre) <= length pre')%nat) as [|Hn];
      [assumption|exfalso].
    pose proof (app_removelast_last 0%N Hne) as Hlast.
    set (m0 := removelast marker) in *. set (l := List.last marker 0%N) in *.
    assert (length marker = S (length m0)) as Hlen.
    { rewrite Hlast at 1. rewrite length_app. cbn [length]. lia. }
    rewrite Heq in Heq'.
    assert (universal_newlines pre ++ marker ++ universal_newlines rest
            = (universal_newlines pre ++ m0) ++ ([l] ++ universal_newlines rest)) as Hsplit.
    { rewrite Hlast at 1. by rewrite <- !app_assoc. }
    rewrite Hsplit in Heq'.
    apply occurs_in_prefix in Heq' as [k Hk]; [|rewrite length_app; lia].
    rewrite <- (universal_newlines_app_plain pre m0) in Hk
      by (by apply plain_removelast).
    destruct (occurs_universal_newlines marker (pre ++ m0) Hm) as (p2 & r2 & Hocc);
      [by exists pre', k|].
    assert (length pre <= length p2)%nat as Hle.
    { apply (Hmin p2 (r2 ++ [l] ++ rest)). rewrite Hs.
      rewrite Hlast at 1. rewrite <- !app_assoc. rewrite (app_assoc pre m0), Hocc.
      by rewrite <- !app_assoc. }
    apply (f_equal length) in Hocc. rewrite !length_app in Hocc. lia. }
  split; [exact Heq|]. split; [exact Hfind|]. split.
  - rewrite Hfind, slice_to_take. rewrite Heq at 1. apply take_app_length.
  - rewrite Hfind, <- Nat2Z.inj_add, slice_from_drop. rewrite Heq at 1.
    rewrite app_assoc, <- length_app. apply drop_app_length.
Qed.

(** A marker that the text stored lacks, the text read lacks. *)
Lemma find_universal_newlines_none s marker :
  plain marker -> find s marker = -1 -> find (universal_newlines s) marker = -1.
Proof.
  intros Hm Hf.
  destruct (find_cases (universal_newlines s) marker)
    as [[Hx _] | (pre & rest & _ & Heq & _)]; [exact Hx|].
  exfalso. apply (find_none _ _ Hf). apply occurs_universal_newlines; [exact Hm|].
  by exists pre, rest.
Qed.

Lemma plain_START_MARKER : plain START_MARKER.
Proof. unfold plain. repeat (constructor; [split; discriminate|]). constructor. Qed.

Lemma plain_END_MARKER : plain END_MARKER.
Proof. unfold plain. repeat (constructor; [split; discriminate|]). constructor. Qed.


(** Patching a well-marked page a second time, for the same directory,
    changes nothing: the second call reads the page the first wrote, finds
    the block where the first put it, and writes the same page. *)
Lemma patch_page_twice dir content new_content :
  Forall (fun c => c <> 13%N) content ->
  find content START_MARKER <> -1 ->
  find content START_MARKER < find content END_MARKER ->
  patch_page content (digests_of dir) = Some new_content ->
  patch_page (universal_newlines new_content) (digests_of dir) = Some new_content.
Proof.
  intros Hcr Hs Hlt Hp.
  destruct (find_cases content START_MARKER)
    as [[Hx _] | (pre & after_start & Hf1 & Hc1 & Hmin1 & Hto & _)]; [destruct (Hs Hx)|].
  destruct (find_cases content END_MARKER)
    as [[Hx _] | (inside & post & Hf2 & Hc2 & Hmin2 & _ & Hfrom)]; [lia|].
  assert (length pre < length inside)%nat as Hlen by lia.
  assert (universal_newlines pre = pre) as Hpre.
  { apply universal_newlines_id. rewrite Hc1 in Hcr. by apply Forall_app in Hcr as [? _]. }
  assert (universal_newlines post = post) as Hpost.
  { apply universal_newlines_id. rewrite Hc2 in Hcr.
    apply Forall_app in Hcr as [_ Hcr]. by apply Forall_app in Hcr as [_ ?]. }
  unfold patch_page in Hp. rewrite Hto, Hfrom in Hp.
  destruct ((find content START_MARKER =? -1) || (find content END_MARKER =? -1));
    [discriminate Hp|]. injection Hp as <-.
  rewrite new_block_middle. set (mid := block_middle (digests_of dir)).
  set (tail := universal_newlines (mid ++ END_MARKER ++ post)).
  assert (universal_newlines (pre ++ (START_MARKER ++ mid ++ END_MARKER) ++ post)
          = pre ++ START_MARKER ++ tail) as Hread1.
  { rewrite <- !app_assoc.
    rewrite (universal_newlines_around pre START_MARKER) by
      first [apply plain_START_MARKER | discriminate].
    by rewrite Hpre. }
  assert (universal_newlines (pre ++ (START_MARKER ++ mid ++ END_MARKER) ++ post)
          = universal_newlines (pre ++ START_MARKER ++ mid) ++ END_MARKER ++ post)
    as Hread2.
  { replace (pre ++ (START_MARKER ++ mid ++ END_MARKER) ++ post)
      with ((pre ++ START_MARKER ++ mid) ++ END_MARKER ++ post)
      by (rewrite <- !app_assoc; reflexivity).
    rewrite (universal_newlines_around _ END_MARKER) by
      first [apply plain_END_MARKER | discriminate].
    by rewrite Hpost. }
  set (page := universal_newlines (pre ++ (START_MARKER ++ mid ++ END_MARKER) ++ post))
    in *.
  (* the first start marker of the page read *)
  assert (find page START_MARKER = Z.of_nat (length pre)) as Hfind1.
  { apply (find_first _ _ pre tail Hread1).
    intros pre' rest' Heq.
    destruct (decide (length pre <= length pre')%nat) as [|Hn]; [done|exfalso].
    rewrite Hread1 in Heq.
    replace (pre ++ START_MARKER ++ tail) with ((pre ++ START_MARKER) ++ tail) in Heq
      by (rewrite <- !app_assoc; reflexivity).
    apply occurs_in_prefix in Heq as [k Hk]; [|rewrite length_app; lia].
    assert (length pre <= length pre')%nat; [|lia].
    apply (Hmin1 pre' (k ++ after_start)).
    rewrite Hc1 at 1. rewrite app_assoc, Hk. by rewrite <- !app_assoc. }
  (* the first end marker of the page read *)
  assert (clean (pre ++ START_MARKER ++ mid ++ removelast END_MARKER)) as Hclean.
  { replace (pre ++ START_MARKER ++ mid ++ removelast END_MARKER)
      with ((pre ++ take 19 START_MARKER) ++ [65%N]
            ++ (drop 20 START_MARKER ++ mid ++ removelast END_MARKER))
      by (rewrite <- !app_assoc; reflexivity).
    apply clean_app3; [|by apply guarded_sep|apply clean_block_tail].
    intros (p & r & Heq).
    assert (length inside <= length p)%nat as Hle.
    { apply (Hmin2 p (r ++ [65%N] ++ drop 20 START_MARKER ++ after_start)).
      rewrite Hc1 at 1.
      replace (pre ++ START_MARKER ++ after_start)
        with ((pre ++ take 19 START_MARKER)
              ++ [65%N] ++ drop 20 START_MARKER ++ after_start)
        by (rewrite <- !app_assoc; reflexivity).
      rewrite Heq. by rewrite <- !app_assoc. }
    apply (f_equal length) in Heq. rewrite !length_app in Heq.
    change (length (take 19 START_MARKER)) with 19%nat in Heq.
    change (length END_MARKER) with 24%nat in Heq. lia. }
  assert (find page END_MARKER
          = Z.of_nat (length (universal_newlines (pre ++ START_MARKER ++ mid)))) as Hfind2.
  { apply (find_first _ _ _ post Hread2).
    intros pre' rest' Heq.
    destruct (decide (length (universal_newlines (pre ++ START_MARKER ++ mid))
                      <= length pre')%nat) as [|Hn]; [done|exfalso].
    rewrite Hread2 in Heq.
    replace (universal_newlines (pre ++ START_MARKER ++ mid) ++ END_MARKER ++ post)
      with ((universal_newlines (pre ++ START_MARKER ++ mid) ++ removelast END_MARKER)
            ++ ([62%N] ++ post)) in Heq by (rewrite <- !app_assoc; reflexivity).
    apply occurs_in_prefix in Heq as [k Hk].
    - rewrite <- (universal_newlines_app_plain _ (removelast END_MARKER)) in Hk
        by apply plain_removelast, plain_END_MARKER.
      apply Hclean. rewrite <- !app_assoc in Hk.
      apply (occurs_universal_newlines _ _ plain_END_MARKER). by exists pre', k.
    - rewrite !length_app in *.
      change (length (removelast END_MARKER)) with 23%nat.
      change (length END_MARKER) with 24%nat. lia. }
  unfold patch_page. rewrite Hfind1, Hfind2.
  destruct (Z.eqb_spec (Z.of_nat (length pre)) (-1)); [lia|].
  destruct (Z.eqb_spec
              (Z.of_nat (length (universal_newlines (pre ++ START_MARKER ++ mid)))) (-1));
    [lia|].
  cbn [orb]. f_equal. rewrite new_block_middle. fold mid.
  assert (take (length pre) page = pre) as Htake
    by (rewrite Hread1; apply take_app_length).
  assert (drop (length (universal_newlines (pre ++ START_MARKER ++ mid))
                + length END_MARKER) page = post) as Hdrop.
  { rewrite Hread2.
    rewrite (app_assoc (universal_newlines (pre ++ START_MARKER ++ mid)) END_MARKER post).
    rewrite <- length_app. apply drop_app_length. }
  rewrite slice_to_take, <- Nat2Z.inj_add, slice_from_drop.
  by rewrite Htake, Hdrop.
Qed.

(** ** The publisher run twice *)

(** C6, amended.  When the main page is well marked (it is absent, or lacks
    a marker, or has its first start marker before its first end marker),
    running the three steps of the publisher a second time with the same
    date and content leaves every file as the first run left it: the dated
    page, the archive index and the whole main page.  After a run the index
    page is the one built from the directory, and the dated page is the one
    built from the content. *)
Theorem C6_publisher_idempotent (date_str date_display content_html : pystr)
    (st : State) :
  well_marked (main_index st) ->
  let once := (publish date_str date_display content_html st).2 in
  let twice := (publish date_str date_display content_html once).2 in
  (publish date_str date_display content_html st).1 = inr tt
  /\ (publish date_str date_display content_html once).1 = inr tt
  /\ digest_dir twice = digest_dir once
  /\ main_index twice = main_index once
  /\ digest_dir once !! lit "index.html" =
     Some (index_page (digests_of (<[date_str ++ lit ".html" :=
                                       digest_page date_display content_html]>
                                     (digest_dir st))))
  /\ (date_str ++ lit ".html" <> lit "index.html" ->
      digest_dir once !! (date_str ++ lit ".html") =
      Some (digest_page date_display content_html)).
Proof.
  intros Hwm once twice. subst twice once.
  destruct (publish_spec date_str date_display content_html st)
    as (st1 & Hp1 & Hd1 & Hm1).
  rewrite Hp1. cbn [fst snd].
  destruct (publish_spec date_str date_display content_html st1)
    as (st2 & Hp2 & Hd2 & Hm2).
  rewrite Hp2. cbn [fst snd].
  set (page := digest_page date_display content_html) in *.
  set (p := date_str ++ lit ".html") in *.
  set (P0 := <[p := page]> (digest_dir st)) in *.
  assert (digests_of (<[p := page]> (digest_dir st1)) = digests_of P0) as Hsame.
  { apply digests_of_ext. intros name Hm. rewrite Hd1.
    assert (name <> lit "index.html") as Hne.
    { intros ->. pose proof index_not_matching as Hi. congruence. }
    unfold P0. destruct (decide (name = p)) as [->|Hnp].
    - rewrite !lookup_insert_eq. done.
    - rewrite (lookup_insert_ne _ p name) by done.
      rewrite (lookup_insert_ne _ (lit "index.html") name) by done.
      rewrite (lookup_insert_ne _ p name) by done. done. }
  rewrite Hsame in Hd2, Hm2.
  split; [reflexivity|]. split; [reflexivity|]. split; [|split; [|split]].
  - rewrite Hd2, Hd1. apply map_eq. intros i.
    destruct (decide (i = lit "index.html")) as [->|Hi].
    + by rewrite !lookup_insert_eq.
    + rewrite (lookup_insert_ne _ (lit "index.html") i) by done.
      destruct (decide (i = p)) as [->|Hip].
      * rewrite lookup_insert_eq.
        rewrite (lookup_insert_ne _ (lit "index.html") p) by done.
        unfold P0. by rewrite lookup_insert_eq.
      * rewrite (lookup_insert_ne _ p i) by done. reflexivity.
  - rewrite Hm2, Hm1.
    destruct (main_index st) as [stored|] eqn:Hc; [|reflexivity].
    cbn [well_marked fmap option_fmap option_map] in Hwm.
    unfold patched_main_index.
    set (content := universal_newlines stored) in *.
    destruct (patch_page content (digests_of P0)) as [new_content|] eqn:Hpatch.
    + assert (find content START_MARKER <> -1 /\ find content END_MARKER <> -1)
        as [Hs He].
      { unfold patch_page in Hpatch.
        destruct (Z.eqb_spec (find content START_MARKER) (-1)); [discriminate Hpatch|].
        destruct (Z.eqb_spec (find content END_MARKER) (-1)); [discriminate Hpatch|].
        split; assumption. }
      assert (find content START_MARKER < find content END_MARKER) as Hlt.
      { destruct Hwm as [Hw | [Hw | Hw]]; [destruct (Hs Hw)|destruct (He Hw)|exact Hw]. }
      unfold P0 in *.
      rewrite (patch_page_twice _ content new_content
                 (universal_newlines_no_cr stored) Hs Hlt Hpatch).
      reflexivity.
    + fold content. rewrite Hpatch. reflexivity.
  - rewrite Hd1. apply lookup_insert_eq.
  - intros Hne. rewrite Hd1. rewrite lookup_insert_ne by done.
    unfold P0. apply lookup_insert_eq.
Qed.

End Proofs.

(** * Further properties of the script *)

Section More.
Context `{Library}.

#[local] Opaque lit.

(** ** Dates *)

Lemma civil_fields doe :
  0 <= doe < 146097 ->
  let yoe := (doe - doe / 1460 + doe / 36524 - doe / 146096) / 365 in
  let doy := doe - (365 * yoe + yoe / 4 - yoe / 100) in
  let mp := (5 * doy + 2) / 153 in
  let d := doy - (153 * mp + 2) / 5 + 1 in
  0 <= yoe <= 399 /\ 0 <= doy <= 365 /\ 0 <= mp <= 11 /\ 1 <= d <= 31
  /\ (mp = 11 -> d <= 29)
  /\ (mp = 1 \/ mp = 3 \/ mp = 6 \/ mp = 8 -> d <= 30)
  /\ (doy = 365 -> (yoe + 1) mod 4 = 0 /\ ((yoe + 1) mod 100 <> 0 \/ yoe = 399))
  /\ (mp = 11 -> d = 29 -> doy = 365)
  /\ (mp < 10 -> 306 <= doe -> 1 <= yoe)
  /\ (10 <= mp -> doe <= 146036 -> yoe <= 398).
Proof.
  intros Hd yoe doy mp d. subst d mp doy yoe.
  repeat split; Z.div_mod_to_equations; lia.
Qed.

(** The date of an instant of the years 1 to 9999 is a valid date. *)
Lemma date_of_valid dt : in_datetime_range dt -> valid_date (date_of dt).
Proof.
  intros Hr. unfold valid_date, date_of, civil_from_days, month_of_doe.
  cbn [year month day].
  assert (306 <= dt / usec_per_day + 719468 <= 3652364) as Hz.
  { unfold in_datetime_range, usec_per_day in *. Z.div_mod_to_equations. lia. }
  set (z := dt / usec_per_day + 719468) in *.
  assert (0 <= z / 146097 <= 24) as Hera by (Z.div_mod_to_equations; lia).
  assert (0 <= z mod 146097 < 146097) as Hdoe by (apply Z.mod_pos_bound; lia).
  assert (z / 146097 = 0 -> 306 <= z mod 146097) as Hlo
    by (Z.div_mod_to_equations; lia).
  assert (z / 146097 = 24 -> z mod 146097 <= 146036) as Hhi
    by (Z.div_mod_to_equations; lia).
  set (era := z / 146097) in *. set (doe := z mod 146097) in *.
  destruct (civil_fields doe Hdoe)
    as (Hyoe & Hdoy & Hmp & Hd & Hfeb & H30 & Hleap & H29 & Hy1 & Hy9999).
  cbv zeta in Hyoe, Hdoy, Hmp, Hd, Hfeb, H30, Hleap, H29, Hy1, Hy9999.
  set (yoe := (doe - doe / 1460 + doe / 36524 - doe / 146096) / 365) in *.
  set (doy := doe - (365 * yoe + yoe / 4 - yoe / 100)) in *.
  set (mp := (5 * doy + 2) / 153) in *.
  set (d := doy - (153 * mp + 2) / 5 + 1) in *.
  clearbody d mp doy yoe doe era. clear Hz z Hr.
  unfold days_in_month, is_leap.
  destruct (Z.ltb_spec mp 10).
  - destruct (Z.leb_spec (mp + 3) 2); [lia|].
    destruct (Z.eqb_spec (mp + 3) 2); [lia|].
    split; [lia|]. split; [lia|]. split; [lia|].
    clear Hleap H29 Hy1 Hy9999 Hlo Hhi Hera Hdoe Hyoe Hdoy Hfeb.
    destruct (Z.eqb_spec (mp + 3) 4); [cbn [orb]; lia|].
    destruct (Z.eqb_spec (mp + 3) 6); [cbn [orb]; lia|].
    destruct (Z.eqb_spec (mp + 3) 9); [cbn [orb]; lia|].
    destruct (Z.eqb_spec (mp + 3) 11); cbn [orb]; lia.
  - destruct (Z.leb_spec (mp - 9) 2); [|lia].
    destruct (Z.eqb_spec (mp - 9) 2) as [Hm|Hm].
    + assert (mp = 11) as Hmp11 by lia.
      split; [lia|]. split; [lia|]. split; [lia|].
      destruct (Z.eq_dec d 29) as [Hd29|Hd29].
      * destruct (Hleap (H29 Hmp11 Hd29)) as [H4 H100].
        assert ((yoe + era * 400 + 1) mod 4 = 0) as ->
          by (Z.div_mod_to_equations; lia).
        cbn [Z.eqb andb].
        destruct (Z.eqb_spec ((yoe + era * 400 + 1) mod 100) 0) as [E100|E100];
          cbn [negb orb]; [|lia].
        assert ((yoe + era * 400 + 1) mod 400 = 0) as ->; [|cbn; lia].
        destruct H100 as [H100|H100]; [|subst yoe; Z.div_mod_to_equations; lia].
        exfalso. apply H100. Z.div_mod_to_equations. lia.
      * specialize (Hfeb Hmp11).
        destruct (_ && _); lia.
    + split; [lia|]. split; [lia|]. split; [lia|].
      clear Hleap H29 Hy1 Hy9999 Hlo Hhi Hera Hdoe Hyoe Hdoy Hfeb.
      destruct (Z.eqb_spec (mp - 9) 4); [lia|].
      destruct (Z.eqb_spec (mp - 9) 6); [lia|].
      destruct (Z.eqb_spec (mp - 9) 9); [lia|].
      destruct (Z.eqb_spec (mp - 9) 11); [lia|]. cbn [orb]. lia.
Qed.

Lemma check_date_of_valid d : valid_date d -> check_date (year d) (month d) (day d) = inr d.
Proof.
  intros (Hy & Hm & Hd). unfold check_date.
  destruct (Z.leb_spec 1 (year d)); [|lia].
  destruct (Z.leb_spec (year d) 9999); [|lia].
  destruct (Z.leb_spec 1 (month d)); [|lia].
  destruct (Z.leb_spec (month d) 12); [|lia].
  destruct (Z.leb_spec 1 (day d)); [|lia].
  destruct (Z.leb_spec (day d) (days_in_month (year d) (month d))); [|lia].
  cbn [andb negb]. by destruct d.
Qed.

Lemma days_in_month_le y m : days_in_month y m <= 31.
Proof.
  unfold days_in_month. destruct (m =? 2); [destruct (is_leap y); lia|].
  destruct (_ || _); lia.
Qed.

Lemma decimal_digit_char n : ascii_decimals -> decimal (digit_char n) = Some (n mod 10).
Proof.
  intros Hdec. unfold digit_char. apply Hdec.
  pose proof (Z.mod_pos_bound n 10). lia.
Qed.

Lemma parse_month_pad2 m rest :
  1 <= m <= 12 -> parse_month (pad2 m ++ rest) = Some (m, rest).
Proof.
  intros Hm.
  assert (m = 1 \/ m = 2 \/ m = 3 \/ m = 4 \/ m = 5 \/ m = 6 \/ m = 7 \/ m = 8
          \/ m = 9 \/ m = 10 \/ m = 11 \/ m = 12) as Hc by lia.
  repeat (destruct Hc as [-> | Hc]; [reflexivity|]). subst. reflexivity.
Qed.

Lemma parse_day_pad2 d rest :
  ascii_decimals -> 1 <= d <= 31 -> parse_day (pad2 d ++ rest) = Some (d, rest).
Proof.
  intros Hdec Hd.
  assert (d = 1 \/ d = 2 \/ d = 3 \/ d = 4 \/ d = 5 \/ d = 6 \/ d = 7 \/ d = 8
          \/ d = 9 \/ d = 10 \/ d = 11 \/ d = 12 \/ d = 13 \/ d = 14 \/ d = 15
          \/ d = 16 \/ d = 17 \/ d = 18 \/ d = 19 \/ d = 20 \/ d = 21 \/ d = 22
          \/ d = 23 \/ d = 24 \/ d = 25 \/ d = 26 \/ d = 27 \/ d = 28 \/ d = 29
          \/ d = 30 \/ d = 31) as Hc by lia.
  repeat (destruct Hc as [-> | Hc];
          [unfold pad2, parse_day; cbn [app];
           rewrite ?(decimal_digit_char _ Hdec); reflexivity|]).
  subst. reflexivity.
Qed.

(** On the printed form of a date, [strptime] reads the fields back and
    hands them to the checks of the date constructor. *)
Lemma strptime_iso_date d :
  ascii_decimals -> 1000 <= year d <= 9999 -> 1 <= month d <= 12 -> 1 <= day d <= 31 ->
  strptime (iso_date d) = check_date (year d) (month d) (day d).
Proof.
  intros Hdec Hy Hm Hd. rewrite iso_date_pad4 by exact Hy.
  unfold pad4. cbn [app]. unfold strptime.
  rewrite !decimal_digit_char by exact Hdec.
  change (45 =? 45)%N with true. cbv beta iota.
  rewrite parse_month_pad2 by exact Hm.
  change (45 =? 45)%N with true. cbv beta iota.
  rewrite <- (app_nil_r (pad2 (day d))), parse_day_pad2 by assumption.
  f_equal. Z.div_mod_to_equations. lia.
Qed.

(** The year of an instant from a week before the epoch on. *)
Lemma year_from_1600 dt : -7 * usec_per_day <= dt -> 1600 <= year (date_of dt).
Proof.
  intros Hdt. unfold date_of, civil_from_days. cbn [year].
  set (z := dt / usec_per_day + 719468).
  assert (719461 <= z)
    by (unfold z, usec_per_day in *; Z.div_mod_to_equations; lia).
  assert (4 <= z / 146097) by (Z.div_mod_to_equations; lia).
  assert (0 <= z mod 146097 < 146097) as Hdoe by (apply Z.mod_pos_bound; lia).
  destruct (civil_fields _ Hdoe) as (Hyoe & _). cbv zeta in Hyoe.
  destruct (_ <=? 2); lia.
Qed.

Lemma real_clock_in_range t : real_clock t -> in_datetime_range t.
Proof.
  intros Hr%real_clock_range. unfold in_datetime_range, DATETIME_MAX in *. lia.
Qed.

(** The date of the clock: a valid date, printed with ten characters. *)
Lemma real_clock_date t :
  real_clock t -> valid_date (date_of t) /\ 1000 <= year (date_of t) <= 9999.
Proof.
  intros Hr. pose proof (date_of_valid t (real_clock_in_range t Hr)) as Hv.
  split; [exact Hv|]. destruct Hv as (Hy & _).
  pose proof (year_from_1600 t) as Hlo. apply real_clock_range in Hr.
  unfold usec_per_day in Hlo. lia.
Qed.

Lemma iso_date_length d : 1000 <= year d <= 9999 -> length (iso_date d) = 10%nat.
Proof. intros Hy. by rewrite iso_date_pad4. Qed.

Lemma strptime_strftime dt :
  ascii_decimals -> in_datetime_range dt -> 1000 <= year (date_of dt) ->
  strptime (strftime_ymd dt) = inr (date_of dt).
Proof.
  intros Hdec Hr Hy1000. pose proof (date_of_valid dt Hr) as Hv.
  pose proof Hv as (Hy & Hm & Hd).
  pose proof (days_in_month_le (year (date_of dt)) (month (date_of dt))).
  unfold strftime_ymd. rewrite strptime_iso_date; [|exact Hdec|lia..].
  apply check_date_of_valid. exact Hv.
Qed.

Lemma iso_date_matches d :
  1000 <= year d <= 9999 -> fnmatch (iso_date d ++ lit ".html") DIGEST_PATTERN = true.
Proof.
  intros Hy. rewrite iso_date_pad4 by exact Hy.
  apply fnmatch_pattern_shape. by eexists _, _, _, _, _, _, _, _.
Qed.

Lemma stem_iso_date d :
  1000 <= year d <= 9999 -> stem (iso_date d ++ lit ".html") = iso_date d.
Proof.
  intros Hy. destruct (stem_of_match _ (iso_date_matches d Hy)) as (_ & Heq & _).
  symmetry. by apply app_inv_tail in Heq.
Qed.

Lemma parse_entry_date_range e dt : parse_entry_date e = Some dt -> in_datetime_range dt.
Proof.
  assert (forall p d, to_datetime p = inr d -> in_datetime_range d) as Hto.
  { intros p d. unfold to_datetime, fromtimestamp.
    destruct (mktime p) as [err|t]; [discriminate|].
    destruct (Z.leb_spec (-62135596800) t); [|discriminate].
    destruct (Z.leb_spec t 253402300799); [|discriminate].
    cbn [andb]. intros [= <-]. unfold in_datetime_range. lia. }
  rewrite parse_entry_date_first.
  destruct (published_parsed e) as [p|].
  - destruct (to_datetime p) as [err|d] eqn:E1.
    + destruct (updated_parsed e) as [u|]; [|discriminate].
      destruct (to_datetime u) as [err'|d] eqn:E2; [discriminate|].
      intros [= <-]. by apply (Hto u).
    + intros [= <-]. by apply (Hto p).
  - destruct (updated_parsed e) as [u|]; [|discriminate].
    destruct (to_datetime u) as [err'|d] eqn:E2; [discriminate|].
    intros [= <-]. by apply (Hto u).
Qed.



(** ** The feed collector *)


Lemma lstrip_head s c rest : lstrip s = c :: rest -> isspace c = false.
Proof.
  induction s as [|a s IH]; [done|]. simpl.
  destruct (isspace a) eqn:E; [exact IH|]. by intros [= <- _].
Qed.

Lemma lstrip_snoc s c :
  isspace c = false -> exists l, lstrip (s ++ [c]) = l ++ [c].
Proof.
  intros Hc. induction s as [|a s [l IH]]; simpl.
  - rewrite Hc. by exists [].
  - destruct (isspace a); [by exists l|]. by exists (a :: s).
Qed.

Lemma strip_trimmed s : trimmed (strip s).
Proof.
  unfold strip, rstrip. split.
  - intros c rest Heq.
    destruct (lstrip s) as [|a l] eqn:El; [done|].
    pose proof (lstrip_head _ _ _ El) as Ha.
    change (a :: l) with ([a] ++ l) in Heq. rewrite rev_app_distr in Heq.
    destruct (lstrip_snoc (rev l) a Ha) as [l' Hl']. cbn [rev app] in Heq.
    rewrite Hl', rev_app_distr in Heq. by injection Heq as <- _.
  - intros c init Heq.
    apply (f_equal (@rev N)) in Heq. rewrite rev_involutive, rev_app_distr in Heq.
    by apply lstrip_head in Heq.
Qed.

Lemma strip_of_trimmed s : trimmed s -> strip s = s.
Proof.
  intros [Hhead Hlast]. unfold strip, rstrip.
  assert (forall x, (forall c rest, x = c :: rest -> isspace c = false) -> lstrip x = x)
    as Hl.
  { intros [|c x] Hx; [done|]. simpl. by rewrite (Hx c x). }
  rewrite (Hl s Hhead). rewrite Hl; [apply rev_involutive|].
  intros c rest Heq. apply (Hlast c (rev rest)).
  rewrite <- (rev_involutive s), Heq. reflexivity.
Qed.


(** ** The insight fetcher *)

(** X3.  With a credential, a response whose status is no client or server
    error and whose JSON holds [choices[0].message.content], the fetcher
    returns that content as it is and logs one entry, [Perplexity OK]. *)
Theorem X3_insight_success (w : World) (st : State) (resp : Response)
    (body content : json) :
  PERPLEXITY_API_KEY w <> [] ->
  requests_post w = inr resp ->
  ~ (400 <= status_code resp < 600) ->
  json_body resp = inr body ->
  choices_content body = inr content ->
  fetch_perplexity_insights w st =
  (inr content, with_log st [(INFO, lit "Perplexity OK")]).
Proof.
  intros Hkey Hpost Hstatus Hbody Hcontent. unfold fetch_perplexity_insights.
  destruct (PERPLEXITY_API_KEY w) as [|c key]; [done|]. cbn [truthy negb].
  unfold try_except, perplexity_request, bind, lift. rewrite Hpost. cbn [ret].
  assert (raise_for_status resp = inr tt) as ->.
  { unfold raise_for_status.
    destruct (Z.leb_spec 400 (status_code resp)), (Z.ltb_spec (status_code resp) 500),
      (Z.leb_spec 500 (status_code resp)), (Z.ltb_spec (status_code resp) 600);
      cbn [andb]; try reflexivity; lia. }
  unfold ret. rewrite Hbody, Hcontent. reflexivity.
Qed.

(** X4.  [body["choices"][0]["message"]["content"]] yields a value exactly
    when the body is an object whose [choices] is a list that starts with an
    object whose [message] is an object with a key [content]; the value is
    the one stored under that key.  Every other body raises. *)
Theorem X4_choices_content_shape (body content : json) :
  choices_content body = inr content <->
  exists items rest choice message,
    body = JObj items
    /\ obj_get items (lit "choices") = Some (JArr (JObj choice :: rest))
    /\ obj_get choice (lit "message") = Some (JObj message)
    /\ obj_get message (lit "content") = Some content.
Proof.
  split.
  - unfold choices_content. intros Hc.
    destruct body as [| | | | |?|items]; try discriminate Hc.
    cbn [getitem] in Hc.
    destruct (obj_get items (lit "choices")) as [choices|] eqn:E1; [|discriminate Hc].
    destruct choices as [| | | |s|cs|?]; try discriminate Hc.
    + cbn [getitem] in Hc. destruct (seq_index (length s) 0); [|discriminate Hc].
      destruct (s !! n); discriminate Hc.
    + destruct cs as [|choice rest]; [discriminate Hc|].
      change (getitem (JArr (choice :: rest)) (SInt 0)) with (@inr error _ choice) in Hc.
      cbv beta iota in Hc.
      destruct choice as [| | | | |?|ci]; try discriminate Hc.
      cbn [getitem] in Hc.
      destruct (obj_get ci (lit "message")) as [message|] eqn:E2; [|discriminate Hc].
      destruct message as [| | | | |?|mi]; try discriminate Hc.
      cbn [getitem] in Hc.
      destruct (obj_get mi (lit "content")) as [c|] eqn:E3; [|discriminate Hc].
      injection Hc as <-. by exists items, rest, ci, mi.
  - intros (items & rest & choice & message & -> & E1 & E2 & E3).
    unfold choices_content. cbn [getitem]. rewrite E1.
    change (getitem (JArr (JObj choice :: rest)) (SInt 0))
      with (@inr error _ (JObj choice)).
    cbn [getitem]. rewrite E2. cbn [getitem]. rewrite E3. reflexivity.
Qed.

(** ** The text generator *)

(** X5.  What [generate_digest_html] does, case by case.  Without a
    credential it raises [RuntimeError] with a fixed message; an exception of
    the API call is passed on as it is; an empty content list raises
    [IndexError] and a first block that is no text block [AttributeError].
    It returns exactly when there is a credential and the response starts
    with a text block, whose text it returns while the later blocks are
    dropped; it then logs one entry.  Whenever it raises, the state is as it
    was, and what it raises is an [Exception], never [SystemExit]. *)
Theorem X5_generation_cases (w : World) (articles : list Article)
    (perplexity_text : json) (st : State) :
  let run := generate_digest_html w articles perplexity_text st in
  let response := messages_create w (build_prompt articles perplexity_text) in
  (ANTHROPIC_API_KEY w = [] ->
     run = (inl (Exception (Error RuntimeError (lit "ANTHROPIC_API_KEY is not set"))), st))
  /\ (ANTHROPIC_API_KEY w <> [] ->
       (forall e, response = inl e -> run = (inl (Exception e), st))
       /\ (response = inr [] ->
             run = (inl (Exception (Error IndexError (lit "list index out of range"))), st))
       /\ (forall type_name rest, response = inr (OtherBlock type_name :: rest) ->
             run = (inl (Exception
                           (Error AttributeError
                              (lit "'" ++ type_name ++ lit "' object has no attribute 'text'"))),
                    st)))
  /\ (forall text st',
        run = (inr text, st') <->
        ANTHROPIC_API_KEY w <> []
        /\ (exists rest, response = inr (TextBlock text :: rest))
        /\ st' = with_log st [(INFO, lit "Claude OK — digest generated")])
  /\ (forall x st', run = (inl x, st') -> st' = st /\ exists e, x = Exception e).
Proof.
  intros run response. subst run response. unfold generate_digest_html, bind, lift.
  destruct (ANTHROPIC_API_KEY w) as [|c key]; cbn [truthy negb].
  - split; [reflexivity|]. split; [intros Hk; by destruct Hk|]. split.
    + intros text st'. split; [intros Hr; discriminate Hr|intros [Hk _]; by destruct Hk].
    + intros x st' [= <- <-]. eauto.
  - split; [intros Hk; discriminate Hk|].
    destruct (messages_create w (build_prompt articles perplexity_text))
      as [e|[|[text|tn] rest]]; cbn [first_text raise ret log_msg].
    + split; [intros _; split; [by intros e' [= <-]|split; [intros Hr; discriminate Hr|]]|].
      { intros tn rest Hr. discriminate Hr. }
      split; [|intros x st' [= <- <-]; eauto].
      intros text st'. split; [intros Hr; discriminate Hr|].
      intros (_ & [rest Hr] & _). discriminate Hr.
    + split; [intros _; split; [intros e' Hr; discriminate Hr|split; [reflexivity|]]|].
      { intros tn rest Hr. discriminate Hr. }
      split; [|intros x st' [= <- <-]; eauto].
      intros text st'. split; [intros Hr; discriminate Hr|].
      intros (_ & [rest Hr] & _). discriminate Hr.
    + split; [intros _; split; [intros e' Hr; discriminate Hr|split; [intros Hr; discriminate Hr|]]|].
      { intros tn rest' Hr. discriminate Hr. }
      split; [|intros x st' Hr; discriminate Hr].
      intros text' st'. split.
      * intros [= <- <-]. split; [discriminate|]. split; [by exists rest|reflexivity].
      * intros (_ & [rest' [= <- _]] & ->). reflexivity.
    + split; [intros _; split; [intros e' Hr; discriminate Hr|split; [intros Hr; discriminate Hr|]]|].
      { intros tn' rest' [= <- _]. reflexivity. }
      split; [|intros x st' [= <- <-]; eauto].
      intros text st'. split; [intros Hr; discriminate Hr|].
      intros (_ & [rest' Hr] & _). discriminate Hr.
Qed.

Lemma render_article_ext a b :
  date a = date b -> title a = title b -> source a = source b -> summary a = summary b ->
  render_article a = render_article b.
Proof. unfold render_article. by intros -> -> -> ->. Qed.

(** X6.  The prompt depends on the first thirty articles only, and of these
    only on the date, the title, the source and the summary: the link of an
    article and every article after the thirtieth are not sent. *)
Theorem X6_prompt_inputs (articles1 articles2 : list Article) (perplexity_text : json) :
  Forall2 (fun a b => date a = date b /\ title a = title b
                      /\ source a = source b /\ summary a = summary b)
          (take 30 articles1) (take 30 articles2) ->
  build_prompt articles1 perplexity_text = build_prompt articles2 perplexity_text.
Proof.
  intros Hall. unfold build_prompt, articles_text.
  assert (map render_article (take 30 articles1) = map render_article (take 30 articles2))
    as ->; [|reflexivity].
  induction Hall as [|a b l1 l2 (Hd & Ht & Hs & Hsum) _ IH]; [reflexivity|].
  cbn [map]. by rewrite IH, (render_article_ext a b).
Qed.

(** ** Dates *)

(** X13.  [format_date_czech] prints the day and the year without padding
    around the genitive month name of the table when the month is 1 to 12,
    and raises [KeyError] with the month as its message otherwise.  On the
    date of any instant of the clock it does not raise. *)
Theorem X13_format_date_czech (dt : Date) :
  (1 <= month dt <= 12 ->
     exists name,
       In (month dt, name) CZECH_MONTHS
       /\ format_date_czech dt =
          inr (str_of_int (day dt) ++ lit ". " ++ name ++ lit " " ++ str_of_int (year dt)))
  /\ (~ 1 <= month dt <= 12 ->
       format_date_czech dt = inl (Error KeyError (str_of_int (month dt))))
  /\ (forall t : Z, exists s, format_date_czech (date_of t) = inr s).
Proof.
  split; [|split].
  - intros Hm. unfold format_date_czech.
    assert (month dt = 1 \/ month dt = 2 \/ month dt = 3 \/ month dt = 4
            \/ month dt = 5 \/ month dt = 6 \/ month dt = 7 \/ month dt = 8
            \/ month dt = 9 \/ month dt = 10 \/ month dt = 11 \/ month dt = 12)
      as Hc by lia.
    unfold CZECH_MONTHS.
    repeat (destruct Hc as [-> | Hc];
            [eexists; split; [|reflexivity]; cbn [In]; tauto|]).
    rewrite Hc. eexists; split; [|reflexivity]; cbn [In]; tauto.
  - intros Hm. unfold format_date_czech, CZECH_MONTHS. cbn [dict_get].
    repeat match goal with
           | |- context [?k =? month dt] => destruct (Z.eqb_spec k (month dt)); [lia|]
           end.
    reflexivity.
  - intros t. apply format_date_czech_ok, month_of_date_range.
Qed.

(** ** The run of [main] *)

Lemma feed_log_level w cutoff feed_url : (feed_log w cutoff feed_url).1 <> ERROR.
Proof.
  unfold feed_log. destruct (feedparser_parse w feed_url) as [e|feed]; [discriminate|].
  destruct (loop_error cutoff (entries feed)); discriminate.
Qed.

Lemma fetch_perplexity_insights_level w st :
  exists lv msg,
    lv <> ERROR
    /\ fetch_perplexity_insights w st = (inr (insight_of w), with_log st [(lv, msg)]).
Proof.
  unfold fetch_perplexity_insights, insight_of.
  destruct (PERPLEXITY_API_KEY w) as [|c key]; cbn [truthy negb].
  { exists WARNING. eexists. split; [discriminate|reflexivity]. }
  unfold try_except, perplexity_request, bind, lift.
  destruct (requests_post w) as [e|resp]; cbn [raise ret].
  { exists WARNING. eexists. split; [discriminate|reflexivity]. }
  destruct (raise_for_status resp) as [e|[]]; cbn [raise ret].
  { exists WARNING. eexists. split; [discriminate|reflexivity]. }
  destruct (json_body resp) as [e|body]; cbn [raise ret].
  { exists WARNING. eexists. split; [discriminate|reflexivity]. }
  destruct (choices_content body) as [e|content]; cbn [raise ret].
  { exists WARNING. eexists. split; [discriminate|reflexivity]. }
  exists INFO. eexists. split; [discriminate|reflexivity].
Qed.

(** [main] up to the text generation: it logs, collects and asks for the
    insight, and none of this raises or logs an error. *)
Lemma main_opening w st :
  exists date_display lg,
    format_date_czech (date_of (now_main w)) = inr date_display
    /\ no_error lg
    /\ main w st =
       main_from_generation w (strftime_ymd (now_main w)) date_display
         (main_articles w) (insight_of w) (with_log st (opening_log w :: lg)).
Proof.
  destruct (format_date_czech_ok _ (month_of_date_range (now_main w))) as [dd Hdd].
  exists dd. unfold main, main_from_generation.
  rewrite Hdd. unfold lift at 1. unfold bind at 1, ret at 1.
  unfold bind at 1, log_msg at 1. fold (with_log st
    [(INFO, lit "=== Generating digest for " ++ strftime_ymd (now_main w) ++ lit " ===")]).
  set (st0 := with_log st _).
  unfold bind at 1. rewrite fetch_rss_articles_week.
  destruct (fetch_perplexity_insights_level w (with_log st0
      (map (feed_log w (now_fetch w - 7 * usec_per_day)) FEEDS
       ++ [(INFO, lit "Total RSS articles: "
                  ++ str_of_int (Z.of_nat (length (concat (map (collected w
                       (now_fetch w - 7 * usec_per_day)) FEEDS)))))])))
    as (lv & msg & Hlv & H2).
  unfold bind at 1. rewrite H2.
  unfold st0. rewrite !with_log_with_log.
  exists ((map (feed_log w (now_fetch w - 7 * usec_per_day)) FEEDS
           ++ [(INFO, lit "Total RSS articles: "
                      ++ str_of_int (Z.of_nat (length (concat (map (collected w
                           (now_fetch w - 7 * usec_per_day)) FEEDS)))))])
          ++ [(lv, msg)]).
  split; [reflexivity|]. split; [|reflexivity].
  unfold no_error. apply Forall_app. split; [apply Forall_app; split|].
  - apply Forall_forall. intros x (u & -> & _)%list_elem_of_fmap. apply feed_log_level.
  - constructor; [discriminate|constructor].
  - constructor; [exact Hlv|constructor].
Qed.

(** [main] from the text generation on, when the generation succeeds. *)
Lemma main_from_generation_done w date_str date_display articles insight st html :
  generation_outcome w articles insight = inr html ->
  exists lg,
    main_from_generation w date_str date_display articles insight st =
    (inr tt,
     mkState
       (<[lit "index.html" :=
            index_page (digests_of (<[date_str ++ lit ".html" :=
                                        digest_page date_display html]> (digest_dir st)))]>
          (<[date_str ++ lit ".html" := digest_page date_display html]> (digest_dir st)))
       (patched_main_index (main_index st)
          (digests_of (<[date_str ++ lit ".html" :=
                           digest_page date_display html]> (digest_dir st))))
       (log st ++ lg
        ++ [(INFO, lit "=== Done! Digest " ++ date_str ++ lit " created. ===")]))
    /\ no_error lg.
Proof.
  intros Ho. unfold main_from_generation, try_except.
  unfold bind at 1. rewrite generate_digest_html_spec, Ho.
  unfold bind. rewrite build_digest_page_spec, rebuild_index_page_spec.
  rewrite update_main_index_spec. cbn [digest_dir main_index log with_log].
  unfold patched_main_index.
  destruct (main_index st) as [stored|];
    [destruct (patch_page (universal_newlines stored) _)|];
    unfold log_msg; cbn [digest_dir main_index log with_log];
    (eexists (_ :: _ :: _ :: [_]); split;
     [rewrite <- !app_assoc; reflexivity|repeat constructor; discriminate]).
Qed.

(** X7.  [main] ends in one of two ways, decided by the text generation
    alone: it returns, or it exits with code 1; no exception escapes it,
    whatever the feeds and the insight request do.  Its log starts with the
    opening entry.  An entry of level [ERROR] is logged exactly when the
    generation fails: it is then the last entry and carries the message of
    the exception.  When the generation succeeds the last entry is the
    closing one. *)
Theorem X7_main_log (w : World) (st : State) :
  (forall st2,
      (generate_digest_html w (main_articles w) (insight_of w) st2).1 =
      match generation_outcome w (main_articles w) (insight_of w) with
      | inl e => inl (Exception e)
      | inr html => inr html
      end)
  /\ exists lg,
       log (main w st).2 = log st ++ opening_log w :: lg
       /\ match generation_outcome w (main_articles w) (insight_of w) with
          | inl e =>
              (main w st).1 = inl (SystemExit 1)
              /\ exists before,
                   lg = before ++ [(ERROR, lit "Claude generation failed: " ++ err_msg e)]
                   /\ no_error before
          | inr _ =>
              (main w st).1 = inr tt
              /\ exists before, lg = before ++ [closing_log w] /\ no_error before
          end.
Proof.
  split.
  { intros st2. rewrite generate_digest_html_spec.
    by destruct (generation_outcome w (main_articles w) (insight_of w)). }
  destruct (main_opening w st) as (dd & lg0 & _ & Hall & ->).
  destruct (generation_outcome w (main_articles w) (insight_of w)) as [e|html] eqn:Ho.
  - rewrite (main_from_generation_fail _ _ _ _ _ _ _ Ho). cbn [fst snd log with_log].
    exists (lg0 ++ [(ERROR, lit "Claude generation failed: " ++ err_msg e)]).
    split; [by rewrite <- app_assoc|]. split; [reflexivity|].
    exists lg0. split; [reflexivity|exact Hall].
  - destruct (main_from_generation_done w (strftime_ymd (now_main w)) dd _ _
                (with_log st (opening_log w :: lg0)) html Ho) as (lg1 & -> & Hall1).
    cbn [fst snd log with_log].
    exists (lg0 ++ lg1 ++ [closing_log w]).
    split; [by rewrite <- app_assoc|]. split; [reflexivity|].
    exists (lg0 ++ lg1). split; [by rewrite <- app_assoc|].
    apply Forall_app. split; assumption.
Qed.

Lemma page_name_not_index date_str :
  length date_str = 10%nat -> date_str ++ lit ".html" <> lit "index.html".
Proof.
  intros Hlen Heq. apply (f_equal length) in Heq. rewrite length_app, Hlen in Heq.
  vm_compute in Heq. discriminate Heq.
Qed.

(** X8.  When the generation returns [html], [main] leaves the digest
    directory with exactly two files written: the page of today, named by
    the date of the clock and built from [html] and the Czech date, and the
    archive index, built from the directory that holds that page.  Every
    other file is as it was.  The main page is patched for the digests of
    that directory, or left as it was. *)
Theorem X8_main_files (w : World) (st : State) (html : pystr) :
  generation_outcome w (main_articles w) (insight_of w) = inr html ->
  exists date_display,
    format_date_czech (date_of (now_main w)) = inr date_display
    /\ let page_name := strftime_ymd (now_main w) ++ lit ".html" in
       let dir := published_dir w date_display html (digest_dir st) in
       digest_dir (main w st).2 = <[lit "index.html" := index_page (digests_of dir)]> dir
       /\ main_index (main w st).2 = patched_main_index (main_index st) (digests_of dir)
       /\ digest_dir (main w st).2 !! page_name = Some (digest_page date_display html)
       /\ digest_dir (main w st).2 !! lit "index.html" = Some (index_page (digests_of dir))
       /\ (forall name,
             name <> page_name -> name <> lit "index.html" ->
             digest_dir (main w st).2 !! name = digest_dir st !! name).
Proof.
  intros Ho. destruct (main_opening w st) as (dd & lg0 & Hdd & _ & ->).
  exists dd. split; [exact Hdd|]. intros page_name dir.
  destruct (main_from_generation_done w (strftime_ymd (now_main w)) dd _ _
              (with_log st (opening_log w :: lg0)) html Ho) as (lg1 & -> & _).
  cbn [fst snd digest_dir main_index with_log]. fold page_name.
  change (<[page_name := digest_page dd html]> (digest_dir st)) with dir.
  split; [reflexivity|]. split; [reflexivity|]. split; [|split].
  - rewrite lookup_insert_ne; [apply lookup_insert_eq|].
    intros Heq. symmetry in Heq. revert Heq.
    apply page_name_not_index, iso_date_length, real_clock_date, now_main_real.
  - apply lookup_insert_eq.
  - intros name Hn Hi. rewrite lookup_insert_ne by (intros Heq; by apply Hi).
    unfold dir, published_dir. fold page_name.
    apply lookup_insert_ne. intros Heq. by apply Hn.
Qed.


(** ** The archive and the block of the main page *)

(** X10.  The archive depends only on which names of the directory match
    the pattern: the contents of the files, the files that do not match and
    an index page that is already there change neither the digests returned
    nor the index page written. *)
Theorem X10_archive_by_names (st1 st2 : State) :
  (forall name, fnmatch name DIGEST_PATTERN = true ->
                is_Some (digest_dir st1 !! name) <-> is_Some (digest_dir st2 !! name)) ->
  (rebuild_index_page st1).1 = (rebuild_index_page st2).1
  /\ digest_dir (rebuild_index_page st1).2 !! lit "index.html" =
     digest_dir (rebuild_index_page st2).2 !! lit "index.html".
Proof.
  intros Hext. rewrite !rebuild_index_page_spec. cbn [fst snd digest_dir].
  rewrite (digests_of_ext _ _ Hext). split; [reflexivity|].
  by rewrite !lookup_insert_eq.
Qed.

(** The block of the digests of a directory has the end marker at its end
    and nowhere before. *)
Lemma block_end_first dir pre rest :
  new_block (digests_of dir) = pre ++ END_MARKER ++ rest ->
  (length (START_MARKER ++ block_middle (digests_of dir)) <= length pre)%nat.
Proof.
  rewrite new_block_middle. set (mid := block_middle (digests_of dir)). intros Heq.
  destruct (decide (length (START_MARKER ++ mid) <= length pre)%nat) as [|Hn];
    [assumption|exfalso].
  assert (clean (START_MARKER ++ mid ++ removelast END_MARKER)) as Hclean.
  { replace (START_MARKER ++ mid ++ removelast END_MARKER)
      with (take 19 START_MARKER ++ [65%N]
            ++ (drop 20 START_MARKER ++ mid ++ removelast END_MARKER))
      by (rewrite <- ?app_assoc; reflexivity).
    apply clean_app3; [apply clean_short; vm_compute; lia|by apply guarded_sep|].
    apply clean_block_tail. }
  replace (START_MARKER ++ mid ++ END_MARKER)
    with ((START_MARKER ++ mid ++ removelast END_MARKER) ++ [62%N]) in Heq
    by (rewrite <- ?app_assoc; reflexivity).
  apply occurs_in_prefix in Heq as [k Hk].
  - apply Hclean. by exists pre, k.
  - rewrite !length_app in *.
    change (length (removelast END_MARKER)) with 23%nat.
    change (length END_MARKER) with 24%nat. lia.
Qed.

(** X11.  Whatever the names of the files of the directory, the block built
    from its digests starts with the start marker and has the end marker at
    its end and nowhere else: a file name cannot put an end marker inside
    the block. *)
Theorem X11_block_markers (dir : gmap pystr pystr) :
  let block := new_block (digests_of dir) in
  find block START_MARKER = 0
  /\ find block END_MARKER = Z.of_nat (length block) - Z.of_nat (length END_MARKER)
  /\ (forall pre rest, block = pre ++ END_MARKER ++ rest -> rest = []).
Proof.
  intros block. split; [|split].
  - apply (find_first block START_MARKER [] (block_middle (digests_of dir) ++ END_MARKER)).
    + unfold block. by rewrite new_block_middle.
    + intros pre' rest' _. cbn [length]. lia.
  - rewrite (find_first block END_MARKER
               (START_MARKER ++ block_middle (digests_of dir)) []).
    + unfold block. rewrite new_block_middle, !length_app. lia.
    + unfold block. rewrite new_block_middle, app_nil_r. by rewrite <- !app_assoc.
    + intros pre' rest' Heq. by apply (block_end_first dir pre' rest').
  - intros pre rest Heq. pose proof (block_end_first dir pre rest Heq) as Hle.
    apply (f_equal length) in Heq. unfold block in Heq.
    rewrite new_block_middle in Heq. rewrite !length_app in *.
    destruct rest; [reflexivity|]. cbn [length] in Heq. lia.
Qed.

(** X12.  A patch that is written keeps both markers in the page, the
    start marker at the place where it was in the text read: the next call,
    which reads the page written, finds them and writes again instead of
    giving up with a warning. *)
Theorem X12_patch_keeps_markers (digests digests' : list Digest) (st : State)
    (stored : pystr) :
  main_index st = Some stored ->
  find (universal_newlines stored) START_MARKER <> -1 ->
  find (universal_newlines stored) END_MARKER <> -1 ->
  exists page,
    main_index (update_main_index digests st).2 = Some page
    /\ find page START_MARKER = find (universal_newlines stored) START_MARKER
    /\ find (universal_newlines page) START_MARKER
       = find (universal_newlines stored) START_MARKER
    /\ find page END_MARKER <> -1
    /\ find (universal_newlines page) END_MARKER <> -1
    /\ (exists page', patch_page (universal_newlines page) digests' = Some page')
    /\ log (update_main_index digests' (update_main_index digests st).2).2 =
       log st ++ [(INFO, lit "Main index.html updated");
                  (INFO, lit "Main index.html updated")].
Proof.
  intros Hc Hs He. set (content := universal_newlines stored) in *.
  destruct (find_cases content START_MARKER)
    as [[Hx _] | (pre & after_start & Hf1 & Hc1 & Hmin1 & Hto & _)]; [destruct (Hs Hx)|].
  destruct (find_cases content END_MARKER)
    as [[Hx _] | (inside & post & Hf2 & Hc2 & Hmin2 & _ & Hfrom)]; [destruct (He Hx)|].
  assert (patch_page content digests = Some (pre ++ new_block digests ++ post)) as Hp.
  { unfold patch_page. rewrite Hto, Hfrom.
    destruct (Z.eqb_spec (find content START_MARKER) (-1)); [by destruct Hs|].
    destruct (Z.eqb_spec (find content END_MARKER) (-1)); [by destruct He|].
    reflexivity. }
  pose proof (universal_newlines_no_cr stored) as Hcr. fold content in Hcr.
  assert (universal_newlines pre = pre) as Hpre.
  { apply universal_newlines_id. rewrite Hc1 in Hcr. by apply Forall_app in Hcr as [? _]. }
  set (page := pre ++ new_block digests ++ post) in *.
  (* the first start marker of a text that begins as the page does *)
  assert (forall tail, find (pre ++ START_MARKER ++ tail) START_MARKER
                       = Z.of_nat (length pre)) as Hfirst.
  { intros tail. apply (find_first _ _ pre tail eq_refl).
    intros pre' rest' Heq.
    destruct (decide (length pre <= length pre')%nat) as [|Hn]; [assumption|exfalso].
    replace (pre ++ START_MARKER ++ tail) with ((pre ++ START_MARKER) ++ tail) in Heq
      by (rewrite <- ?app_assoc; reflexivity).
    apply occurs_in_prefix in Heq as [k Hk]; [|rewrite length_app; lia].
    assert (length pre <= length pre')%nat; [|lia].
    apply (Hmin1 pre' (k ++ after_start)).
    rewrite Hc1 at 1. rewrite app_assoc, Hk. by rewrite <- !app_assoc. }
  assert (page = pre ++ START_MARKER ++ block_middle digests ++ END_MARKER ++ post)
    as Hpage.
  { unfold page. rewrite new_block_middle. by rewrite <- !app_assoc. }
  assert (universal_newlines page
          = pre ++ START_MARKER
            ++ universal_newlines (block_middle digests ++ END_MARKER ++ post)) as Hread1.
  { rewrite Hpage.
    rewrite (universal_newlines_around pre START_MARKER) by
      first [apply plain_START_MARKER | discriminate].
    by rewrite Hpre. }
  assert (universal_newlines page
          = universal_newlines (pre ++ START_MARKER ++ block_middle digests)
            ++ END_MARKER ++ universal_newlines post) as Hread2.
  { rewrite Hpage.
    replace (pre ++ START_MARKER ++ block_middle digests ++ END_MARKER ++ post)
      with ((pre ++ START_MARKER ++ block_middle digests) ++ END_MARKER ++ post)
      by (rewrite <- ?app_assoc; reflexivity).
    apply universal_newlines_around; [apply plain_END_MARKER|discriminate]. }
  assert (find page START_MARKER = Z.of_nat (length pre)) as Hfind1
    by (rewrite Hpage; apply Hfirst).
  assert (find (universal_newlines page) START_MARKER = Z.of_nat (length pre)) as Hfind1'
    by (rewrite Hread1; apply Hfirst).
  assert (find page END_MARKER <> -1) as Hfind2.
  { intros Hx. apply find_none in Hx. apply Hx.
    exists (pre ++ START_MARKER ++ block_middle digests), post.
    rewrite Hpage. by rewrite <- !app_assoc. }
  assert (find (universal_newlines page) END_MARKER <> -1) as Hfind2'.
  { intros Hx. apply find_none in Hx. apply Hx. rewrite Hread2. by eexists _, _. }
  assert (exists page', patch_page (universal_newlines page) digests' = Some page')
    as [page' Hp'].
  { unfold patch_page.
    destruct (Z.eqb_spec (find (universal_newlines page) START_MARKER) (-1)); [lia|].
    destruct (Z.eqb_spec (find (universal_newlines page) END_MARKER) (-1));
      [by destruct Hfind2'|].
    cbn [orb]. by eexists. }
  exists page. rewrite !update_main_index_spec. cbn [fst snd].
  rewrite Hc. fold content. rewrite Hp. cbn [main_index]. rewrite Hp'. cbn [log].
  split; [reflexivity|]. split; [by rewrite Hfind1, Hf1|].
  split; [by rewrite Hfind1', Hf1|]. split; [exact Hfind2|]. split; [exact Hfind2'|].
  split; [by exists page'|]. by rewrite <- app_assoc.
Qed.

End More.

(** * The theorems at sample inputs *)

#[local] Existing Instance sample_library.


(** The claim C1 as stated fails on a feed in which the parser rejects the
    summary of an entry: the entry without a date that follows is not in the
    output. *)
Lemma C1_counterexample :
  ~ (forall (L : Library) (w : World) (st : State) (feed_url : pystr) (feed : Feed)
            (e : Entry) (articles : list Article),
        feed_url ∈ FEEDS ->
        feedparser_parse w feed_url = inr feed ->
        e ∈ entries feed ->
        @parse_entry_date L e = None ->
        (@fetch_rss_articles L w 7 st).1 = inr articles ->
        @make_article L feed_url feed e None ∈ articles).
Proof.
  intros Hc.
  specialize (Hc sample_library broken_world sample_state
                 (lit "https://www.adweek.com/feed/") broken_feed entry_undated
                 [mkArticle (lit "A title") (lit "https://a/1") (lit "Brand news")
                            (lit "Adweek") (lit "2026-01-05")]).
  assert (make_article (lit "https://www.adweek.com/feed/") broken_feed entry_undated None
          ∈ [mkArticle (lit "A title") (lit "https://a/1") (lit "Brand news")
                       (lit "Adweek") (lit "2026-01-05")]) as Hin.
  { apply Hc.
    - unfold FEEDS. apply list_elem_of_here.
    - reflexivity.
    - unfold broken_feed. cbn [entries].
      do 2 apply list_elem_of_further. apply list_elem_of_here.
    - reflexivity.
    - vm_compute. reflexivity. }
  apply list_elem_of_In in Hin. vm_compute in Hin.
  destruct Hin as [Heq|[]]. discriminate Heq.
Qed.

(** The claim C3 as stated fails on a directory with the files
    [2024-01-04.html] and [2024-01- 5.html]: [strptime] reads both names as
    dates, and the later date is listed last. *)
Lemma C3_counterexample :
  ~ (forall (L : Library) (st : State) (l1 l2 l3 : list Digest) (x y : Digest)
            (dx dy : Date),
        (@rebuild_index_page L st).1 = inr (l1 ++ x :: l2 ++ y :: l3) ->
        @strptime L (date_str x) = inr dx ->
        @strptime L (date_str y) = inr dy ->
        date_lt dy dx).
Proof.
  intros Hc.
  specialize (Hc sample_library spaced_state [] [] []
                 (mkDigest (lit "2024-01-04.html") (lit "2024-01-04") (lit "4. ledna 2024"))
                 (mkDigest (lit "2024-01- 5.html") (lit "2024-01- 5") (lit "5. ledna 2024"))
                 (mkDate 2024 1 4) (mkDate 2024 1 5)).
  vm_compute in Hc. specialize (Hc eq_refl eq_refl eq_refl). discriminate Hc.
Qed.

(** C2 without a credential: exit code 1, the files as they were. *)
Lemma C2_witness :
  exit_code (main failing_world sample_state).1 = 1
  /\ digest_dir (main failing_world sample_state).2 = digest_dir sample_state
  /\ main_index (main failing_world sample_state).2 = main_index sample_state.
Proof.
  destruct (C2_exit_code failing_world sample_state) as (Hkey & _).
  apply Hkey. reflexivity.
Defined.


(** The claim C4 as stated fails on that page: the text before the start
    marker and the text after the end marker lose their [\r]. *)
Lemma C4_counterexample :
  ~ (forall (digests : list Digest) (st : State) (content : pystr),
        main_index st = Some content ->
        find content START_MARKER <> -1 -> find content END_MARKER <> -1 ->
        main_index (update_main_index digests st).2 =
        Some (slice_to content (find content START_MARKER) ++ new_block digests
              ++ slice_from content
                   (find content END_MARKER + Z.of_nat (length END_MARKER)))).
Proof.
  intros Hc. specialize (Hc [] crlf_state crlf_page eq_refl).
  assert (find crlf_page START_MARKER <> -1) as Hs by (vm_compute; discriminate).
  assert (find crlf_page END_MARKER <> -1) as He by (vm_compute; discriminate).
  specialize (Hc Hs He). apply (f_equal (fmap (M := option) length)) in Hc.
  vm_compute in Hc. discriminate Hc.
Qed.

(** C5 when every service fails: the empty string and one warning. *)
Lemma C5_witness :
  exists msg,
    returns_logging (fetch_perplexity_insights failing_world sample_state)
      sample_state (JStr []) [(WARNING, msg)].
Proof.
  destruct (C5_insights_never_abort failing_world sample_state)
    as (_ & Hfail & _).
  apply Hfail. left. reflexivity.
Defined.

(** C6 on the sample repository, whose main page is well marked. *)
Lemma C6_witness :
  well_marked (main_index sample_state)
  /\ main_index
       (publish (lit "2026-01-05") (lit "5. ledna 2026") (lit "<h2>x</h2>")
          (publish (lit "2026-01-05") (lit "5. ledna 2026") (lit "<h2>x</h2>")
             sample_state).2).2
     = main_index
         (publish (lit "2026-01-05") (lit "5. ledna 2026") (lit "<h2>x</h2>")
            sample_state).2.
Proof.
  assert (well_marked (main_index sample_state)) as Hwm.
  { right. right. vm_compute. reflexivity. }
  split; [exact Hwm|].
  exact (proj1 (proj2 (proj2 (proj2
           (C6_publisher_idempotent (lit "2026-01-05")
              (lit "5. ledna 2026") (lit "<h2>x</h2>") sample_state Hwm))))).
Defined.

(** The claim C6 as stated fails on a main page whose end marker comes
    first: each run inserts the block again, so the page after two runs is
    not the page after one. *)
Lemma C6_counterexample :
  main_index
    (publish (lit "2026-01-05") (lit "5. ledna 2026") (lit "<h2>x</h2>")
       (publish (lit "2026-01-05") (lit "5. ledna 2026") (lit "<h2>x</h2>")
          reversed_state).2).2
  <> main_index
       (publish (lit "2026-01-05") (lit "5. ledna 2026") (lit "<h2>x</h2>")
          reversed_state).2.
Proof.
  intros Heq. apply (f_equal (fmap (M := option) length)) in Heq.
  vm_compute in Heq. discriminate Heq.
Qed.

(** The claim C7 as stated fails on a summary that starts with a blank: the
    script strips the blanks that remain after the cut. *)
Lemma C7_counterexample :
  ~ (forall (L : Library) (feed_url : pystr) (feed : Feed) (e : Entry)
            (pub_date : option Z) (s : pystr),
        entry_summary e = Some s ->
        summary (@make_article L feed_url feed e pub_date) = take 300 (@get_text L s)).
Proof.
  intros Hc.
  specialize (Hc sample_library [] sample_feed entry_blank None (lit " a") eq_refl).
  vm_compute in Hc. discriminate Hc.
Qed.

(** C9 on a directory with the file [abcd-ef-gh.html]. *)
Lemma C9_witness :
  mkDigest (lit "abcd-ef-gh.html") (lit "abcd-ef-gh") (lit "abcd-ef-gh")
  ∈ digests_of (digest_dir odd_state).
Proof.
  destruct (C9_unparseable_stem_listed odd_state)
    as (_ & _ & _ & Hbad & _).
  destruct (Hbad (lit "abcd-ef-gh.html")
              (no_match (lit "abcd-ef-gh")))
    as (_ & Hin & _).
  - eexists. vm_compute. reflexivity.
  - vm_compute. reflexivity.
  - vm_compute. reflexivity.
  - exact Hin.
Defined.

(** X3 in the sample world, where the insight service answers. *)
Lemma X3_witness :
  fetch_perplexity_insights sample_world sample_state =
  (inr (JStr (lit "Trends.")), with_log sample_state [(INFO, lit "Perplexity OK")]).
Proof.
  apply (X3_insight_success sample_world sample_state
           (mkResponse 200 (lit "OK") (inr sample_insight)) sample_insight).
  - intros Heq. vm_compute in Heq. discriminate Heq.
  - reflexivity.
  - cbn [status_code]. lia.
  - reflexivity.
  - vm_compute. reflexivity.
Defined.

(** X6 on thirty-one articles and the first thirty of them without their
    links. *)
Lemma X6_witness :
  build_prompt (thirty_articles ++ [sample_article 30]) (JStr [])
  = build_prompt
      (map (fun a => mkArticle (title a) [] (summary a) (source a) (date a))
           thirty_articles)
      (JStr []).
Proof.
  apply X6_prompt_inputs. vm_compute. repeat constructor.
Defined.

(** X8 on the sample repository: the stray file is as it was. *)
Lemma X8_witness :
  digest_dir (main sample_world sample_state).2 !! lit "notes.txt" = Some (lit "c").
Proof.
  destruct (X8_main_files sample_world sample_state (lit "<h2>Top novinky týdne</h2>"))
    as (dd & _ & _ & _ & _ & _ & Hframe).
  - vm_compute. reflexivity.
  - rewrite Hframe.
    + vm_compute. reflexivity.
    + intros Heq. vm_compute in Heq. discriminate Heq.
    + intros Heq. vm_compute in Heq. discriminate Heq.
Defined.


(** X10 on the sample repository and the one with other contents. *)
Lemma X10_witness :
  (rebuild_index_page sample_state).1 = (rebuild_index_page sample_state_2).1.
Proof.
  apply (X10_archive_by_names sample_state sample_state_2).
  intros name Hm. unfold sample_state, sample_state_2. cbn [digest_dir].
  destruct (decide (name = lit "2025-12-29.html")) as [->|Hn1].
  { rewrite !lookup_insert_eq. split; intros _; eexists; reflexivity. }
  rewrite !(lookup_insert_ne _ (lit "2025-12-29.html") name)
    by (intros Heq; apply Hn1; symmetry; exact Heq).
  destruct (decide (name = lit "2025-12-22.html")) as [->|Hn2].
  { rewrite !lookup_insert_eq. split; intros _; eexists; reflexivity. }
  rewrite !(lookup_insert_ne _ (lit "2025-12-22.html") name)
    by (intros Heq; apply Hn2; symmetry; exact Heq).
  destruct (decide (name = lit "notes.txt")) as [->|Hn3];
    [vm_compute in Hm; discriminate Hm|].
  destruct (decide (name = lit "index.html")) as [->|Hn4];
    [vm_compute in Hm; discriminate Hm|].
  destruct (decide (name = lit "2025-12-22.HTML")) as [->|Hn5];
    [vm_compute in Hm; discriminate Hm|].
  rewrite (lookup_insert_ne _ (lit "notes.txt") name)
    by (intros Heq; apply Hn3; symmetry; exact Heq).
  rewrite (lookup_insert_ne _ (lit "index.html") name)
    by (intros Heq; apply Hn4; symmetry; exact Heq).
  rewrite (lookup_insert_ne _ (lit "2025-12-22.HTML") name)
    by (intros Heq; apply Hn5; symmetry; exact Heq).
  reflexivity.
Defined.

(** X12 on the sample page, which has both markers. *)
Lemma X12_witness :
  exists page,
    main_index (update_main_index [] sample_state).2 = Some page
    /\ find page END_MARKER <> -1.
Proof.
  destruct (X12_patch_keeps_markers [] [] sample_state sample_page)
    as (page & Hp & _ & _ & He & _).
  - reflexivity.
  - vm_compute. discriminate.
  - vm_compute. discriminate.
  - exists page. split; [exact Hp|exact He].
Defined.

(** * Sample runs *)

Example collector_sample :
  (fetch_rss_articles sample_world 7 sample_state).1 =
  inr [ mkArticle (lit "A title") (lit "https://a/1") (lit "Brand news")
                  (lit "Adweek") (lit "2026-01-05");
        mkArticle (lit "Undated") [] [] (lit "Adweek") [] ].
Proof. vm_compute. reflexivity. Qed.

Example insight_sample :
  (fetch_perplexity_insights sample_world sample_state).1 = inr (JStr (lit "Trends.")).
Proof. vm_compute. reflexivity. Qed.

Example archive_sample :
  (rebuild_index_page sample_state).1 =
  inr [ mkDigest (lit "2025-12-29.html") (lit "2025-12-29") (lit "29. prosince 2025");
        mkDigest (lit "2025-12-22.html") (lit "2025-12-22") (lit "22. prosince 2025") ].
Proof. vm_compute. reflexivity. Qed.

Example archive_odd_sample :
  (rebuild_index_page odd_state).1 =
  inr [ mkDigest (lit "abcd-ef-gh.html") (lit "abcd-ef-gh") (lit "abcd-ef-gh");
        mkDigest (lit "2025-12-29.html") (lit "2025-12-29") (lit "29. prosince 2025") ].
Proof. vm_compute. reflexivity. Qed.

Example main_sample :
  exit_code (main sample_world sample_state).1 = 0
  /\ sorted_reverse ((map_to_list (digest_dir (main sample_world sample_state).2)).*1) =
     [ lit "notes.txt"; lit "index.html"; lit "2026-01-06.html";
       lit "2025-12-29.html"; lit "2025-12-22.html" ]
  /\ main_index (main sample_world sample_state).2 =
     Some (lit "<body>"
           ++ new_block
                [ mkDigest (lit "2026-01-06.html") (lit "2026-01-06") (lit "6. ledna 2026");
                  mkDigest (lit "2025-12-29.html") (lit "2025-12-29") (lit "29. prosince 2025");
                  mkDigest (lit "2025-12-22.html") (lit "2025-12-22") (lit "22. prosince 2025") ]
           ++ lit "</body>").
Proof.
  repeat split; vm_compute; reflexivity.
Qed.

Example main_failing_sample :
  (main failing_world sample_state).1 = inl (SystemExit 1)
  /\ digest_dir (main failing_world sample_state).2 = digest_dir sample_state.
Proof. split; vm_compute; reflexivity. Qed.

Example strptime_samples :
  strptime (lit "2024-02-29") = inr (mkDate 2024 2 29)
  /\ strptime (lit "2024-02-30") = inl (Error ValueError (lit "day is out of range for month"))
  /\ strptime (lit "2024-01-32") = inl (Error ValueError (lit "unconverted data remains: 2"))
  /\ strptime (lit "2024-13-01") = inl (no_match (lit "2024-13-01"))
  /\ strptime (lit "0000-01-01") = inl (Error ValueError (lit "year 0 is out of range"))
  /\ strptime (lit "2024-01- 5") = inr (mkDate 2024 1 5).
Proof. repeat split; vm_compute; reflexivity. Qed.

Example date_of_samples :
  date_of 0 = mkDate 1970 1 1
  /\ date_of 1709164800000000 = mkDate 2024 2 29
  /\ date_of (-1) = mkDate 1969 12 31
  /\ strftime_ymd 1767700800000000 = lit "2026-01-06".
Proof. repeat split; vm_compute; reflexivity. Qed.
